(** * ConvertFullyConnectedToFullyConnectedCompressed

    A shallow embedding of the matcher pass of
    [src/plugins/intel_gpu/src/plugin/transformations/convert_fc_to_compressed.cpp]
    and the properties its specification states about it.

    The graph is an arena of nodes addressed by stable identifiers; a
    [std::shared_ptr<ov::Node>] is an address in that arena.  The callback is
    written in a small state-and-exception monad over the arena, line by line
    after the C++ lambda. *)

From Stdlib Require Import NArith ZArith String.
From stdpp Require Import base numbers option list gmap strings.

Local Open Scope N_scope.

(** ** Element types, shapes *)

(** [ov::element::Type_t]. *)
Inductive element_type :=
  | undefined | dynamic | boolean | bf16 | f16 | f32 | f64
  | i4 | i8 | i16 | i32 | i64 | u1 | u4 | u8 | u16 | u32 | u64.

#[global] Instance element_type_eq_dec : EqDecision element_type.
Proof. solve_decision. Defined.

(** [size_t] on the 64-bit targets of the GPU plugin: arithmetic wraps. *)
Definition size_t_bits : N := 64.

Definition size_t_wrap (x : N) : N := x mod 2 ^ size_t_bits.

(** [a * b] on [size_t] operands. *)
Definition size_mul (a b : N) : N := size_t_wrap (a * b).

(** [ov::Shape] is a [std::vector<size_t>]. *)
Abbreviation Shape := (list N).

(** [ov::shape_size]: the element count, the product of the dimensions
    accumulated in [size_t]. *)
Definition shape_size (s : Shape) : N := foldl size_mul 1 s.

(** [ov::Dimension] and [ov::PartialShape]: a rank that may be unknown, and
    dimensions that may be unknown. *)
Inductive Dimension := dynamic_dim | static_dim (d : N).

Inductive PartialShape := dynamic_rank | static_rank (dims : list Dimension).

#[global] Instance Dimension_eq_dec : EqDecision Dimension.
Proof. solve_decision. Defined.

#[global] Instance PartialShape_eq_dec : EqDecision PartialShape.
Proof. solve_decision. Defined.

Definition rank_is_static (ps : PartialShape) : bool :=
  match ps with dynamic_rank => false | static_rank _ => true end.

(** [PartialShape::size()]: the number of stored dimensions. *)
Definition ps_size (ps : PartialShape) : nat :=
  match ps with dynamic_rank => 0%nat | static_rank dims => length dims end.

Definition of_shape (s : Shape) : PartialShape := static_rank (static_dim <$> s).

Definition dim_value (d : Dimension) : option N :=
  match d with dynamic_dim => None | static_dim n => Some n end.

(** [PartialShape::to_shape()], defined on static shapes only. *)
Definition to_shape (ps : PartialShape) : option Shape :=
  match ps with
  | dynamic_rank => None
  | static_rank dims => mapM dim_value dims
  end.

(** ** Nodes and the arena *)

(** [ov::Output<ov::Node>]: a node together with one of its output ports. *)
Record Output := mk_Output { get_node_shared_ptr : nat; get_index : nat }.

#[global] Instance Output_eq_dec : EqDecision Output.
Proof. solve_decision. Defined.

(** The operator types the pass distinguishes ([get_type_info()]). *)
Inductive node_type :=
  | Constant | Convert | Subtract | Multiply | Reshape | Transpose
  | FullyConnected | FullyConnectedCompressed
  | OtherOp (name : string).

#[global] Instance node_type_eq_dec : EqDecision node_type.
Proof. solve_decision. Defined.

(** The payload of a constant.  The pass never reads the values of the
    constants it is given, it only shares their buffers with reshaped copies;
    the one constant whose values it writes is the [i32] permutation. *)
Inductive buffer :=
  | host_buffer (handle : nat)
  | i32_values (values : list Z).

#[global] Instance buffer_eq_dec : EqDecision buffer.
Proof. solve_decision. Defined.

(** An operator object with the members of its class that the pass reads:
    [m_element_type], [m_shape] and [m_data] of a [Constant], [m_output_type]
    of a [FullyConnected] or [FullyConnectedCompressed]. *)
Inductive operator :=
  | a_Constant (m_element_type : element_type) (m_shape : Shape) (m_data : buffer)
  | a_Convert
  | a_Subtract
  | a_Multiply
  | a_Reshape
  | a_Transpose
  | a_FullyConnected (m_output_type : element_type)
  | a_FullyConnectedCompressed (m_output_type : element_type)
  | an_OtherOp (name : string).

Definition get_type_info (o : operator) : node_type :=
  match o with
  | a_Constant _ _ _ => Constant
  | a_Convert => Convert
  | a_Subtract => Subtract
  | a_Multiply => Multiply
  | a_Reshape => Reshape
  | a_Transpose => Transpose
  | a_FullyConnected _ => FullyConnected
  | a_FullyConnectedCompressed _ => FullyConnectedCompressed
  | an_OtherOp name => OtherOp name
  end.

(** [ov::descriptor::Tensor]: element type and partial shape of one output. *)
Record Tensor := mk_Tensor {
  tensor_element_type : element_type;
  tensor_partial_shape : PartialShape;
}.

(** An [ov::Node]: the operator, the source of each input port, the output
    descriptors computed by type and shape inference, the display name and
    the provenance metadata. *)
Record Node := mk_Node {
  op : operator;
  inputs : list Output;
  inferred_outputs : list Tensor;
  friendly_name : string;
  rt_info : list string;
}.

Definition type_info (n : Node) : node_type := get_type_info (op n).

(** The output descriptors of a node.  A [Constant] has one output, which
    carries its [m_element_type] and [m_shape]. *)
Definition outputs (n : Node) : list Tensor :=
  match op n with
  | a_Constant et shape _ => [mk_Tensor et (of_shape shape)]
  | _ => inferred_outputs n
  end.

(** The arena: slot [p] holds the node with address [p], or nothing once the
    node has been retired. *)
Abbreviation Graph := (list (option Node)).

Definition node_at (g : Graph) (p : nat) : option Node := mjoin (g !! p).

Definition output_tensor (g : Graph) (o : Output) : option Tensor :=
  n ← node_at g (get_node_shared_ptr o); outputs n !! get_index o.

(** [Output::get_element_type()] and [Output::get_partial_shape()]. *)
Definition get_element_type (g : Graph) (o : Output) : option element_type :=
  tensor_element_type <$> output_tensor g o.

Definition get_partial_shape (g : Graph) (o : Output) : option PartialShape :=
  tensor_partial_shape <$> output_tensor g o.

(** Modelled from the spec: the framework's conversion of a
    [shared_ptr<Node>] to the [Output<Node>] an operator constructor expects.
    A node handle carries no port; the conversion yields the default output
    of the node, [node->output(0)]. *)
Definition output0 (p : nat) : Output := mk_Output p 0.

(** The static shape of a node's first output, when it has one. *)
Definition shape_of (g : Graph) (p : nat) : option Shape :=
  get_partial_shape g (output0 p) ≫= to_shape.

(** The input ports, among [ins], that read output [o]. *)
Definition ports_reading (o : Output) (ins : list Output) : list nat :=
  omap id (imap (λ i src, if decide (src = o) then Some i else None) ins).

(** Modelled from the spec: [Output::get_target_inputs()] of the framework,
    the consumers of an output: every (consumer, input port) of the live
    graph that reads output [o]. *)
Definition get_target_inputs (g : Graph) (o : Output) : list (nat * nat) :=
  mjoin (imap (λ p slot,
                 match slot with
                 | Some n => (λ i, (p, i)) <$> ports_reading o (inputs n)
                 | None => []
                 end) g).

(** ** The state-and-exception monad of the callback *)

Inductive exception :=
  | assertion_failed (cond : string)
  | out_of_range
  | null_dereference.

Inductive result (A : Type) :=
  | Ok (a : A)
  | Raise (e : exception).

Arguments Ok {A} a.
Arguments Raise {A} e.

Definition M (A : Type) : Type := Graph → result (A * Graph).

Definition ret {A} (a : A) : M A := λ g, Ok (a, g).

Definition bind {A B} (c : M A) (k : A → M B) : M B :=
  λ g, match c g with
       | Ok (a, g') => k a g'
       | Raise e => Raise e
       end.

Definition raise {A} (e : exception) : M A := λ _, Raise e.

(** Reading the arena. *)
Definition ask {A} (f : Graph → A) : M A := λ g, Ok (f g, g).

Notation "'let*' x ':=' c 'in' k" := (bind c (λ x, k))
  (at level 10, x name, c at level 100, k at level 200).

Notation "c ';;' k" := (bind c (λ _, k))
  (at level 100, k at level 200, right associativity).

Definition OPENVINO_ASSERT (cond : bool) (text : string) : M unit :=
  if cond then ret tt else raise (assertion_failed text).

(** [std::make_shared<...>]: a new node gets the next free address. *)
Definition make_shared (n : Node) : M nat := λ g, Ok (length g, g ++ [Some n]).

(** [std::dynamic_pointer_cast<T>(p)]: [p] when the node is a [T], null
    otherwise. *)
Definition dynamic_pointer_cast (ty : node_type) (p : nat) : M (option nat) :=
  ask (λ g, match node_at g p with
            | Some n => if decide (type_info n = ty) then Some p else None
            | None => None
            end).

(** [Output::get_shape()]: raises when the shape is not static. *)
Definition get_shape (o : Output) : M Shape :=
  let* ps := ask (λ g, get_partial_shape g o ≫= to_shape) in
  match ps with
  | Some s => ret s
  | None => raise (assertion_failed "is_static()")
  end.

(** [Node::get_shape()]: the static shape of the only output of a node. *)
Definition Node_get_shape (node : nat) : M Shape :=
  let* n := ask (λ g, node_at g node) in
  match n with
  | Some n =>
      OPENVINO_ASSERT (bool_decide (length (outputs n) = 1%nat))
                      "get_output_size() == 1" ;;
      get_shape (output0 node)
  | None => raise null_dereference
  end.

(** [Constant::get_shape()]: the [m_shape] member. *)
Definition Constant_get_shape (constant : nat) : M Shape :=
  let* n := ask (λ g, node_at g constant) in
  match op <$> n with
  | Some (a_Constant _ shape _) => ret shape
  | _ => raise null_dereference
  end.

(** Modelled from the spec: [Constant(const Constant& other, const Shape&
    new_shape)] of the framework constructs a constant with a new shape over
    existing data: same element type, same buffer; the constructor checks
    that the element count is the same. *)
Definition Constant_reshaped (other : nat) (new_shape : Shape) : M nat :=
  let* n := ask (λ g, node_at g other) in
  match op <$> n with
  | Some (a_Constant et shape data) =>
      OPENVINO_ASSERT (bool_decide (shape_size shape = shape_size new_shape))
                      "shape_size(other.m_shape) == shape_size(new_shape)" ;;
      make_shared {| op := a_Constant et new_shape data;
                     inputs := [];
                     inferred_outputs := [];
                     friendly_name := "";
                     rt_info := [] |}
  | _ => raise null_dereference
  end.

(** ** The shape canonicalizer (lines 78-90) *)

Definition reshape_const_to_2d (has_transpose grouped : bool) (node : nat) : M nat :=
  let* constant := dynamic_pointer_cast Constant node in
  match constant with
  | None => raise (assertion_failed "constant != nullptr")
  | Some constant =>
      let* current_shape := Constant_get_shape constant in
      if decide (length current_shape = 2%nat) then ret constant
      else
        OPENVINO_ASSERT (bool_decide (length current_shape = 3%nat))
                        "current_shape.size() == 3" ;;
        let new_shape : Shape :=
          if has_transpose || negb grouped
          then [size_mul (current_shape !!! 0%nat) (current_shape !!! 1%nat);
                current_shape !!! 2%nat]
          else [current_shape !!! 0%nat;
                size_mul (current_shape !!! 1%nat) (current_shape !!! 2%nat)] in
        Constant_reshaped constant new_shape
  end.

(** ** The pattern engine *)

(** The state of an [ov::pass::pattern::Matcher]: the binding map from pattern
    nodes (by identity) to graph values, and the list of matched nodes. *)
Record Matcher := mk_Matcher {
  get_pattern_value_map : gmap nat Output;
  get_matched_nodes : list nat;
}.

Definition empty_Matcher : Matcher := mk_Matcher ∅ [].

(** A pattern node: its identity, which is its key in the binding map, and
    what it accepts. *)
Record pattern := mk_pattern {
  pattern_id : nat;
  match_value : Graph → Output → Matcher → option Matcher;
}.

(** Binding a pattern node to a graph value records the value under the
    node's identity and the value's node among the matched nodes. *)
Definition add_binding (id : nat) (v : Output) (m : Matcher) : Matcher :=
  {| get_pattern_value_map := <[id := v]> (get_pattern_value_map m);
     get_matched_nodes := get_matched_nodes m ++ [get_node_shared_ptr v] |}.

(** Modelled from the spec: the matching engine of the framework.  The input
    patterns of a pattern node are matched against the input values of the
    graph node position by position (the specification speaks of the second
    operand of the subtract and of the multiply), threading the bindings. *)
Fixpoint match_arguments (g : Graph) (pats : list pattern) (vals : list Output)
    (m : Matcher) : option Matcher :=
  match pats, vals with
  | [], [] => Some m
  | p :: pats, v :: vals =>
      match match_value p g v m with
      | Some m' => match_arguments g pats vals m'
      | None => None
      end
  | _, _ => None
  end.

(** Modelled from the spec: [wrap_type<T>(inputs, predicate)] of the engine
    accepts a value whose node has operator type [T] and satisfies the
    predicate, binds it, and, when input patterns are given, requires the
    node's inputs to match them. *)
Definition wrap_type (id : nat) (ty : node_type) (args : list pattern)
    (pred : Graph → Output → bool) : pattern :=
  mk_pattern id (λ g v m,
    match node_at g (get_node_shared_ptr v) with
    | Some n =>
        if decide (type_info n = ty) then
          if pred g v then
            match args with
            | [] => Some (add_binding id v m)
            | _ => match_arguments g args (inputs n) (add_binding id v m)
            end
          else None
        else None
    | None => None
    end).

(** Modelled from the spec: the alternation node [pattern::op::Or] of the
    engine ("one of these sub-trees matches here"); the bindings of an
    alternative that fails are discarded. *)
Fixpoint first_match (alts : list pattern) (g : Graph) (v : Output) (m : Matcher)
    : option Matcher :=
  match alts with
  | [] => None
  | p :: alts =>
      match match_value p g v m with
      | Some m' => Some m'
      | None => first_match alts g v m
      end
  end.

Definition Or (id : nat) (alts : list pattern) : pattern :=
  mk_pattern id (first_match alts).

(** Modelled from the spec: [any_input()] of the engine accepts and binds any
    value. *)
Definition any_input (id : nat) : pattern :=
  mk_pattern id (λ _ v m, Some (add_binding id v m)).

(** Modelled from the spec: [consumers_count(n)] of the engine, the predicate
    "has exactly [n] consumers". *)
Definition consumers_count (n : nat) : Graph → Output → bool :=
  λ g output, bool_decide (length (get_target_inputs g output) = n).

(** A pattern node declared without a predicate accepts every value of its
    type. *)
Definition no_predicate : Graph → Output → bool := λ _ _, true.

(** [Node::get_input_partial_shape(i)] and [get_output_partial_shape(i)]. *)
Definition get_input_partial_shape (g : Graph) (p i : nat) : option PartialShape :=
  n ← node_at g p; src ← inputs n !! i; get_partial_shape g src.

Definition get_output_partial_shape (g : Graph) (p i : nat) : option PartialShape :=
  get_partial_shape g (mk_Output p i).

(** ** The pattern (lines 29-61) *)

Definition compressed_constant : Graph → Output → bool :=
  λ g output,
    (bool_decide (get_element_type g output = Some u8) ||
     bool_decide (get_element_type g output = Some i8)) &&
    bool_decide (length (get_target_inputs g output) = 1%nat).

Definition reshape_3d_to_2d : Graph → Output → bool :=
  λ g output,
    match get_input_partial_shape g (get_node_shared_ptr output) 0,
          get_output_partial_shape g (get_node_shared_ptr output) 0 with
    | Some in_ps, Some out_ps =>
        rank_is_static in_ps && rank_is_static out_ps &&
        bool_decide (ps_size in_ps = 3%nat) && bool_decide (ps_size out_ps = 2%nat)
    | _, _ => false
    end.

(** The pattern nodes, in the order of their declaration; the first argument
    is the identity of the node, its key in the binding map. *)
Definition weights_m := wrap_type 1 Constant [] compressed_constant.
Definition convert_m := wrap_type 2 Convert [weights_m] no_predicate.

Definition sub_const_m := wrap_type 3 Constant [] (consumers_count 1).
Definition subtract_m := wrap_type 4 Subtract [convert_m; sub_const_m] no_predicate.

Definition mul_const_m := wrap_type 5 Constant [] (consumers_count 1).
Definition mul_with_sub_m := wrap_type 6 Multiply [subtract_m; mul_const_m] no_predicate.
Definition mul_no_sub_m := wrap_type 7 Multiply [convert_m; mul_const_m] no_predicate.
Definition mul_m := Or 8 [mul_with_sub_m; mul_no_sub_m].

Definition reshape_const_m := wrap_type 9 Constant [] no_predicate.
Definition reshape_m := wrap_type 10 Reshape [mul_m; reshape_const_m] reshape_3d_to_2d.

Definition transpose_input := Or 11 [reshape_m; mul_m].
Definition transpose_const_m := wrap_type 12 Constant [] no_predicate.
Definition transpose_m := wrap_type 13 Transpose [transpose_input; transpose_const_m] no_predicate.

Definition data_m := any_input 14.
Definition weights_input_m := Or 15 [reshape_m; transpose_m; mul_m].
Definition fully_connected_m :=
  wrap_type 16 FullyConnected [data_m; weights_input_m] no_predicate.

(** [Matcher::match(node->output(0))] on a fresh matcher, as the pass manager
    does at every candidate node. *)
Definition Matcher_match (root : pattern) (g : Graph) (node : nat) : option Matcher :=
  match_value root g (output0 node) empty_Matcher.

(** ** Framework primitives used by the callback *)

(** Updates of one member of a node. *)
Definition set_inputs (ins : list Output) (n : Node) : Node :=
  {| op := op n; inputs := ins; inferred_outputs := inferred_outputs n;
     friendly_name := friendly_name n; rt_info := rt_info n |}.

Definition with_friendly_name (name : string) (n : Node) : Node :=
  {| op := op n; inputs := inputs n; inferred_outputs := inferred_outputs n;
     friendly_name := name; rt_info := rt_info n |}.

Definition with_rt_info (info : list string) (n : Node) : Node :=
  {| op := op n; inputs := inputs n; inferred_outputs := inferred_outputs n;
     friendly_name := friendly_name n; rt_info := info |}.

(** In-place update of the node at address [p]. *)
Definition modify (p : nat) (f : Node → Node) : M unit :=
  λ g, match node_at g p with
       | Some n => Ok (tt, <[p := Some (f n)]> g)
       | None => Raise null_dereference
       end.

(** [pattern_map.count(p)] and [pattern_map.at(p)]. *)
Definition count (pattern_map : gmap nat Output) (p : pattern) : bool :=
  bool_decide (is_Some (pattern_map !! pattern_id p)).

Definition at_ (pattern_map : gmap nat Output) (p : pattern) : M Output :=
  match pattern_map !! pattern_id p with
  | Some v => ret v
  | None => raise out_of_range
  end.

(** [std::count_if]: one pass with a counter. *)
Definition std_count_if {A} (pred : A → bool) (l : list A) : Z :=
  foldl (λ n x, if pred x then (n + 1)%Z else n) 0%Z l.

(** [int32_t] values. *)
Definition int32_wrap (z : Z) : Z := ((z + 2 ^ 31) mod 2 ^ 32 - 2 ^ 31)%Z.

(** [std::vector<int32_t> v(n); std::iota(v.begin(), v.end(), 0)]. *)
Definition std_iota (n : nat) : list Z := (λ i, int32_wrap (Z.of_nat i)) <$> seq 0 n.

(** [std::swap(v[i], v[j])].  The callback swaps the last two entries of a
    vector whose length is the rank of a canonicalized constant, which is 2;
    indices outside the vector, undefined in C++, leave it as it is here. *)
Definition std_swap {A} (v : list A) (i j : nat) : list A :=
  match v !! i, v !! j with
  | Some a, Some b => <[j := a]> (<[i := b]> v)
  | _, _ => v
  end.

(** [Node::get_input_node_shared_ptr(index)]: the node that produces the
    input, without the port it is produced on. *)
Definition get_input_node_shared_ptr (node index : nat) : M nat :=
  let* src := ask (λ g, n ← node_at g node; inputs n !! index) in
  match src with
  | Some src => ret (get_node_shared_ptr src)
  | None => raise (assertion_failed "index < m_inputs.size()")
  end.

(** [Node::get_friendly_name()] and [Node::set_friendly_name(name)]. *)
Definition get_friendly_name (node : nat) : M string :=
  let* n := ask (λ g, node_at g node) in
  match n with
  | Some n => ret (friendly_name n)
  | None => raise null_dereference
  end.

Definition set_friendly_name (node : nat) (name : string) : M unit :=
  modify node (with_friendly_name name).

(** [FullyConnected::get_output_type()]. *)
Definition get_output_type (node : nat) : M element_type :=
  let* n := ask (λ g, node_at g node) in
  match op <$> n with
  | Some (a_FullyConnected t) => ret t
  | _ => raise null_dereference
  end.

(** The provenance metadata of a set of source nodes, put together. *)
Definition merged_rt_info (g : Graph) (from : list nat) : list string :=
  mjoin ((λ p, default [] (rt_info <$> node_at g p)) <$> from).

(** Modelled from the spec: [ov::copy_runtime_info(from, to)] of the
    framework merges the provenance metadata of the source nodes onto the
    destination node. *)
Definition copy_runtime_info (from : list nat) (to : nat) : M unit :=
  let* merged := ask (λ g, merged_rt_info g from) in
  modify to (λ n, with_rt_info (rt_info n ++ merged) n).

(** An input that read an output of [target] reads the same output of
    [replacement]. *)
Definition redirect (target replacement : nat) (src : Output) : Output :=
  if decide (get_node_shared_ptr src = target)
  then mk_Output replacement (get_index src)
  else src.

Definition rewire (target replacement : nat) (n : Node) : Node :=
  set_inputs (redirect target replacement <$> inputs n) n.

Definition rewire_all (target replacement : nat) (g : Graph) : Graph :=
  (λ slot : option Node, rewire target replacement <$> slot) <$> g.

(** Modelled from the spec: [ov::replace_node(target, replacement)] of the
    framework rewires every consumer of the target's outputs to the same
    output of the replacement and retires the target, in one step. *)
Definition replace_node (target replacement : nat) : M unit :=
  λ g, Ok (tt, <[target := None]> (rewire_all target replacement g)).

Section Pass.

(** The veto policy of the pass ([transformation_callback]), a predicate on
    the matched root that has no side effect. *)
Variable transformation_callback : Graph → nat → bool.

(** Type and shape inference of a newly built operator
    ([validate_and_infer_types]), which belongs to the operator classes:
    from the operator and its inputs to its output descriptors. *)
Variable validate_and_infer_types : Graph → operator → list Output → list Tensor.

(** Construction of an operator node over the given inputs. *)
Definition make_op (o : operator) (args : list Output) : M nat :=
  let* outs := ask (λ g, validate_and_infer_types g o args) in
  make_shared {| op := o; inputs := args; inferred_outputs := outs;
                 friendly_name := ""; rt_info := [] |}.

(** Modelled from the spec: [node->clone_with_new_inputs(args)] of the
    framework clones a node with substituted inputs: an operator of the same
    dynamic type and attributes over other inputs. *)
Definition clone_with_new_inputs (node : nat) (args : list Output) : M nat :=
  let* n := ask (λ g, node_at g node) in
  match n with
  | Some n => make_op (op n) args
  | None => raise null_dereference
  end.

(** [std::make_shared<Constant>(element::i32, Shape{values.size()}, values)]. *)
Definition Constant_i32 (values : list Z) : M nat :=
  make_shared {| op := a_Constant i32 [N.of_nat (length values)] (i32_values values);
                 inputs := []; inferred_outputs := [];
                 friendly_name := ""; rt_info := [] |}.

(** Lines 104-118: the operands behind the matched transpose. *)
Definition transpose_operands (pattern_map : gmap nat Output)
    (with_zero_point : bool) (fc_input_b scale : nat)
    (optional_zero_point : option nat) : M (nat * nat * option nat) :=
  let* transpose_v := at_ pattern_map transpose_m in
  let transpose := get_node_shared_ptr transpose_v in
  let* transpose_const_v := at_ pattern_map transpose_const_m in
  let transpose_const := get_node_shared_ptr transpose_const_v in
  let* order_shape := Node_get_shape transpose_const in
  let* b_ps := ask (λ g, get_output_partial_shape g fc_input_b 0) in
  let rank := ps_size (default dynamic_rank b_ps) in
  let* transpose_const :=
    if bool_decide (shape_size order_shape ≠ N.of_nat rank) then
      let new_order := std_iota rank in
      let new_order := std_swap new_order (rank - 1) (rank - 2) in
      Constant_i32 new_order
    else ret transpose_const in
  let* fc_input_b :=
    clone_with_new_inputs transpose [output0 fc_input_b; output0 transpose_const] in
  let* fc_input_scale :=
    clone_with_new_inputs transpose [output0 scale; output0 transpose_const] in
  let* fc_input_zp :=
    if with_zero_point then
      match optional_zero_point with
      | Some zp =>
          let* t := clone_with_new_inputs transpose
                      [output0 zp; output0 transpose_const] in
          ret (Some t)
      | None => raise null_dereference
      end
    else ret optional_zero_point in
  ret (fc_input_b, fc_input_scale, fc_input_zp).

(** Lines 92-132: canonicalize the operands and build the fused node. *)
Definition build_fused_node (m : Matcher) (fc : nat)
    (has_transpose grouped : bool) : M nat :=
  let pattern_map := get_pattern_value_map m in
  let* fc_input_a := get_input_node_shared_ptr fc 0 in
  let* scale_v := at_ pattern_map mul_const_m in
  let* scale := reshape_const_to_2d has_transpose grouped (get_node_shared_ptr scale_v) in
  let with_zero_point := count pattern_map subtract_m in
  let* optional_zero_point :=
    if with_zero_point then
      let* zp_v := at_ pattern_map sub_const_m in
      let* zp := reshape_const_to_2d has_transpose grouped (get_node_shared_ptr zp_v) in
      ret (Some zp)
    else ret None in
  let* weights_v := at_ pattern_map weights_m in
  let* fc_input_b :=
    reshape_const_to_2d has_transpose grouped (get_node_shared_ptr weights_v) in
  let* operands :=
    if has_transpose
    then transpose_operands pattern_map with_zero_point fc_input_b scale
           optional_zero_point
    else ret (fc_input_b, scale, optional_zero_point) in
  let fc_input_b := operands.1.1 in
  let fc_input_scale := operands.1.2 in
  let fc_input_zp := operands.2 in
  let* output_type := get_output_type fc in
  if with_zero_point then
    match fc_input_zp with
    | Some fc_input_zp =>
        make_op (a_FullyConnectedCompressed output_type)
          [output0 fc_input_a; output0 fc_input_b; output0 fc_input_scale;
           output0 fc_input_zp]
    | None => raise null_dereference
    end
  else
    make_op (a_FullyConnectedCompressed output_type)
      [output0 fc_input_a; output0 fc_input_b; output0 fc_input_scale].

(** Lines 134-137: name, provenance and substitution. *)
Definition substitute (m : Matcher) (fc new_fc : nat) : M bool :=
  let* name := get_friendly_name fc in
  set_friendly_name new_fc name ;;
  copy_runtime_info (get_matched_nodes m) new_fc ;;
  replace_node fc new_fc ;;
  ret true.

(** Lines 63-77: the matcher callback. *)
Definition callback (m : Matcher) : M bool :=
  let pattern_map := get_pattern_value_map m in
  OPENVINO_ASSERT (count pattern_map fully_connected_m)
                  "pattern_map.count(fully_connected_m)" ;;
  OPENVINO_ASSERT (count pattern_map mul_const_m)
                  "pattern_map.count(mul_const_m)" ;;
  OPENVINO_ASSERT (count pattern_map weights_m)
                  "pattern_map.count(weights_m)" ;;
  OPENVINO_ASSERT (count pattern_map convert_m)
                  "pattern_map.count(convert_m)" ;;
  let* root := at_ pattern_map fully_connected_m in
  let* fc := dynamic_pointer_cast FullyConnected (get_node_shared_ptr root) in
  match fc with
  | None => ret false
  | Some fc =>
      let* veto := ask (λ g, transformation_callback g fc) in
      if veto then ret false
      else
        let has_transpose := count pattern_map transpose_m in
        let* scale_v := at_ pattern_map mul_const_m in
        let* scale_shape := get_shape scale_v in
        let grouped :=
          bool_decide (1 < std_count_if (λ d : N, bool_decide (1 < d)%N) scale_shape)%Z in
        let* new_fc := build_fused_node m fc has_transpose grouped in
        substitute m fc new_fc
  end.

(** One step of the pass at a candidate node: match, then call back. *)
Definition run_on_node (node : nat) : M bool :=
  let* m := ask (λ g, Matcher_match fully_connected_m g node) in
  match m with
  | Some m => callback m
  | None => ret false
  end.

End Pass.

(** ** Specification-side definitions *)

(** The node of value [v] is live and has operator type [ty]. *)
Definition has_type (g : Graph) (v : Output) (ty : node_type) : Prop :=
  ∃ n, node_at g (get_node_shared_ptr v) = Some n ∧ type_info n = ty.

(** The bindings a successful match of [mul_with_sub_m] adds, in the order the
    engine adds them: the multiply (6), the subtract (4), the convert (2), the
    weights (1), the zero point (3) and the scale (5). *)
Definition chain_with_sub (mul sub cvt w zp sc : Output) (m : Matcher) : Matcher :=
  add_binding 5 sc (add_binding 3 zp (add_binding 1 w (add_binding 2 cvt
    (add_binding 4 sub (add_binding 6 mul m))))).

(** The bindings a successful match of [mul_no_sub_m] adds: the multiply (7),
    the convert (2), the weights (1) and the scale (5). *)
Definition chain_no_sub (mul cvt w sc : Output) (m : Matcher) : Matcher :=
  add_binding 5 sc (add_binding 1 w (add_binding 2 cvt (add_binding 7 mul m))).

(** What a successful match of [mul_m] at [v] says: one of the two
    dequantization routes, with the predicates of its constants. *)
Definition dequantized (g : Graph) (v : Output) (m m' : Matcher) : Prop :=
  has_type g v Multiply ∧
  ((∃ sub cvt w zp sc,
      m' = chain_with_sub v sub cvt w zp sc m ∧
      has_type g w Constant ∧ compressed_constant g w = true ∧
      has_type g zp Constant ∧ consumers_count 1 g zp = true ∧
      has_type g sc Constant ∧ consumers_count 1 g sc = true) ∨
   (∃ cvt w sc,
      m' = chain_no_sub v cvt w sc m ∧
      has_type g w Constant ∧ compressed_constant g w = true ∧
      has_type g sc Constant ∧ consumers_count 1 g sc = true)).

(** What a successful match of [reshape_m] at [v] says. *)
Definition reshaped (g : Graph) (v : Output) (m m' : Matcher) : Prop :=
  has_type g v Reshape ∧
  ∃ mul rc m1, dequantized g mul (add_binding 10 v m) m1 ∧
               has_type g rc Constant ∧ m' = add_binding 9 rc m1.

(** What a successful match of [transpose_m] at [v] says. *)
Definition transposed (g : Graph) (v : Output) (m m' : Matcher) : Prop :=
  has_type g v Transpose ∧
  ∃ x tc m1, (reshaped g x (add_binding 13 v m) m1 ∨
              dequantized g x (add_binding 13 v m) m1) ∧
             has_type g tc Constant ∧ m' = add_binding 12 tc m1.

(** What the callback may rely on after a successful match at [root]: the
    required bindings, the types and predicates of the bound constants, a
    zero point bound exactly when the subtract is, a permutation constant
    bound whenever the transpose is, and every bound node in the list of
    matched nodes. *)
Record match_facts (g : Graph) (root : nat) (m : Matcher) : Prop := {
  mf_root : get_pattern_value_map m !! pattern_id fully_connected_m = Some (output0 root);
  mf_fc : ∃ old data_v b_v,
      node_at g root = Some old ∧ type_info old = FullyConnected ∧
      inputs old = [data_v; b_v] ∧
      get_pattern_value_map m !! pattern_id data_m = Some data_v;
  mf_weights : ∃ w,
      get_pattern_value_map m !! pattern_id weights_m = Some w ∧
      has_type g w Constant ∧ compressed_constant g w = true;
  mf_convert : count (get_pattern_value_map m) convert_m = true;
  mf_scale : ∃ s,
      get_pattern_value_map m !! pattern_id mul_const_m = Some s ∧
      has_type g s Constant ∧ consumers_count 1 g s = true;
  mf_zero_point :
      if count (get_pattern_value_map m) subtract_m
      then ∃ z, get_pattern_value_map m !! pattern_id sub_const_m = Some z ∧
                has_type g z Constant ∧ consumers_count 1 g z = true
      else get_pattern_value_map m !! pattern_id sub_const_m = None;
  mf_transpose :
      if count (get_pattern_value_map m) transpose_m
      then ∃ t tc, get_pattern_value_map m !! pattern_id transpose_m = Some t ∧
                   has_type g t Transpose ∧
                   get_pattern_value_map m !! pattern_id transpose_const_m = Some tc ∧
                   has_type g tc Constant
      else True;
  mf_matched : ∀ id v, get_pattern_value_map m !! id = Some v →
                       get_node_shared_ptr v ∈ get_matched_nodes m;
}.

(** The operator types of the nodes a rewrite builds besides the fused node. *)
Definition auxiliary (n : Node) : Prop :=
  type_info n = Constant ∨ type_info n = Transpose.

(** [g1] is [g] followed by newly built auxiliary nodes. *)
Definition grows (g g1 : Graph) : Prop :=
  ∃ ext, g1 = g ++ ext ∧ Forall (λ slot, ∃ n, slot = Some n ∧ auxiliary n) ext.

(** The canonicalization law of the specification (4.3), with the products
    taken in [size_t]. *)
Definition canonical_shape (has_transpose grouped : bool) (s : Shape) : Shape :=
  match s with
  | [d0; d1; d2] =>
      if has_transpose || negb grouped then [size_mul d0 d1; d2] else [d0; size_mul d1 d2]
  | _ => s
  end.

(** The first output of node [p] has a static shape of rank 2 or 3. *)
Definition rank_2_or_3 (g : Graph) (p : nat) : bool :=
  match shape_of g p with
  | Some s => bool_decide (length s = 2%nat) || bool_decide (length s = 3%nat)
  | None => false
  end.

(** The flag [grouped] of line 76 as a function of the scale shape. *)
Definition is_grouped (scale_shape : Shape) : bool :=
  bool_decide (1 < std_count_if (λ d : N, bool_decide (1 < d)%N) scale_shape)%Z.

(** An input edge of node [p] is sound when it reads an output that exists
    and is not an output of [p] itself. *)
Definition edge_ok (g : Graph) (p : nat) (src : Output) : bool :=
  bool_decide (is_Some (output_tensor g src)) &&
  bool_decide (get_node_shared_ptr src ≠ p).

(** The consistency of the graph that the pass takes for granted: every
    input of every live node is a sound edge. *)
Definition well_formed (g : Graph) : bool :=
  forallb (λ b : bool, b)
    (imap (λ p slot,
             match slot with
             | Some n => forallb (edge_ok g p) (inputs n)
             | None => true
             end) g).

(** The scale and weight constants, and the zero-point constant when the
    subtract branch is matched, have rank 2 or 3. *)
Definition canonicalizable (g : Graph) (m : Matcher) : bool :=
  let pattern_map := get_pattern_value_map m in
  match pattern_map !! pattern_id mul_const_m, pattern_map !! pattern_id weights_m with
  | Some s, Some w =>
      rank_2_or_3 g (get_node_shared_ptr s) && rank_2_or_3 g (get_node_shared_ptr w) &&
      (if count pattern_map subtract_m
       then match pattern_map !! pattern_id sub_const_m with
            | Some z => rank_2_or_3 g (get_node_shared_ptr z)
            | None => false
            end
       else true)
  | _, _ => false
  end.

(** A canonicalized constant [c] of the constant [p]. *)
Definition canonical_of (g g' : Graph) (ht gr : bool) (p c : nat) : Prop :=
  ∃ n n' et s d,
    node_at g p = Some n ∧ op n = a_Constant et s d ∧
    node_at g' c = Some n' ∧ op n' = a_Constant et (canonical_shape ht gr s) d ∧
    length (canonical_shape ht gr s) = 2%nat ∧
    ((length s = 2%nat ∧ c = p) ∨ (length s = 3%nat ∧ (length g ≤ c)%nat)).

(** [x] is a transpose of output 0 of [c] by the permutation constant [tc]. *)
Definition transposed_by (g' : Graph) (x c tc : nat) : Prop :=
  ∃ n, node_at g' x = Some n ∧ op n = a_Transpose ∧
       inputs n = [output0 c; output0 tc].

(** Operand [x] of the fused node built over the canonicalized constant [c]:
    the constant itself, or its transpose by the permutation [order]. *)
Definition operand_of (g g' : Graph) (ht : bool) (order : option nat) (x c : nat) : Prop :=
  if ht then ∃ tc, order = Some tc ∧ transposed_by g' x c tc ∧ (length g ≤ x)%nat
  else x = c.

(** The permutation constant applied behind a matched transpose: the
    captured one when its element count is the rank 2 of the canonicalized
    weight, a new [i32] constant holding [1, 0] otherwise. *)
Definition order_of (g g' : Graph) (m : Matcher) (tc : nat) : Prop :=
  ∃ tcv ntc et os d,
    get_pattern_value_map m !! pattern_id transpose_const_m = Some tcv ∧
    node_at g (get_node_shared_ptr tcv) = Some ntc ∧ op ntc = a_Constant et os d ∧
    ((shape_size os = 2 ∧ tc = get_node_shared_ptr tcv) ∨
     (shape_size os ≠ 2 ∧ (length g ≤ tc)%nat ∧
      ∃ n, node_at g' tc = Some n ∧ op n = a_Constant i32 [2] (i32_values [1%Z; 0%Z]))).

(** The nodes a successful rewrite is described by. *)
Record fusion := mk_fusion {
  new_fc : nat;
  fc_old : Node;
  fc_new : Node;
  has_transpose : bool;
  grouped : bool;
  canonical_weight : nat;
  canonical_scale : nat;
  weight_operand : nat;
  scale_operand : nat;
  zero_point_operand : option nat;
  order_constant : option nat;
}.

(** The graph [g'] is [g] after the rewrite [f] at [root] under the match
    [m]. *)
Record fused_by (g : Graph) (root : nat) (m : Matcher) (g' : Graph) (f : fusion) : Prop := {
  fb_old : node_at g root = Some (fc_old f);
  fb_retired : node_at g' root = None;
  fb_new : (length g ≤ new_fc f)%nat;
  fb_fused : node_at g' (new_fc f) = Some (fc_new f);
  fb_frame : ∀ p, (p < length g)%nat → p ≠ root →
                  node_at g' p = rewire root (new_fc f) <$> node_at g p;
  fb_aux : ∀ p n, (length g ≤ p)%nat → p ≠ new_fc f → node_at g' p = Some n → auxiliary n;
  fb_type : ∃ t, op (fc_old f) = a_FullyConnected t ∧
                 op (fc_new f) = a_FullyConnectedCompressed t;
  fb_name : friendly_name (fc_new f) = friendly_name (fc_old f);
  fb_rt : ∀ p n, p ∈ get_matched_nodes m → node_at g p = Some n →
                 rt_info n ⊆ rt_info (fc_new f);
  fb_inputs : ∃ data_v,
      inputs (fc_old f) !! 0%nat = Some data_v ∧
      inputs (fc_new f) =
        output0 (get_node_shared_ptr data_v) :: output0 (weight_operand f) ::
        output0 (scale_operand f) ::
        match zero_point_operand f with Some z => [output0 z] | None => [] end;
  fb_flags :
      has_transpose f = count (get_pattern_value_map m) transpose_m ∧
      ∃ s scale_shape,
        get_pattern_value_map m !! pattern_id mul_const_m = Some s ∧
        get_partial_shape g s ≫= to_shape = Some scale_shape ∧
        shape_of g (get_node_shared_ptr s) = Some scale_shape ∧
        grouped f = is_grouped scale_shape;
  fb_weight : ∃ w,
      get_pattern_value_map m !! pattern_id weights_m = Some w ∧
      canonical_of g g' (has_transpose f) (grouped f) (get_node_shared_ptr w)
        (canonical_weight f) ∧
      operand_of g g' (has_transpose f) (order_constant f) (weight_operand f)
        (canonical_weight f);
  fb_scale : ∃ s,
      get_pattern_value_map m !! pattern_id mul_const_m = Some s ∧
      canonical_of g g' (has_transpose f) (grouped f) (get_node_shared_ptr s)
        (canonical_scale f) ∧
      operand_of g g' (has_transpose f) (order_constant f) (scale_operand f)
        (canonical_scale f);
  fb_zero_point :
      if count (get_pattern_value_map m) subtract_m
      then ∃ zv cz zo,
          get_pattern_value_map m !! pattern_id sub_const_m = Some zv ∧
          zero_point_operand f = Some zo ∧
          canonical_of g g' (has_transpose f) (grouped f) (get_node_shared_ptr zv) cz ∧
          operand_of g g' (has_transpose f) (order_constant f) zo cz
      else zero_point_operand f = None;
  fb_order : ∀ tc, order_constant f = Some tc → order_of g g' m tc;
}.

(** ** Example graphs

    A constant over host buffer [handle]. *)
Definition constant_node (et : element_type) (shape : Shape) (handle : nat)
    (name : string) : Node :=
  {| op := a_Constant et shape (host_buffer handle); inputs := [];
     inferred_outputs := []; friendly_name := name; rt_info := [name] |}.

(** An operator node with the given inferred outputs. *)
Definition op_node (o : operator) (ins : list Output) (outs : list Tensor)
    (name : string) : Node :=
  {| op := o; inputs := ins; inferred_outputs := outs;
     friendly_name := name; rt_info := [name] |}.

(** A static [f16] output. *)
Definition f16_tensor (shape : Shape) : Tensor := mk_Tensor f16 (of_shape shape).

(** Two veto policies, and an inference that knows nothing. *)
Definition allow_all : Graph → nat → bool := λ _ _, false.
Definition veto_all : Graph → nat → bool := λ _ _, true.
Definition unknown_output : Graph → operator → list Output → list Tensor :=
  λ _ _ _, [mk_Tensor dynamic dynamic_rank].

(** Weights [2,4,8] with a zero point and a scale of shape [2,4,1]. *)
Definition grouped_graph : Graph := [
  Some (op_node (an_OtherOp "Parameter") [] [f16_tensor [1; 64]] "data");
  Some (constant_node u8 [2; 4; 8] 1 "weights");
  Some (op_node a_Convert [output0 1] [f16_tensor [2; 4; 8]] "convert");
  Some (constant_node u8 [2; 4; 1] 2 "zero_point");
  Some (op_node a_Subtract [output0 2; output0 3] [f16_tensor [2; 4; 8]] "subtract");
  Some (constant_node f16 [2; 4; 1] 3 "scale");
  Some (op_node a_Multiply [output0 4; output0 5] [f16_tensor [2; 4; 8]] "multiply");
  Some (op_node (a_FullyConnected f16) [output0 0; output0 6] [f16_tensor [1; 2]] "fc");
  Some (op_node (an_OtherOp "Result") [output0 7] [f16_tensor [1; 2]] "result")
].

(** Weights and scale of shape [2,4,8], no zero point, no transpose. *)
Definition scenario_graph : Graph := [
  Some (op_node (an_OtherOp "Parameter") [] [f16_tensor [1; 32]] "data");
  Some (constant_node u8 [2; 4; 8] 1 "weights");
  Some (op_node a_Convert [output0 1] [f16_tensor [2; 4; 8]] "convert");
  Some (constant_node f16 [2; 4; 8] 2 "scale");
  Some (op_node a_Multiply [output0 2; output0 3] [f16_tensor [2; 4; 8]] "multiply");
  Some (op_node (a_FullyConnected f16) [output0 0; output0 4] [f16_tensor [1; 2]] "fc");
  Some (op_node (an_OtherOp "Result") [output0 5] [f16_tensor [1; 2]] "result")
].

(** The same behind a transpose whose permutation constant has three
    elements. *)
Definition scenario_graph_transposed : Graph := [
  Some (op_node (an_OtherOp "Parameter") [] [f16_tensor [1; 8]] "data");
  Some (constant_node u8 [2; 4; 8] 1 "weights");
  Some (op_node a_Convert [output0 1] [f16_tensor [2; 4; 8]] "convert");
  Some (constant_node f16 [2; 4; 8] 2 "scale");
  Some (op_node a_Multiply [output0 2; output0 3] [f16_tensor [2; 4; 8]] "multiply");
  Some (constant_node i32 [3] 3 "order");
  Some (op_node a_Transpose [output0 4; output0 5] [f16_tensor [2; 8; 4]] "transpose");
  Some (op_node (a_FullyConnected f16) [output0 0; output0 6] [f16_tensor [1; 2]] "fc");
  Some (op_node (an_OtherOp "Result") [output0 7] [f16_tensor [1; 2]] "result")
].

(** Per-tensor quantization: the scale is a scalar. *)
Definition scalar_scale_graph : Graph := [
  Some (op_node (an_OtherOp "Parameter") [] [f16_tensor [1; 64]] "data");
  Some (constant_node u8 [32; 64] 1 "weights");
  Some (op_node a_Convert [output0 1] [f16_tensor [32; 64]] "convert");
  Some (constant_node f16 [] 2 "scale");
  Some (op_node a_Multiply [output0 2; output0 3] [f16_tensor [32; 64]] "multiply");
  Some (op_node (a_FullyConnected f16) [output0 0; output0 4] [f16_tensor [1; 32]] "fc");
  Some (op_node (an_OtherOp "Result") [output0 5] [f16_tensor [1; 32]] "result")
].

(** The data input is the second output of a two-output node. *)
Definition split_data_graph : Graph := [
  Some (op_node (an_OtherOp "Split") [] [f16_tensor [1; 64]; f16_tensor [1; 64]] "split");
  Some (constant_node u8 [32; 64] 1 "weights");
  Some (op_node a_Convert [output0 1] [f16_tensor [32; 64]] "convert");
  Some (constant_node f16 [32; 1] 2 "scale");
  Some (op_node a_Multiply [output0 2; output0 3] [f16_tensor [32; 64]] "multiply");
  Some (op_node (a_FullyConnected f16) [mk_Output 0 1; output0 4] [f16_tensor [1; 32]] "fc");
  Some (op_node (an_OtherOp "Result") [output0 5] [f16_tensor [1; 32]] "result")
].

(** The weight constant has a second consumer. *)
Definition shared_weights_graph : Graph := [
  Some (op_node (an_OtherOp "Parameter") [] [f16_tensor [1; 64]] "data");
  Some (constant_node u8 [32; 64] 1 "weights");
  Some (op_node a_Convert [output0 1] [f16_tensor [32; 64]] "convert");
  Some (constant_node f16 [32; 1] 2 "scale");
  Some (op_node a_Multiply [output0 2; output0 3] [f16_tensor [32; 64]] "multiply");
  Some (op_node (a_FullyConnected f16) [output0 0; output0 4] [f16_tensor [1; 32]] "fc");
  Some (op_node (an_OtherOp "Result") [output0 5] [f16_tensor [1; 32]] "result");
  Some (op_node a_Convert [output0 1] [f16_tensor [32; 64]] "other_convert");
  Some (op_node (an_OtherOp "Result") [output0 7] [f16_tensor [32; 64]] "other_result")
].

(** A weight constant without elements whose first two dimensions are 2^32. *)
Definition empty_weights_graph : Graph :=
  [Some (constant_node u8 [2 ^ 32; 2 ^ 32; 0] 1 "weights")].

(** The permutation [0, 1, ..., r-3, r-1, r-2]. *)
Definition swap_last_two (r : nat) : list Z :=
  (Z.of_nat <$> seq 0 (r - 2)) ++ [Z.of_nat (r - 1); Z.of_nat (r - 2)].

(** Weights of shape [2,4,8] scaled per channel, by a scale of shape [1,4,1]. *)
Definition per_channel_graph : Graph := [
  Some (op_node (an_OtherOp "Parameter") [] [f16_tensor [1; 8]] "data");
  Some (constant_node u8 [2; 4; 8] 1 "weights");
  Some (op_node a_Convert [output0 1] [f16_tensor [2; 4; 8]] "convert");
  Some (constant_node f16 [1; 4; 1] 2 "scale");
  Some (op_node a_Multiply [output0 2; output0 3] [f16_tensor [2; 4; 8]] "multiply");
  Some (op_node (a_FullyConnected f16) [output0 0; output0 4] [f16_tensor [1; 8]] "fc");
  Some (op_node (an_OtherOp "Result") [output0 5] [f16_tensor [1; 8]] "result")
].

(** A binding map whose root is bound to the data parameter of
    [grouped_graph], which is not a fully-connected node. *)
Definition misbound_Matcher : Matcher :=
  {| get_pattern_value_map :=
       <[pattern_id fully_connected_m := output0 0]>
         (<[pattern_id mul_const_m := output0 5]>
            (<[pattern_id weights_m := output0 1]>
               (<[pattern_id convert_m := output0 2]> ∅)));
     get_matched_nodes := [0; 5; 1; 2]%nat |}.

(** The graph a run ends in. *)
Definition result_graph {A} (r : result (A * Graph)) : Graph :=
  match r with Ok (_, g) => g | Raise _ => [] end.

(** The bindings of the match at [root]. *)
Definition match_at (g : Graph) (root : nat) : Matcher :=
  default empty_Matcher (Matcher_match fully_connected_m g root).

(** The graph after the pass at [root], under the policy that allows all. *)
Definition rewritten (g : Graph) (root : nat) : Graph :=
  result_graph (run_on_node allow_all unknown_output root g).

(** ** The pattern as a relation on graphs *)

(** The node of value [v] is live, has operator type [ty] and reads exactly
    the values [ins], in this order. *)
Definition reads (g : Graph) (v : Output) (ty : node_type) (ins : list Output) : Prop :=
  ∃ n, node_at g (get_node_shared_ptr v) = Some n ∧ type_info n = ty ∧ inputs n = ins.

(** Lines 41-42: a convert of a compressed weight constant. *)
Definition converted_weights (g : Graph) (cvt w : Output) : Prop :=
  reads g cvt Convert [w] ∧ has_type g w Constant ∧ compressed_constant g w = true.

(** Lines 44 and 47: a constant with exactly one consumer. *)
Definition single_use_constant (g : Graph) (c : Output) : Prop :=
  has_type g c Constant ∧ consumers_count 1 g c = true.

(** Lines 44-50: the two dequantization sub-graphs rooted at a multiply, and
    the bindings each of them adds. *)
Inductive dequantization_at (g : Graph) (v : Output) (m : Matcher) : Matcher → Prop :=
  | with_subtract sub cvt w zp sc :
      reads g v Multiply [sub; sc] → reads g sub Subtract [cvt; zp] →
      converted_weights g cvt w →
      single_use_constant g zp → single_use_constant g sc →
      dequantization_at g v m (chain_with_sub v sub cvt w zp sc m)
  | without_subtract cvt w sc :
      reads g v Multiply [cvt; sc] → converted_weights g cvt w →
      single_use_constant g sc →
      dequantization_at g v m (chain_no_sub v cvt w sc m).

(** Lines 52-53: a reshape from rank 3 to rank 2 of a dequantization. *)
Inductive reshape_at (g : Graph) (v : Output) (m : Matcher) : Matcher → Prop :=
  | reshape_of_multiply mul rc m1 :
      reads g v Reshape [mul; rc] → reshape_3d_to_2d g v = true →
      dequantization_at g mul (add_binding 10 v m) m1 → has_type g rc Constant →
      reshape_at g v m (add_binding 9 rc m1).

(** Lines 55-57: a transpose of a reshape or of a dequantization. *)
Inductive transpose_at (g : Graph) (v : Output) (m : Matcher) : Matcher → Prop :=
  | transpose_of_reshape x tc m1 :
      reads g v Transpose [x; tc] → reshape_at g x (add_binding 13 v m) m1 →
      has_type g tc Constant → transpose_at g v m (add_binding 12 tc m1)
  | transpose_of_multiply x tc m1 :
      reads g v Transpose [x; tc] → dequantization_at g x (add_binding 13 v m) m1 →
      has_type g tc Constant → transpose_at g v m (add_binding 12 tc m1).

(** Line 60: the three shapes of the weights input. *)
Inductive weights_input_at (g : Graph) (v : Output) (m : Matcher) : Matcher → Prop :=
  | through_reshape m' : reshape_at g v m m' → weights_input_at g v m m'
  | through_transpose m' : transpose_at g v m m' → weights_input_at g v m m'
  | through_multiply m' : dequantization_at g v m m' → weights_input_at g v m m'.

(** Line 61: the whole pattern at [root], with the bindings [m] it yields. *)
Definition pattern_at (g : Graph) (root : nat) (m : Matcher) : Prop :=
  ∃ data_v b_v,
    reads g (output0 root) FullyConnected [data_v; b_v] ∧
    weights_input_at g b_v
      (add_binding 14 data_v (add_binding 16 (output0 root) empty_Matcher)) m.

(** Weights of shape [2,4,8] dequantized, then reshaped to [2,32] in front of
    the fully-connected node. *)
Definition reshaped_graph : Graph := [
  Some (op_node (an_OtherOp "Parameter") [] [f16_tensor [1; 32]] "data");
  Some (constant_node u8 [2; 4; 8] 1 "weights");
  Some (op_node a_Convert [output0 1] [f16_tensor [2; 4; 8]] "convert");
  Some (constant_node f16 [2; 4; 1] 2 "scale");
  Some (op_node a_Multiply [output0 2; output0 3] [f16_tensor [2; 4; 8]] "multiply");
  Some (constant_node i64 [2] 3 "target_shape");
  Some (op_node a_Reshape [output0 4; output0 5] [f16_tensor [2; 32]] "reshape");
  Some (op_node (a_FullyConnected f16) [output0 0; output0 6] [f16_tensor [1; 2]] "fc");
  Some (op_node (an_OtherOp "Result") [output0 7] [f16_tensor [1; 2]] "result")
].

(** ** Sound extensions of the graph *)

(** Node [c] can be read by a node the rewrite builds: it is live, it has an
    output 0, and it is not the root that the rewrite retires. *)
Definition usable (root : nat) (g : Graph) (c : nat) : Prop :=
  c ≠ root ∧ ∃ n, node_at g c = Some n ∧ outputs n ≠ [].

(** [g1] is [g] followed by new nodes that have an output and whose inputs
    are sound edges that do not read [root]. *)
Definition extends_soundly (root : nat) (g g1 : Graph) : Prop :=
  (∃ ext, g1 = g ++ ext) ∧
  ∀ p n, (length g ≤ p)%nat → node_at g1 p = Some n →
         outputs n ≠ [] ∧
         ∀ src, src ∈ inputs n →
                edge_ok g1 p src = true ∧ get_node_shared_ptr src ≠ root.

(** What type and shape inference reads off a node. *)
Definition wiring (n : Node) : operator * list Output * list Tensor :=
  (op n, inputs n, inferred_outputs n).

(** ** Runs of the pass *)

(** The addresses of the live fully-connected nodes, the candidates the pass
    can rewrite. *)
Definition fully_connected_nodes (g : Graph) : list nat :=
  filter (λ p, type_info <$> node_at g p = Some FullyConnected) (seq 0 (length g)).

(** Every live fully-connected node has exactly one output. *)
Definition one_output_roots (g : Graph) : bool :=
  forallb (λ slot : option Node,
             match slot with
             | Some n =>
                 if decide (type_info n = FullyConnected)
                 then bool_decide (length (outputs n) = 1%nat)
                 else true
             | None => true
             end) g.

(** A run of the pass: the callback is tried at candidate nodes one after
    another, in any order; [k] of the attempts rewrite the graph. *)
Inductive pass_run (transformation_callback : Graph → nat → bool)
    (validate_and_infer_types : Graph → operator → list Output → list Tensor)
    : nat → Graph → Graph → Prop :=
  | pass_done g : pass_run transformation_callback validate_and_infer_types 0 g g
  | pass_skip k p g g1 g' :
      run_on_node transformation_callback validate_and_infer_types p g = Ok (false, g1) →
      pass_run transformation_callback validate_and_infer_types k g1 g' →
      pass_run transformation_callback validate_and_infer_types k g g'
  | pass_rewrite k p g g1 g' :
      run_on_node transformation_callback validate_and_infer_types p g = Ok (true, g1) →
      pass_run transformation_callback validate_and_infer_types k g1 g' →
      pass_run transformation_callback validate_and_infer_types (S k) g g'.

(** ** Lemmas *)

Lemma wrap_type_inv id ty args pred g v m m' :
  match_value (wrap_type id ty args pred) g v m = Some m' →
  ∃ n, node_at g (get_node_shared_ptr v) = Some n ∧ type_info n = ty ∧ pred g v = true ∧
       match args with
       | [] => m' = add_binding id v m
       | _ => match_arguments g args (inputs n) (add_binding id v m) = Some m'
       end.
Proof.
  cbn. destruct (node_at g (get_node_shared_ptr v)) as [n|]; [|done].
  destruct (decide (type_info n = ty)); [|done].
  destruct (pred g v) eqn:Hp; [|done].
  intros H. exists n. split_and!; try done.
  destruct args; [by inversion H | done].
Qed.

Lemma match_arguments_1 g p vals m m' :
  match_arguments g [p] vals m = Some m' →
  ∃ v, vals = [v] ∧ match_value p g v m = Some m'.
Proof.
  destruct vals as [|v [|? ?]]; cbn; try done.
  - destruct (match_value p g v m) eqn:E; [|done]. intros [= ->]. eauto.
  - destruct (match_value p g v m); done.
Qed.

Lemma match_arguments_2 g p q vals m m' :
  match_arguments g [p; q] vals m = Some m' →
  ∃ v1 v2 m1, vals = [v1; v2] ∧ match_value p g v1 m = Some m1 ∧
              match_value q g v2 m1 = Some m'.
Proof.
  destruct vals as [|v1 [|v2 [|? ?]]]; cbn; try done.
  - destruct (match_value p g v1 m); done.
  - destruct (match_value p g v1 m) as [m1|] eqn:Hp; [|done].
    destruct (match_value q g v2 m1) as [m2|] eqn:Hq; [|done].
    intros [= ->]. eauto 10.
  - destruct (match_value p g v1 m) as [m1|]; [|done].
    destruct (match_value q g v2 m1); done.
Qed.

Lemma Or_inv id alts g v m m' :
  match_value (Or id alts) g v m = Some m' →
  ∃ p, p ∈ alts ∧ match_value p g v m = Some m'.
Proof.
  cbn. induction alts as [|p alts IH]; cbn; [done|].
  destruct (match_value p g v m) as [m1|] eqn:Hp.
  - intros [= ->]. exists p. split; [left | done].
  - intros H. destruct (IH H) as (q & ? & ?). exists q. split; [by right | done].
Qed.

Lemma constant_inv id pred g v m m' :
  match_value (wrap_type id Constant [] pred) g v m = Some m' →
  m' = add_binding id v m ∧ has_type g v Constant ∧ pred g v = true.
Proof.
  intros H. apply wrap_type_inv in H as (n & ? & ? & ? & ->). split_and!; try done. by exists n.
Qed.

Lemma convert_m_inv g v m m' :
  match_value convert_m g v m = Some m' →
  ∃ w, m' = add_binding 1 w (add_binding 2 v m) ∧ has_type g v Convert ∧
       has_type g w Constant ∧ compressed_constant g w = true.
Proof.
  intros H. apply wrap_type_inv in H as (n & Hn & Hty & _ & H).
  apply match_arguments_1 in H as (w & Hin & H).
  apply constant_inv in H as (-> & ? & ?).
  exists w. split_and!; try done. by exists n.
Qed.

Lemma mul_m_inv g v m m' :
  match_value mul_m g v m = Some m' → dequantized g v m m'.
Proof.
  intros H. apply Or_inv in H as (p & Hp & H).
  apply list_elem_of_In in Hp. cbn in Hp. destruct Hp as [<-|[<-|[]]].
  - apply wrap_type_inv in H as (n & Hn & Hty & _ & H).
    apply match_arguments_2 in H as (v1 & v2 & m1 & Hin & H1 & H2).
    apply wrap_type_inv in H1 as (n1 & Hn1 & Hty1 & _ & H1).
    apply match_arguments_2 in H1 as (c & z & m2 & Hin1 & Hc & Hz).
    apply convert_m_inv in Hc as (w & -> & ? & ? & ?).
    apply constant_inv in Hz as (-> & ? & ?).
    apply constant_inv in H2 as (-> & ? & ?).
    split; [by exists n|]. left. exists v1, c, w, z, v2. by split_and!.
  - apply wrap_type_inv in H as (n & Hn & Hty & _ & H).
    apply match_arguments_2 in H as (c & v2 & m1 & Hin & Hc & H2).
    apply convert_m_inv in Hc as (w & -> & ? & ? & ?).
    apply constant_inv in H2 as (-> & ? & ?).
    split; [by exists n|]. right. exists c, w, v2. by split_and!.
Qed.

Lemma reshape_m_inv g v m m' :
  match_value reshape_m g v m = Some m' → reshaped g v m m'.
Proof.
  intros H. apply wrap_type_inv in H as (n & Hn & Hty & _ & H).
  apply match_arguments_2 in H as (mul & rc & m1 & Hin & Hmul & Hrc).
  apply mul_m_inv in Hmul. apply constant_inv in Hrc as (-> & ? & _).
  split; [by exists n|]. by exists mul, rc, m1.
Qed.

Lemma transpose_m_inv g v m m' :
  match_value transpose_m g v m = Some m' → transposed g v m m'.
Proof.
  intros H. apply wrap_type_inv in H as (n & Hn & Hty & _ & H).
  apply match_arguments_2 in H as (x & tc & m1 & Hin & Hx & Htc).
  apply constant_inv in Htc as (-> & ? & _).
  split; [by exists n|]. exists x, tc, m1. split_and!; try done.
  apply Or_inv in Hx as (p & Hp & Hx).
  apply list_elem_of_In in Hp. cbn in Hp. destruct Hp as [<-|[<-|[]]].
  - left. by apply reshape_m_inv.
  - right. by apply mul_m_inv.
Qed.

Lemma fully_connected_m_inv g root m :
  Matcher_match fully_connected_m g root = Some m →
  ∃ old data_v b_v,
    node_at g root = Some old ∧ type_info old = FullyConnected ∧
    inputs old = [data_v; b_v] ∧
    let m0 := add_binding 14 data_v (add_binding 16 (output0 root) empty_Matcher) in
    (reshaped g b_v m0 m ∨ transposed g b_v m0 m ∨ dequantized g b_v m0 m).
Proof.
  unfold Matcher_match. intros H.
  apply wrap_type_inv in H as (n & Hn & Hty & _ & H).
  apply match_arguments_2 in H as (d & b & m1 & Hin & Hd & Hb).
  cbn in Hd. injection Hd as <-.
  exists n, d, b. split_and!; try done.
  apply Or_inv in Hb as (p & Hp & Hb).
  apply list_elem_of_In in Hp. cbn in Hp. destruct Hp as [<-|[<-|[<-|[]]]].
  - left. by apply reshape_m_inv.
  - right; left. by apply transpose_m_inv.
  - right; right. by apply mul_m_inv.
Qed.

Lemma matched_add_binding id v m :
  (∀ id v, get_pattern_value_map m !! id = Some v → get_node_shared_ptr v ∈ get_matched_nodes m) →
  ∀ id' v', get_pattern_value_map (add_binding id v m) !! id' = Some v' →
            get_node_shared_ptr v' ∈ get_matched_nodes (add_binding id v m).
Proof.
  intros H id' v'. cbn. rewrite lookup_insert. case_decide.
  - intros [= ->]. set_solver.
  - intros ?%H. set_solver.
Qed.

Ltac solve_matched :=
  repeat (apply matched_add_binding); cbn; intros ? ?; rewrite lookup_empty; done.

Ltac lookup_bound :=
  match goal with
  | |- _ !! _ = Some _ => reflexivity
  | |- _ !! _ = None => reflexivity
  | |- count _ _ = true => reflexivity
  | |- is_Some _ => eexists; reflexivity
  end.

Ltac solve_fact :=
  first
  [ lookup_bound
  | solve_matched
  | match goal with
    | |- context [if count ?pm ?p then _ else _] =>
        let E := fresh "E" in
        destruct (count pm p) eqn:E;
        [ try (vm_compute in E; discriminate) | try (vm_compute in E; discriminate) ]
    end;
    first [ exact I | lookup_bound
          | eexists; split_and!; [lookup_bound | done | done]
          | eexists _, _; split_and!; [lookup_bound | done | lookup_bound | done] ]
  | eexists; split_and!; [lookup_bound | done | done]
  | eexists _, _, _; split_and!; [eassumption | done | done | lookup_bound] ].

Lemma match_facts_of_match g root m :
  Matcher_match fully_connected_m g root = Some m → match_facts g root m.
Proof.
  intros H. apply fully_connected_m_inv in H as (old & data_v & b_v & Hold & Hty & Hin & H).
  cbn zeta in H.
  assert (Hdq : ∀ v m0 m1, dequantized g v m0 m1 →
    (∃ sub cvt w zp sc,
      m1 = chain_with_sub v sub cvt w zp sc m0 ∧
      has_type g w Constant ∧ compressed_constant g w = true ∧
      has_type g zp Constant ∧ consumers_count 1 g zp = true ∧
      has_type g sc Constant ∧ consumers_count 1 g sc = true) ∨
   (∃ cvt w sc,
      m1 = chain_no_sub v cvt w sc m0 ∧
      has_type g w Constant ∧ compressed_constant g w = true ∧
      has_type g sc Constant ∧ consumers_count 1 g sc = true)) by (by intros ??? [_ ?]).
  assert (Hrs : ∀ v m0 m1, reshaped g v m0 m1 →
    ∃ mul rc m2, dequantized g mul (add_binding 10 v m0) m2 ∧ m1 = add_binding 9 rc m2)
    by (intros ??? (_ & mul & rc & m2 & ? & _ & ?); eauto).
  destruct H as [H|[H|H]].
  - apply Hrs in H as (mul & rc & m2 & H & ->).
    apply Hdq in H as [(sub & cvt & w & zp & sc & -> & ? & ? & ? & ? & ? & ?)|
                       (cvt & w & sc & -> & ? & ? & ? & ?)].
    all: split; solve_fact.
  - destruct H as (Ht & x & tc & m1 & H & Htc & ->).
    destruct H as [H|H].
    + apply Hrs in H as (mul & rc & m2 & H & ->).
      apply Hdq in H as [(sub & cvt & w & zp & sc & -> & ? & ? & ? & ? & ? & ?)|
                         (cvt & w & sc & -> & ? & ? & ? & ?)].
      all: split; solve_fact.
    + apply Hdq in H as [(sub & cvt & w & zp & sc & -> & ? & ? & ? & ? & ? & ?)|
                         (cvt & w & sc & -> & ? & ? & ? & ?)].
      all: split; solve_fact.
  - apply Hdq in H as [(sub & cvt & w & zp & sc & -> & ? & ? & ? & ? & ? & ?)|
                       (cvt & w & sc & -> & ? & ? & ? & ?)].
    all: split; solve_fact.
Qed.

Lemma node_at_lt g p n : node_at g p = Some n → (p < length g)%nat.
Proof.
  unfold node_at. destruct (g !! p) eqn:E; [|done]. intros _. by eapply lookup_lt_Some.
Qed.

Lemma node_at_app_l g ext p n : node_at g p = Some n → node_at (g ++ ext) p = Some n.
Proof.
  intros H. pose proof (node_at_lt _ _ _ H). unfold node_at in *.
  by rewrite lookup_app_l.
Qed.

Lemma node_at_app_lt g ext p : (p < length g)%nat → node_at (g ++ ext) p = node_at g p.
Proof. intros H. unfold node_at. by rewrite lookup_app_l. Qed.

Lemma node_at_snoc g n : node_at (g ++ [Some n]) (length g) = Some n.
Proof. unfold node_at. by rewrite list_lookup_middle. Qed.

Lemma node_at_insert g p q n :
  node_at (<[p := Some n]> g) q =
  if decide (p = q ∧ (p < length g)%nat) then Some n else node_at g q.
Proof.
  unfold node_at. case_decide as H.
  - destruct H as [-> ?]. by rewrite list_lookup_insert_eq.
  - destruct (decide (p = q)) as [->|].
    + rewrite list_insert_ge; [done|]. lia.
    + by rewrite list_lookup_insert_ne.
Qed.

Lemma node_at_retire g t p :
  node_at (<[t := None]> g) p = if decide (p = t) then None else node_at g p.
Proof.
  unfold node_at. case_decide as H.
  - subst. destruct (decide (t < length g)%nat).
    + by rewrite list_lookup_insert_eq.
    + rewrite list_insert_ge by lia. rewrite lookup_ge_None_2; [done | lia].
  - by rewrite list_lookup_insert_ne.
Qed.

Lemma node_at_rewire_all t r g p :
  node_at (rewire_all t r g) p = rewire t r <$> node_at g p.
Proof.
  unfold node_at, rewire_all. rewrite list_lookup_fmap.
  destruct (g !! p) as [[n|]|]; done.
Qed.

Lemma grows_refl g : grows g g.
Proof. exists []. by rewrite app_nil_r. Qed.

Lemma grows_trans g1 g2 g3 : grows g1 g2 → grows g2 g3 → grows g1 g3.
Proof.
  intros (e1 & -> & H1) (e2 & -> & H2). exists (e1 ++ e2).
  rewrite app_assoc. split; [done|]. by apply Forall_app.
Qed.

Lemma grows_snoc g n : auxiliary n → grows g (g ++ [Some n]).
Proof. intros H. exists [Some n]. split; [done|]. repeat constructor. eauto. Qed.

Lemma grows_length g g1 : grows g g1 → (length g ≤ length g1)%nat.
Proof. intros (e & -> & _). rewrite length_app. lia. Qed.

Lemma grows_node_at g g1 p n : grows g g1 → node_at g p = Some n → node_at g1 p = Some n.
Proof. intros (e & -> & _). apply node_at_app_l. Qed.

Lemma grows_node_at_lt g g1 p : grows g g1 → (p < length g)%nat → node_at g1 p = node_at g p.
Proof. intros (e & -> & _). apply node_at_app_lt. Qed.

Lemma grows_new g g1 p : grows g g1 → (length g ≤ p < length g1)%nat →
  ∃ n, node_at g1 p = Some n ∧ auxiliary n.
Proof.
  intros (e & -> & He) Hp. rewrite length_app in Hp.
  unfold node_at. rewrite lookup_app_r by lia.
  destruct (e !! (p - length g)%nat) as [slot|] eqn:E.
  - eapply Forall_lookup_1 in He as (n & -> & ?); [|done]. eauto.
  - apply lookup_ge_None in E. lia.
Qed.

Lemma bind_Ok {A B} (c : M A) (k : A → M B) g a g1 :
  c g = Ok (a, g1) → bind c k g = k a g1.
Proof. unfold bind. by intros ->. Qed.

Lemma bind_Raise {A B} (c : M A) (k : A → M B) g e :
  c g = Raise e → bind c k g = Raise e.
Proof. unfold bind. by intros ->. Qed.

Lemma bind_Ok_inv {A B} (c : M A) (k : A → M B) g r :
  bind c k g = Ok r → ∃ a g1, c g = Ok (a, g1) ∧ k a g1 = Ok r.
Proof. unfold bind. destruct (c g) as [[a g1]|]; [eauto | done]. Qed.

Ltac mstep tac :=
  lazymatch goal with
  | |- bind ?c ?k ?g = _ =>
      let H := fresh "Hstep" in
      eassert (H : c g = Ok (_, _)) by tac;
      rewrite (bind_Ok _ _ _ _ _ H); clear H; cbn beta
  end.

Lemma to_shape_of_shape s : to_shape (of_shape s) = Some s.
Proof.
  unfold to_shape, of_shape. apply mapM_Some_2.
  induction s; cbn; constructor; auto.
Qed.

Lemma shape_of_Constant g p n et s d :
  node_at g p = Some n → op n = a_Constant et s d → shape_of g p = Some s.
Proof.
  intros Hn Hop. unfold shape_of, get_partial_shape, output_tensor, output0. cbn.
  rewrite Hn. cbn. unfold outputs. rewrite Hop. cbn. apply to_shape_of_shape.
Qed.

Lemma type_info_Constant n : type_info n = Constant → ∃ et s d, op n = a_Constant et s d.
Proof. unfold type_info. destruct (op n); try done. eauto. Qed.

Lemma size_mul_spec a b : size_mul a b = (a * b) mod 2 ^ 64.
Proof. done. Qed.

Lemma size_mul_assoc3 d0 d1 d2 :
  shape_size [size_mul d0 d1; d2] = shape_size [d0; d1; d2] ∧
  shape_size [d0; size_mul d1 d2] = shape_size [d0; d1; d2].
Proof.
  unfold shape_size. cbn [foldl]. rewrite !size_mul_spec.
  generalize (2 ^ 64). intros k. rewrite !N.mul_1_l.
  split.
  - by rewrite N.Div0.mod_mod, (N.Div0.mul_mod_idemp_l d0).
  - rewrite (N.Div0.mul_mod_idemp_r _ (d1 * d2)).
    rewrite (N.Div0.mul_mod_idemp_l (d0 `mod` k * d1)).
    by rewrite N.mul_assoc.
Qed.

Lemma canonical_shape_length ht gr s :
  length s = 2%nat ∨ length s = 3%nat → length (canonical_shape ht gr s) = 2%nat.
Proof.
  intros [H|H]; destruct s as [|a [|b [|c [|? ?]]]]; try done.
  cbn. by destruct (ht || negb gr).
Qed.

Lemma reshape_const_to_2d_rank2 ht gr g p n et s d :
  node_at g p = Some n → op n = a_Constant et s d → length s = 2%nat →
  reshape_const_to_2d ht gr p g = Ok (p, g).
Proof.
  intros Hn Hop Hlen. unfold reshape_const_to_2d.
  mstep ltac:(unfold dynamic_pointer_cast, ask; rewrite Hn; unfold type_info;
              rewrite Hop; reflexivity).
  mstep ltac:(unfold Constant_get_shape, ask, bind; rewrite Hn; cbn; rewrite Hop;
              reflexivity).
  by rewrite decide_True.
Qed.

Lemma reshape_const_to_2d_rank3 ht gr g p n et d0 d1 d2 d :
  node_at g p = Some n → op n = a_Constant et [d0; d1; d2] d →
  reshape_const_to_2d ht gr p g =
    Ok (length g,
        g ++ [Some {| op := a_Constant et (canonical_shape ht gr [d0; d1; d2]) d;
                      inputs := []; inferred_outputs := [];
                      friendly_name := ""; rt_info := [] |}]).
Proof.
  intros Hn Hop. unfold reshape_const_to_2d.
  mstep ltac:(unfold dynamic_pointer_cast, ask; rewrite Hn; unfold type_info;
              rewrite Hop; reflexivity).
  mstep ltac:(unfold Constant_get_shape, ask, bind; rewrite Hn; cbn; rewrite Hop;
              reflexivity).
  rewrite decide_False by done.
  rewrite bool_decide_eq_true_2 by done. cbn [OPENVINO_ASSERT].
  mstep ltac:(reflexivity).
  unfold Constant_reshaped. mstep ltac:(unfold ask; reflexivity).
  rewrite Hn. cbn [fmap option_fmap option_map]. rewrite Hop.
  change ([d0; d1; d2] !!! 0%nat) with d0.
  change ([d0; d1; d2] !!! 1%nat) with d1.
  change ([d0; d1; d2] !!! 2%nat) with d2.
  pose proof (size_mul_assoc3 d0 d1 d2) as [E1 E2].
  rewrite bool_decide_eq_true_2; last first.
  { destruct (ht || negb gr); done. }
  cbn [OPENVINO_ASSERT]. mstep ltac:(reflexivity).
  unfold make_shared, canonical_shape. done.
Qed.

Lemma reshape_const_to_2d_spec ht gr g p n et s d :
  node_at g p = Some n → op n = a_Constant et s d →
  length s = 2%nat ∨ length s = 3%nat →
  ∃ c g1 n1,
    reshape_const_to_2d ht gr p g = Ok (c, g1) ∧ grows g g1 ∧
    node_at g1 c = Some n1 ∧ op n1 = a_Constant et (canonical_shape ht gr s) d ∧
    (c = p ∨ (c = length g ∧ inputs n1 = [])).
Proof.
  intros Hn Hop [Hlen|Hlen].
  - exists p, g, n. split_and!.
    + by eapply reshape_const_to_2d_rank2.
    + apply grows_refl.
    + done.
    + rewrite Hop. destruct s as [|a [|b [|c [|? ?]]]]; done.
    + by left.
  - destruct s as [|d0 [|d1 [|d2 [|? ?]]]]; try done.
    eexists _, _, _. split_and!.
    + by eapply reshape_const_to_2d_rank3.
    + apply grows_snoc. by left.
    + apply node_at_snoc.
    + done.
    + by right.
Qed.

Lemma dynamic_pointer_cast_run ty p g :
  dynamic_pointer_cast ty p g =
    Ok (match node_at g p with
        | Some n => if decide (type_info n = ty) then Some p else None
        | None => None
        end, g).
Proof. done. Qed.

Lemma reshape_const_to_2d_inv ht gr g p c g1 :
  reshape_const_to_2d ht gr p g = Ok (c, g1) →
  ∃ n et s d, node_at g p = Some n ∧ op n = a_Constant et s d ∧
              (length s = 2%nat ∨ length s = 3%nat).
Proof.
  unfold reshape_const_to_2d. rewrite (bind_Ok _ _ _ _ _ (dynamic_pointer_cast_run _ _ _)).
  destruct (node_at g p) as [n|] eqn:Hn; [|done].
  case_decide as Hty; [|done].
  apply type_info_Constant in Hty as (et & s & d & Hop).
  intros H. exists n, et, s, d. split_and!; try done.
  apply bind_Ok_inv in H as (cs & g0 & Hcs & H).
  unfold Constant_get_shape, ask, bind in Hcs. rewrite Hn in Hcs. cbn in Hcs.
  rewrite Hop in Hcs. injection Hcs as <- <-.
  case_decide; [by left|]. right.
  apply bind_Ok_inv in H as (? & ? & Ha & _).
  unfold OPENVINO_ASSERT in Ha. by case_bool_decide.
Qed.

Lemma well_formed_edge g p n src :
  well_formed g = true → node_at g p = Some n → src ∈ inputs n →
  is_Some (output_tensor g src) ∧ get_node_shared_ptr src ≠ p.
Proof.
  unfold well_formed. rewrite forallb_forall. intros Hwf Hn Hsrc.
  unfold node_at in Hn. destruct (g !! p) as [[n'|]|] eqn:E; try done.
  cbn in Hn. injection Hn as ->.
  specialize (Hwf (forallb (edge_ok g p) (inputs n))).
  assert (forallb (edge_ok g p) (inputs n) = true) as H.
  { apply Hwf. apply list_elem_of_In. apply elem_of_lookup_imap.
    exists p, (Some n). done. }
  rewrite forallb_forall in H. apply list_elem_of_In in Hsrc.
  specialize (H _ Hsrc). unfold edge_ok in H.
  apply andb_true_iff in H as [H1 H2].
  apply bool_decide_eq_true in H1, H2. done.
Qed.

Lemma elem_of_ports_reading o ins i :
  i ∈ ports_reading o ins ↔ ins !! i = Some o.
Proof.
  unfold ports_reading. rewrite list_elem_of_omap. split.
  - intros (x & Hx & Hid). cbn in Hid. subst x.
    apply elem_of_lookup_imap in Hx as (j & src & Hj & Hsrc).
    case_decide; [|done]. injection Hj as <-. by subst.
  - intros H. exists (Some i). split; [|done].
    apply elem_of_lookup_imap. exists i, o. split; [|done]. by rewrite decide_True.
Qed.

Lemma elem_of_get_target_inputs g o p i :
  (p, i) ∈ get_target_inputs g o ↔ ∃ n, node_at g p = Some n ∧ inputs n !! i = Some o.
Proof.
  unfold get_target_inputs. rewrite list_elem_of_join. split.
  - intros (l & Hpi & Hl). apply elem_of_lookup_imap in Hl as (q & slot & -> & Hq).
    destruct slot as [n|]; [|by apply not_elem_of_nil in Hpi].
    apply list_elem_of_fmap in Hpi as (j & [= -> ->] & Hj).
    apply elem_of_ports_reading in Hj. exists n. split; [|done].
    unfold node_at. by rewrite Hq.
  - intros (n & Hn & Hi). unfold node_at in Hn.
    destruct (g !! p) as [[n'|]|] eqn:E; try done. cbn in Hn. injection Hn as ->.
    exists ((λ i, (p, i)) <$> ports_reading o (inputs n)). split.
    + apply list_elem_of_fmap. exists i. split; [done|]. by apply elem_of_ports_reading.
    + apply elem_of_lookup_imap. exists p, (Some n). split; [reflexivity | done].
Qed.

Lemma consumers_count_1_consumed g o :
  consumers_count 1 g o = true → ∃ p n i, node_at g p = Some n ∧ inputs n !! i = Some o.
Proof.
  unfold consumers_count. intros H%bool_decide_eq_true.
  destruct (get_target_inputs g o) as [|[p i] l] eqn:E; [done|].
  assert ((p, i) ∈ get_target_inputs g o) as Hin by (rewrite E; left).
  apply elem_of_get_target_inputs in Hin as (n & ? & ?). eauto.
Qed.

Lemma constant_value_index g v :
  has_type g v Constant → is_Some (output_tensor g v) → v = output0 (get_node_shared_ptr v).
Proof.
  intros (n & Hn & Hty) [t Ht]. unfold output_tensor in Ht. rewrite Hn in Ht. cbn in Ht.
  apply type_info_Constant in Hty as (et & s & d & Hop).
  unfold outputs in Ht. rewrite Hop in Ht.
  destruct v as [p [|i]]; [done|]. done.
Qed.

Lemma type_info_Transpose n : type_info n = Transpose → op n = a_Transpose.
Proof. unfold type_info. by destruct (op n). Qed.

Lemma type_info_FullyConnected n :
  type_info n = FullyConnected → ∃ t, op n = a_FullyConnected t.
Proof. unfold type_info. destruct (op n); try done. eauto. Qed.

Lemma transposed_by_grows g g1 x c tc :
  grows g g1 → transposed_by g x c tc → transposed_by g1 x c tc.
Proof. intros Hg (n & Hn & ?). exists n. split; [by eapply grows_node_at | done]. Qed.

Lemma at_run (pm : gmap nat Output) p v g :
  pm !! pattern_id p = Some v → at_ pm p g = Ok (v, g).
Proof. unfold at_. by intros ->. Qed.

Lemma get_shape_run g o s :
  get_partial_shape g o ≫= to_shape = Some s → get_shape o g = Ok (s, g).
Proof. unfold get_shape, ask, bind. by intros ->. Qed.

Lemma Node_get_shape_Constant g p n et s d :
  node_at g p = Some n → op n = a_Constant et s d → Node_get_shape p g = Ok (s, g).
Proof.
  intros Hn Hop. unfold Node_get_shape.
  mstep ltac:(unfold ask; reflexivity). rewrite Hn.
  assert (length (outputs n) = 1%nat) as Hl by (unfold outputs; by rewrite Hop).
  rewrite bool_decide_eq_true_2 by done. cbn [OPENVINO_ASSERT].
  mstep ltac:(reflexivity).
  apply get_shape_run. fold (shape_of g p). by eapply shape_of_Constant.
Qed.

Lemma std_swap_iota_2 : std_swap (std_iota 2) (2 - 1) (2 - 2) = [1%Z; 0%Z].
Proof. reflexivity. Qed.

Section TransposeOperands.
Variable transformation_callback : Graph → nat → bool.
Variable validate_and_infer_types : Graph → operator → list Output → list Tensor.

Abbreviation this_clone_with_new_inputs := (clone_with_new_inputs validate_and_infer_types).
Abbreviation this_make_op := (make_op validate_and_infer_types).
Abbreviation this_transpose_operands := (transpose_operands validate_and_infer_types).

Lemma make_op_run g o args :
  this_make_op o args g =
    Ok (length g,
        g ++ [Some {| op := o; inputs := args;
                      inferred_outputs := validate_and_infer_types g o args;
                      friendly_name := ""; rt_info := [] |}]).
Proof. done. Qed.

Lemma clone_with_new_inputs_run g node n args :
  node_at g node = Some n →
  this_clone_with_new_inputs node args g =
    Ok (length g,
        g ++ [Some {| op := op n; inputs := args;
                      inferred_outputs := validate_and_infer_types g (op n) args;
                      friendly_name := ""; rt_info := [] |}]).
Proof.
  intros Hn. unfold clone_with_new_inputs.
  mstep ltac:(unfold ask; reflexivity). rewrite Hn. apply make_op_run.
Qed.

Lemma clone_transpose g t nt c tc :
  node_at g t = Some nt → op nt = a_Transpose →
  ∃ g1, this_clone_with_new_inputs t [output0 c; output0 tc] g = Ok (length g, g1) ∧
        grows g g1 ∧ transposed_by g1 (length g) c tc ∧ length g1 = S (length g).
Proof.
  intros Hn Hop. eexists. split; [by apply clone_with_new_inputs_run|].
  split_and!.
  - apply grows_snoc. right. unfold type_info. cbn. by rewrite Hop.
  - eexists. split; [apply node_at_snoc|]. by cbn.
  - rewrite length_app. cbn. lia.
Qed.

Lemma transpose_operands_spec (pm : gmap nat Output) wzp g b s oz t tcv nt ntc
    et os d nb etb sb db :
  pm !! pattern_id transpose_m = Some t →
  node_at g (get_node_shared_ptr t) = Some nt → op nt = a_Transpose →
  pm !! pattern_id transpose_const_m = Some tcv →
  node_at g (get_node_shared_ptr tcv) = Some ntc → op ntc = a_Constant et os d →
  node_at g b = Some nb → op nb = a_Constant etb sb db → length sb = 2%nat →
  (wzp = true → is_Some oz) →
  ∃ tb ts tz tc g1,
    this_transpose_operands pm wzp b s oz g = Ok ((tb, ts, tz), g1) ∧ grows g g1 ∧
    transposed_by g1 tb b tc ∧ transposed_by g1 ts s tc ∧
    (if wzp then ∃ z tz', oz = Some z ∧ tz = Some tz' ∧ transposed_by g1 tz' z tc
                          ∧ (length g ≤ tz')%nat
     else tz = oz) ∧
    (length g ≤ tb)%nat ∧ (length g ≤ ts)%nat ∧
    ((shape_size os = 2 ∧ tc = get_node_shared_ptr tcv) ∨
     (shape_size os ≠ 2 ∧ tc = length g ∧
      ∃ n, node_at g1 tc = Some n ∧ op n = a_Constant i32 [2] (i32_values [1%Z; 0%Z]))).
Proof.
  intros Ht Hnt Hopt Htc Hntc Hopc Hnb Hopb Hlen Hz.
  assert (∃ tc g0, grows g g0 ∧
    (if bool_decide (shape_size os ≠ N.of_nat 2)
     then Constant_i32 (std_swap (std_iota 2) (2 - 1) (2 - 2))
     else ret (get_node_shared_ptr tcv)) g = Ok (tc, g0) ∧
    ((shape_size os = 2 ∧ tc = get_node_shared_ptr tcv) ∨
     (shape_size os ≠ 2 ∧ tc = length g ∧
      ∃ n, node_at g0 tc = Some n ∧ op n = a_Constant i32 [2] (i32_values [1%Z; 0%Z]))))
    as (tc & g0 & Hg0 & Hrun & Htcs).
  { case_bool_decide as Hne.
    - eexists _, _. split_and!; [|reflexivity|].
      + apply grows_snoc. by left.
      + right. split_and!; [done..|]. eexists. split; [apply node_at_snoc|]. done.
    - exists (get_node_shared_ptr tcv), g. split_and!; [apply grows_refl|done|].
      left. split; [exact Hne|done]. }
  pose proof (grows_node_at _ _ _ _ Hg0 Hnt) as Hnt0.
  destruct (clone_transpose g0 _ nt b tc Hnt0 Hopt) as (g1 & Hr1 & Hg1 & Hb & Hl1).
  pose proof (grows_node_at _ _ _ _ Hg1 Hnt0) as Hnt1.
  destruct (clone_transpose g1 _ nt s tc Hnt1 Hopt) as (g2 & Hr2 & Hg2 & Hs & Hl2).
  pose proof (grows_node_at _ _ _ _ Hg2 Hnt1) as Hnt2.
  pose proof (grows_length _ _ Hg0) as Hl0.
  assert (Hhead : this_transpose_operands pm wzp b s oz g =
    (let* fc_input_zp :=
       if wzp then
         match oz with
         | Some zp =>
             let* t := this_clone_with_new_inputs (get_node_shared_ptr t)
                         [output0 zp; output0 tc] in
             ret (Some t)
         | None => raise null_dereference
         end
       else ret oz in
     ret (length g0, length g1, fc_input_zp)) g2).
  { unfold transpose_operands.
    mstep ltac:(by apply at_run). mstep ltac:(by apply at_run).
    mstep ltac:(by eapply Node_get_shape_Constant).
    mstep ltac:(unfold ask; reflexivity).
    unfold get_output_partial_shape, get_partial_shape, output_tensor. cbn.
    rewrite Hnb. cbn. unfold outputs. rewrite Hopb. cbn. rewrite length_fmap, Hlen.
    mstep ltac:(exact Hrun). mstep ltac:(exact Hr1). mstep ltac:(exact Hr2). done. }
  rewrite Hhead. clear Hhead.
  destruct wzp.
  - destruct (Hz eq_refl) as [z ->].
    destruct (clone_transpose g2 _ nt z tc Hnt2 Hopt) as (g3 & Hr3 & Hg3 & Hzt & Hl3).
    exists (length g0), (length g1), (Some (length g2)), tc, g3.
    split_and!.
    + mstep ltac:(mstep ltac:(exact Hr3); reflexivity). done.
    + eauto using grows_trans.
    + eauto using transposed_by_grows, grows_trans.
    + eauto using transposed_by_grows, grows_trans.
    + exists z, (length g2). split_and!; try done. lia.
    + done.
    + lia.
    + destruct Htcs as [?|(? & ? & n & Hn & ?)]; [by left|right].
      split_and!; try done. exists n. split; [|done].
      eauto using grows_node_at, grows_trans.
  - exists (length g0), (length g1), oz, tc, g2.
    split_and!.
    + done.
    + eauto using grows_trans.
    + eauto using transposed_by_grows, grows_trans.
    + done.
    + done.
    + done.
    + lia.
    + destruct Htcs as [?|(? & ? & n & Hn & ?)]; [by left|right].
      split_and!; try done. exists n. split; [|done].
      eauto using grows_node_at, grows_trans.
Qed.
End TransposeOperands.


Lemma merged_rt_info_incl g from p n :
  p ∈ from → node_at g p = Some n → rt_info n ⊆ merged_rt_info g from.
Proof.
  intros Hp Hn x Hx. unfold merged_rt_info. apply list_elem_of_join.
  exists (rt_info n). split; [done|]. apply list_elem_of_fmap.
  exists p. split; [|done]. by rewrite Hn.
Qed.

Lemma redirect_ne t r c : c ≠ t → redirect t r (output0 c) = output0 c.
Proof. intros H. unfold redirect. cbn. by rewrite decide_False. Qed.

Lemma canonical_of_grows g g1 g2 ht gr p c :
  grows g1 g2 → canonical_of g g1 ht gr p c → canonical_of g g2 ht gr p c.
Proof.
  intros Hg (n & n' & et & s & d & ? & ? & ? & ? & ? & ?).
  exists n, n', et, s, d. split_and!; try done. by eapply grows_node_at.
Qed.

Lemma canonical_of_base g g0 g1 ht gr p c :
  grows g g0 → canonical_of g0 g1 ht gr p c → (p < length g)%nat →
  canonical_of g g1 ht gr p c.
Proof.
  intros Hg (n & n' & et & s & d & Hn & ? & ? & ? & ? & Hc) Hp.
  exists n, n', et, s, d. split_and!; try done.
  - by rewrite <- (grows_node_at_lt _ _ _ Hg Hp).
  - destruct Hc as [?|[? ?]]; [by left|right]. split; [done|].
    pose proof (grows_length _ _ Hg). lia.
Qed.

Lemma reshape_const_to_2d_canonical ht gr g p n et s d :
  node_at g p = Some n → op n = a_Constant et s d →
  length s = 2%nat ∨ length s = 3%nat →
  ∃ c g1, reshape_const_to_2d ht gr p g = Ok (c, g1) ∧ grows g g1 ∧
          canonical_of g g1 ht gr p c.
Proof.
  intros Hn Hop [Hlen|Hlen].
  - exists p, g. split_and!.
    + by eapply reshape_const_to_2d_rank2.
    + apply grows_refl.
    + exists n, n, et, s, d. split_and!; try done.
      * rewrite Hop. destruct s as [|a [|b [|c [|? ?]]]]; done.
      * apply canonical_shape_length. by left.
      * by left.
  - destruct s as [|d0 [|d1 [|d2 [|? ?]]]]; try done.
    eexists _, _. split_and!.
    + by eapply reshape_const_to_2d_rank3.
    + apply grows_snoc. by left.
    + eexists n, _, et, _, d. split_and!; try done.
      * apply node_at_snoc.
      * done.
      * apply canonical_shape_length. by right.
      * right. split; [done|lia].
Qed.

Lemma rank_2_or_3_Constant g p n et s d :
  node_at g p = Some n → op n = a_Constant et s d → rank_2_or_3 g p = true →
  length s = 2%nat ∨ length s = 3%nat.
Proof.
  intros Hn Hop. unfold rank_2_or_3. rewrite (shape_of_Constant _ _ _ _ _ _ Hn Hop).
  intros [H|H]%orb_true_iff; apply bool_decide_eq_true in H; auto.
Qed.

Lemma has_type_Constant g v :
  has_type g v Constant →
  ∃ n et s d, node_at g (get_node_shared_ptr v) = Some n ∧ op n = a_Constant et s d.
Proof. intros (n & Hn & (et & s & d & ?)%type_info_Constant). eauto 10. Qed.

Lemma substitute_spec m g5 root new_fc old fused0 :
  node_at g5 root = Some old → node_at g5 new_fc = Some fused0 → root ≠ new_fc →
  ∃ g' fused,
    substitute m root new_fc g5 = Ok (true, g') ∧
    length g' = length g5 ∧
    node_at g' root = None ∧
    (∀ p, p ≠ root → p ≠ new_fc → node_at g' p = rewire root new_fc <$> node_at g5 p) ∧
    node_at g' new_fc = Some fused ∧ op fused = op fused0 ∧
    inputs fused = redirect root new_fc <$> inputs fused0 ∧
    friendly_name fused = friendly_name old ∧
    (∀ p n, p ∈ get_matched_nodes m → p ≠ new_fc → node_at g5 p = Some n →
            rt_info n ⊆ rt_info fused).
Proof.
  intros Hold Hnew Hne.
  pose proof (node_at_lt _ _ _ Hnew) as Hlt.
  set (f1 := with_friendly_name (friendly_name old) fused0).
  set (g6 := <[new_fc := Some f1]> g5).
  set (f2 := with_rt_info (rt_info f1 ++ merged_rt_info g6 (get_matched_nodes m)) f1).
  set (g7 := <[new_fc := Some f2]> g6).
  assert (Hg6 : node_at g6 new_fc = Some f1).
  { unfold g6. rewrite node_at_insert. by rewrite decide_True. }
  assert (Hl6 : length g6 = length g5) by apply length_insert.
  assert (Hl7 : length g7 = length g5) by (unfold g7; by rewrite length_insert).
  exists (<[root := None]> (rewire_all root new_fc g7)), (rewire root new_fc f2).
  split_and!.
  - unfold substitute.
    mstep ltac:(unfold get_friendly_name, ask, bind; rewrite Hold; reflexivity).
    mstep ltac:(unfold set_friendly_name, modify; rewrite Hnew; reflexivity).
    mstep ltac:(unfold copy_runtime_info;
                mstep ltac:(unfold ask; reflexivity);
                unfold modify; fold f1 g6; rewrite Hg6; reflexivity).
    mstep ltac:(unfold replace_node; reflexivity). done.
  - rewrite length_insert. unfold rewire_all. by rewrite length_fmap.
  - rewrite node_at_retire. by rewrite decide_True.
  - intros p Hp1 Hp2. rewrite node_at_retire, decide_False by done.
    rewrite node_at_rewire_all. f_equal. unfold g7, g6.
    rewrite !node_at_insert. rewrite !decide_False; [done|..]; intros [? ?]; done.
  - rewrite node_at_retire, decide_False by done.
    rewrite node_at_rewire_all. unfold g7. rewrite node_at_insert.
    rewrite decide_True; [done|]. split; [done|]. by rewrite Hl6.
  - done.
  - done.
  - done.
  - intros p n Hp Hpn Hn x Hx. cbn. apply elem_of_app. right.
    eapply merged_rt_info_incl; [exact Hp| |exact Hx].
    unfold g6. rewrite node_at_insert. rewrite decide_False; [done|].
    intros [? ?]; done.
Qed.

Lemma count_true (pm : gmap nat Output) p :
  count pm p = true ↔ is_Some (pm !! pattern_id p).
Proof. unfold count. apply bool_decide_eq_true. Qed.

Lemma canonical_of_lt g g' ht gr p c :
  canonical_of g g' ht gr p c → (p < length g)%nat ∧ (c < length g')%nat.
Proof.
  intros (n & n' & et & s & d & Hn & _ & Hn' & _).
  split; by eapply node_at_lt.
Qed.

Section Build.
Variable transformation_callback : Graph → nat → bool.
Variable validate_and_infer_types : Graph → operator → list Output → list Tensor.

Abbreviation this_build_fused_node := (build_fused_node validate_and_infer_types).
Abbreviation this_transpose_operands := (transpose_operands validate_and_infer_types).
Abbreviation this_make_op := (make_op validate_and_infer_types).

Lemma build_fused_node_spec g root m gr :
  match_facts g root m → canonicalizable g m = true →
  let pm := get_pattern_value_map m in
  let ht := count pm transpose_m in
  ∃ g4 fused0 old t data_v w s cw cs b sc order zl,
    this_build_fused_node m root ht gr g = Ok (length g4, g4 ++ [Some fused0]) ∧
    grows g g4 ∧
    node_at g root = Some old ∧ op old = a_FullyConnected t ∧
    inputs old !! 0%nat = Some data_v ∧
    op fused0 = a_FullyConnectedCompressed t ∧
    inputs fused0 =
      output0 (get_node_shared_ptr data_v) :: output0 b :: output0 sc :: zl ∧
    pm !! pattern_id weights_m = Some w ∧ pm !! pattern_id mul_const_m = Some s ∧
    canonical_of g g4 ht gr (get_node_shared_ptr w) cw ∧
    canonical_of g g4 ht gr (get_node_shared_ptr s) cs ∧
    operand_of g g4 ht order b cw ∧ operand_of g g4 ht order sc cs ∧
    (∀ tc, order = Some tc → order_of g g4 m tc) ∧
    (if count pm subtract_m
     then ∃ zv cz zo, pm !! pattern_id sub_const_m = Some zv ∧
                      canonical_of g g4 ht gr (get_node_shared_ptr zv) cz ∧
                      operand_of g g4 ht order zo cz ∧ zl = [output0 zo]
     else zl = []).
Proof.
  intros Hmf Hcan pm ht.
  destruct Hmf as [Hroot (old & data_v & b_v & Hold & Hty & Hin & Hdata)
                   (w & Hw & Hwt & _) _ (s & Hs & Hst & _) Hzp Htr _].
  fold pm in Hroot, Hdata, Hw, Hs, Hzp, Htr.
  apply type_info_FullyConnected in Hty as (t & Hopo).
  unfold canonicalizable in Hcan. fold pm in Hcan. rewrite Hs, Hw in Hcan.
  apply andb_true_iff in Hcan as [Hcan Hcz]. apply andb_true_iff in Hcan as [Hcs Hcw].
  apply has_type_Constant in Hwt as (nw & etw & sw & dw & Hnw & Hopw).
  apply has_type_Constant in Hst as (ns & ets & ss & ds & Hns & Hops).
  pose proof (rank_2_or_3_Constant _ _ _ _ _ _ Hns Hops Hcs) as Hls.
  pose proof (rank_2_or_3_Constant _ _ _ _ _ _ Hnw Hopw Hcw) as Hlw.
  (* scale *)
  destruct (reshape_const_to_2d_canonical ht gr g _ _ _ _ _ Hns Hops Hls)
    as (cs & g1 & Hr1 & Hg1 & Hcans).
  (* zero point *)
  assert (∃ oz g2,
    (if count pm subtract_m then
       let* zp_v := at_ pm sub_const_m in
       let* zp := reshape_const_to_2d ht gr (get_node_shared_ptr zp_v) in
       ret (Some zp)
     else ret None) g1 = Ok (oz, g2) ∧ grows g1 g2 ∧
    (if count pm subtract_m
     then ∃ zv cz, pm !! pattern_id sub_const_m = Some zv ∧ oz = Some cz ∧
                   canonical_of g g2 ht gr (get_node_shared_ptr zv) cz
     else oz = None)) as (oz & g2 & Hr2 & Hg2 & Hoz).
  { destruct (count pm subtract_m).
    - destruct Hzp as (z & Hz & Hzt & _). rewrite Hz in Hcz.
      apply has_type_Constant in Hzt as (nz & etz & sz & dz & Hnz & Hopz).
      pose proof (rank_2_or_3_Constant _ _ _ _ _ _ Hnz Hopz Hcz) as Hlz.
      pose proof (grows_node_at _ _ _ _ Hg1 Hnz) as Hnz1.
      destruct (reshape_const_to_2d_canonical ht gr g1 _ _ _ _ _ Hnz1 Hopz Hlz)
        as (cz & g2 & Hrz & Hgz & Hcanz).
      exists (Some cz), g2. split_and!; [|done|].
      + mstep ltac:(by apply at_run). mstep ltac:(exact Hrz). done.
      + exists z, cz. split_and!; try done.
        eapply canonical_of_base; [exact Hg1|exact Hcanz|]. by eapply node_at_lt.
    - exists None, g1. split_and!; [done|apply grows_refl|done]. }
  (* weights *)
  pose proof (grows_trans _ _ _ Hg1 Hg2) as Hg02.
  pose proof (grows_node_at _ _ _ _ Hg02 Hnw) as Hnw2.
  destruct (reshape_const_to_2d_canonical ht gr g2 _ _ _ _ _ Hnw2 Hopw Hlw)
    as (cw & g3 & Hr3 & Hg3 & Hcanw).
  eapply canonical_of_base in Hcanw; [|exact Hg02|by eapply node_at_lt].
  pose proof (grows_trans _ _ _ Hg02 Hg3) as Hg03.
  pose proof (canonical_of_grows _ _ _ _ _ _ _ (grows_trans _ _ _ Hg2 Hg3) Hcans) as Hcans3.
  (* operands *)
  assert (∃ b sc tz order g4,
    (if ht
     then this_transpose_operands pm (count pm subtract_m) cw cs oz
     else ret (cw, cs, oz)) g3 = Ok ((b, sc, tz), g4) ∧ grows g3 g4 ∧
    operand_of g g4 ht order b cw ∧ operand_of g g4 ht order sc cs ∧
    (∀ tc, order = Some tc → order_of g g4 m tc) ∧
    (if count pm subtract_m
     then ∃ zv cz zo, pm !! pattern_id sub_const_m = Some zv ∧ tz = Some zo ∧
                      canonical_of g g4 ht gr (get_node_shared_ptr zv) cz ∧
                      operand_of g g4 ht order zo cz
     else tz = None)) as (b & sc & tz & order & g4 & Hr4 & Hg4 & Hb & Hsc & Hord & Htz).
  { unfold operand_of. subst ht. destruct (count pm transpose_m).
    - destruct Htr as (tv & tcv & Htv & (nt & Hnt & Hopt%type_info_Transpose) & Htcv & Htct).
      apply has_type_Constant in Htct as (ntc & etc & os & dc & Hntc & Hopc).
      destruct Hcanw as (nw0 & nw' & etw' & sw' & dw' & _ & _ & Hnw' & Hopw' & Hlw' & _).
      pose proof (grows_length _ _ Hg03) as Hlen03.
      edestruct (transpose_operands_spec validate_and_infer_types pm (count pm subtract_m)
                   g3 cw cs oz tv tcv nt ntc etc os dc nw' etw' _ dw'
                   Htv (grows_node_at _ _ _ _ Hg03 Hnt) Hopt Htcv
                   (grows_node_at _ _ _ _ Hg03 Hntc) Hopc Hnw' Hopw' Hlw')
        as (tb & ts & tz & tc & g4 & Hrun & Hg4 & Htb & Hts & Htz & Hlb & Hls' & Htc).
      { intros E. rewrite E in Hoz. destruct Hoz as (? & ? & _ & -> & _). eauto. }
      exists tb, ts, tz, (Some tc), g4. split_and!; try done.
      + exists tc. split_and!; [done..|lia].
      + exists tc. split_and!; [done..|lia].
      + intros ? [= <-]. exists tcv, ntc, etc, os, dc. split_and!; try done.
        destruct Htc as [?|(? & -> & ?)]; [by left|right]. split_and!; [done|lia|done].
      + destruct (count pm subtract_m); [|by subst].
        destruct Hoz as (zv & cz & Hzv & -> & Hcanz).
        destruct Htz as (z' & tz' & [= <-] & -> & Htz' & Hlz').
        exists zv, cz, tz'. split_and!; try done.
        * eapply canonical_of_grows; [|exact Hcanz]. eauto using grows_trans.
        * exists tc. split_and!; [done..|lia].
    - exists cw, cs, oz, None, g3. split_and!; try done.
      + apply grows_refl.
      + destruct (count pm subtract_m); [|done].
        destruct Hoz as (zv & cz & Hzv & -> & Hcanz).
        exists zv, cz, cz. split_and!; try done.
        eapply canonical_of_grows; [|exact Hcanz]. done. }
  pose proof (grows_trans _ _ _ Hg03 Hg4) as Hg04.
  assert (Hhead : this_build_fused_node m root ht gr g =
    (let* output_type := get_output_type root in
     if count pm subtract_m then
       match tz with
       | Some fc_input_zp =>
           this_make_op (a_FullyConnectedCompressed output_type)
             [output0 (get_node_shared_ptr data_v); output0 b; output0 sc;
              output0 fc_input_zp]
       | None => raise null_dereference
       end
     else
       this_make_op (a_FullyConnectedCompressed output_type)
         [output0 (get_node_shared_ptr data_v); output0 b; output0 sc]) g4).
  { unfold build_fused_node. fold pm.
    mstep ltac:(unfold get_input_node_shared_ptr, ask, bind; rewrite Hold; cbn;
                rewrite Hin; reflexivity).
    mstep ltac:(by apply at_run). mstep ltac:(exact Hr1).
    mstep ltac:(exact Hr2). mstep ltac:(by apply at_run). mstep ltac:(exact Hr3).
    mstep ltac:(exact Hr4). reflexivity. }
  rewrite Hhead. clear Hhead.
  pose proof (grows_node_at _ _ _ _ Hg04 Hold) as Hold4.
  assert (Hot : get_output_type root g4 = Ok (t, g4)).
  { unfold get_output_type, ask, bind. rewrite Hold4. cbn. by rewrite Hopo. }
  rewrite (bind_Ok _ _ _ _ _ Hot).
  destruct (count pm subtract_m) eqn:Hsub.
  - destruct Htz as (zv & cz & zo & Hzv & -> & Hcanz & Hzo).
    eexists g4, _, old, t, data_v, w, s, cw, cs, b, sc, order, [output0 zo].
    split_and!;
      first [ apply make_op_run | done | by rewrite Hin
            | by (eapply canonical_of_grows; [exact Hg4|])
            | by exists zv, cz, zo ].
  - eexists g4, _, old, t, data_v, w, s, cw, cs, b, sc, order, [].
    split_and!;
      first [ apply make_op_run | done | by rewrite Hin
            | by (eapply canonical_of_grows; [exact Hg4|]) ].
Qed.
End Build.


Section Callback.
Variable transformation_callback : Graph → nat → bool.
Variable validate_and_infer_types : Graph → operator → list Output → list Tensor.

Abbreviation this_callback := (callback transformation_callback validate_and_infer_types).
Abbreviation this_build_fused_node := (build_fused_node validate_and_infer_types).

Lemma callback_prefix g root m s scale_shape :
  match_facts g root m →
  transformation_callback g root = false →
  get_pattern_value_map m !! pattern_id mul_const_m = Some s →
  get_partial_shape g s ≫= to_shape = Some scale_shape →
  this_callback m g =
    (let* new_fc := this_build_fused_node m root
                      (count (get_pattern_value_map m) transpose_m)
                      (is_grouped scale_shape) in
     substitute m root new_fc) g.
Proof.
  intros [Hroot (old & data_v & b_v & Hold & Hty & Hin & Hdata)
          (w & Hw & _) Hcvt (s' & Hs' & _) _ _ _] Hveto Hs Hshape.
  unfold callback.
  rewrite (proj2 (count_true _ fully_connected_m)) by (by rewrite Hroot).
  rewrite (proj2 (count_true _ mul_const_m)) by (by rewrite Hs).
  rewrite (proj2 (count_true _ weights_m)) by (by rewrite Hw).
  rewrite Hcvt. cbn [OPENVINO_ASSERT].
  mstep ltac:(reflexivity). mstep ltac:(reflexivity).
  mstep ltac:(reflexivity). mstep ltac:(reflexivity).
  mstep ltac:(by apply at_run).
  rewrite (bind_Ok _ _ _ _ _ (dynamic_pointer_cast_run _ _ _)).
  cbn [get_node_shared_ptr output0]. rewrite Hold, decide_True by done.
  mstep ltac:(unfold ask; reflexivity). rewrite Hveto.
  mstep ltac:(by apply at_run). mstep ltac:(by apply get_shape_run).
  reflexivity.
Qed.

Lemma rewire_type_info t r n : type_info (rewire t r n) = type_info n.
Proof. done. Qed.

Lemma scale_value_shape g s :
  well_formed g = true → has_type g s Constant → consumers_count 1 g s = true →
  ∃ n et ss d, node_at g (get_node_shared_ptr s) = Some n ∧ op n = a_Constant et ss d ∧
               get_partial_shape g s ≫= to_shape = Some ss ∧
               shape_of g (get_node_shared_ptr s) = Some ss.
Proof.
  intros Hwf Hty Hc.
  apply consumers_count_1_consumed in Hc as (p & n & i & Hn & Hi).
  apply list_elem_of_lookup_2 in Hi.
  destruct (well_formed_edge _ _ _ _ Hwf Hn Hi) as [Hout _].
  pose proof (constant_value_index _ _ Hty Hout) as Hv.
  apply has_type_Constant in Hty as (ns & et & ss & d & Hns & Hop).
  exists ns, et, ss, d. split_and!; try done.
  - rewrite Hv. by eapply shape_of_Constant.
  - by eapply shape_of_Constant.
Qed.

Lemma callback_fuses g root m :
  well_formed g = true → match_facts g root m →
  transformation_callback g root = false → canonicalizable g m = true →
  ∃ g' f, this_callback m g = Ok (true, g') ∧ fused_by g root m g' f.
Proof.
  intros Hwf Hmf Hveto Hcan.
  pose proof Hmf as [Hroot (old0 & data_v0 & b_v & Hold0 & Hty0 & Hin0 & _)
                     _ _ (s0 & Hs0 & Hst0 & Hsc0) _ _ _].
  destruct (scale_value_shape _ _ Hwf Hst0 Hsc0)
    as (ns & ets & ss & ds & Hns & Hops & Hshape & Hshape0).
  rewrite (callback_prefix _ _ _ _ _ Hmf Hveto Hs0 Hshape).
  set (ht := count (get_pattern_value_map m) transpose_m).
  set (gr := is_grouped ss).
  destruct (build_fused_node_spec validate_and_infer_types g root m gr Hmf Hcan)
    as (g4 & fused0 & old & t & data_v & w & s & cw & cs & b & sc & order & zl &
        Hbuild & Hg4 & Hold & Hopo & Hdata & Hopf & Hinf & Hw & Hs & Hcw & Hcs &
        Hb & Hsc & Hord & Hzl).
  fold ht in Hbuild, Hcw, Hcs, Hb, Hsc, Hzl.
  rewrite (bind_Ok _ _ _ _ _ Hbuild).
  pose proof (node_at_lt _ _ _ Hold) as Hrlt.
  pose proof (grows_length _ _ Hg4) as Hlen4.
  pose proof (grows_node_at _ _ _ _ Hg4 Hold) as Hold4.
  assert (Hold5 : node_at (g4 ++ [Some fused0]) root = Some old) by by apply node_at_app_l.
  assert (Hne : root ≠ length g4) by lia.
  destruct (substitute_spec m _ root (length g4) old fused0 Hold5 (node_at_snoc _ _) Hne)
    as (g' & fused & Hrun & Hlen' & Hret & Hframe & Hfused & Hopn & Hinn & Hname & Hrt).
  (* lifting facts from the graph before the substitution *)
  assert (Hlift : ∀ x n, node_at g4 x = Some n → type_info n ≠ FullyConnected →
                         node_at g' x = Some (rewire root (length g4) n)).
  { intros x n Hx Hnt. pose proof (node_at_lt _ _ _ Hx).
    rewrite Hframe.
    - by rewrite (node_at_app_l _ _ _ _ Hx).
    - intros ->. rewrite Hold4 in Hx. injection Hx as <-.
      apply Hnt. unfold type_info. by rewrite Hopo.
    - lia. }
  assert (Hcanl : ∀ p c, canonical_of g g4 ht gr p c →
                         canonical_of g g' ht gr p c ∧ c ≠ root).
  { intros p c (n & n' & et & sh & d & Hn & Hop & Hn' & Hop' & Hl & Hc).
    assert (type_info n' ≠ FullyConnected) as Hnt by (unfold type_info; by rewrite Hop').
    split.
    - exists n, (rewire root (length g4) n'), et, sh, d.
      split_and!; try done. by apply Hlift.
    - intros ->. rewrite Hold4 in Hn'. injection Hn' as <-.
      rewrite Hopo in Hop'. done. }
  assert (Hordl : ∀ tc, order = Some tc → order_of g g' m tc ∧ tc ≠ root).
  { intros tc (tcv & ntc & et & os & d & Htcv & Hntc & Hopc & Hcase)%Hord.
    split.
    - exists tcv, ntc, et, os, d. split_and!; try done.
      destruct Hcase as [?|(? & ? & n & Hn & Hop)]; [by left|right].
      split_and!; try done. exists (rewire root (length g4) n). split; [|done].
      apply Hlift; [done|]. unfold type_info. by rewrite Hop.
    - destruct Hcase as [[_ ->]|(_ & ? & _)]; [|lia].
      intros E. rewrite E, Hold in Hntc. injection Hntc as <-.
      rewrite Hopo in Hopc. done. }
  assert (Hopl : ∀ p x c, canonical_of g g4 ht gr p c → operand_of g g4 ht order x c →
                          operand_of g g' ht order x c ∧ x ≠ root).
  { intros p x c Hc Hx. destruct (Hcanl _ _ Hc) as [_ Hcr].
    unfold operand_of in *. destruct ht.
    - destruct Hx as (tc & Ho & (n & Hn & Hop & Hi) & Hl).
      destruct (Hordl _ Ho) as [_ Htr].
      split; [|lia]. exists tc. split_and!; try done.
      exists (rewire root (length g4) n). split_and!; try done.
      + apply Hlift; [done|]. unfold type_info. by rewrite Hop.
      + cbn. rewrite Hi. cbn. by rewrite !redirect_ne.
    - by subst. }
  destruct (Hcanl _ _ Hcw) as [Hcw' _]. destruct (Hcanl _ _ Hcs) as [Hcs' _].
  destruct (Hopl _ _ _ Hcw Hb) as [Hb' Hbr]. destruct (Hopl _ _ _ Hcs Hsc) as [Hsc' Hscr].
  assert (Hdr : get_node_shared_ptr data_v ≠ root).
  { eapply well_formed_edge; [exact Hwf|exact Hold|].
    by eapply list_elem_of_lookup_2. }
  assert (Hs0s : s0 = s) by congruence. subst s0.
  assert (Hzl' : ∃ oz,
    redirect root (length g4) <$> zl = match oz with Some z => [output0 z] | None => [] end ∧
    if count (get_pattern_value_map m) subtract_m
    then ∃ zv cz zo,
        get_pattern_value_map m !! pattern_id sub_const_m = Some zv ∧
        oz = Some zo ∧ canonical_of g g' ht gr (get_node_shared_ptr zv) cz ∧
        operand_of g g' ht order zo cz
    else oz = None).
  { destruct (count (get_pattern_value_map m) subtract_m).
    - destruct Hzl as (zv & cz & zo & Hzv & Hcz & Hzo & ->).
      destruct (Hcanl _ _ Hcz) as [Hcz' _]. destruct (Hopl _ _ _ Hcz Hzo) as [Hzo' Hzr].
      exists (Some zo). split; [cbn; by rewrite redirect_ne|].
      exists zv, cz, zo. done.
    - exists None. by subst. }
  destruct Hzl' as (oz & Hzin & Hoz).
  exists g', {| new_fc := length g4; fc_old := old; fc_new := fused;
                has_transpose := ht; grouped := gr;
                canonical_weight := cw; canonical_scale := cs;
                weight_operand := b; scale_operand := sc;
                zero_point_operand := oz; order_constant := order |}.
  split; [exact Hrun|].
  split; cbn [new_fc fc_old fc_new has_transpose grouped canonical_weight
              canonical_scale weight_operand scale_operand zero_point_operand
              order_constant].
  - done.
  - done.
  - done.
  - done.
  - intros p Hp Hpr. rewrite Hframe by lia.
    rewrite node_at_app_lt by lia. by rewrite (grows_node_at_lt _ _ _ Hg4).
  - intros p n Hp Hpn Hn.
    assert (p ≠ root) by lia.
    rewrite Hframe in Hn by done.
    destruct (decide (p < length g4)%nat) as [Hlt|Hge].
    + destruct (grows_new _ _ p Hg4) as (n0 & Hn0 & Haux); [lia|].
      rewrite node_at_app_lt, Hn0 in Hn by done. by injection Hn as <-.
    + unfold node_at in Hn. rewrite lookup_ge_None_2 in Hn; [done|].
      rewrite length_app. cbn. lia.
  - exists t. by rewrite Hopn.
  - done.
  - intros p n Hp Hn. eapply Hrt; [done| |].
    + pose proof (node_at_lt _ _ _ Hn). lia.
    + apply node_at_app_l. by eapply grows_node_at.
  - exists data_v. split; [done|]. rewrite Hinn, Hinf. cbn.
    rewrite !redirect_ne by done. by rewrite Hzin.
  - split; [done|]. exists s, ss. done.
  - exists w. done.
  - exists s. done.
  - done.
  - intros tc Htc. by apply Hordl.
Qed.
End Callback.


Lemma rank_2_or_3_grows g g1 p :
  grows g g1 → (p < length g)%nat → rank_2_or_3 g1 p = rank_2_or_3 g p.
Proof.
  intros Hg Hp. unfold rank_2_or_3, shape_of, get_partial_shape, output_tensor. cbn.
  by rewrite (grows_node_at_lt _ _ _ Hg Hp).
Qed.

Lemma reshape_const_to_2d_Ok ht gr g p c g1 :
  reshape_const_to_2d ht gr p g = Ok (c, g1) →
  rank_2_or_3 g p = true ∧ grows g g1 ∧ (p < length g)%nat.
Proof.
  intros H. pose proof H as (n & et & s & d & Hn & Hop & Hlen)%reshape_const_to_2d_inv.
  destruct (reshape_const_to_2d_canonical ht gr g p n et s d Hn Hop Hlen)
    as (c' & g1' & Hrun & Hg & _).
  rewrite H in Hrun. injection Hrun as <- <-. split_and!; [|done|by eapply node_at_lt].
  unfold rank_2_or_3. rewrite (shape_of_Constant _ _ _ _ _ _ Hn Hop).
  destruct Hlen as [->| ->]; done.
Qed.

Lemma at_inv (pm : gmap nat Output) p g v g1 :
  at_ pm p g = Ok (v, g1) → pm !! pattern_id p = Some v ∧ g1 = g.
Proof. unfold at_. destruct (pm !! pattern_id p); [|done]. by intros [= -> ->]. Qed.

Section Outcome.
Variable transformation_callback : Graph → nat → bool.
Variable validate_and_infer_types : Graph → operator → list Output → list Tensor.

Abbreviation this_callback := (callback transformation_callback validate_and_infer_types).
Abbreviation this_run_on_node := (run_on_node transformation_callback validate_and_infer_types).
Abbreviation this_build_fused_node := (build_fused_node validate_and_infer_types).

Lemma get_input_node_shared_ptr_inv g node i a g0 :
  get_input_node_shared_ptr node i g = Ok (a, g0) → g0 = g.
Proof.
  unfold get_input_node_shared_ptr, ask, bind.
  destruct (node_at g node ≫= λ n, inputs n !! i) as [src|]; [|done].
  by intros [= _ ->].
Qed.

Lemma has_type_lt g v ty : has_type g v ty → (get_node_shared_ptr v < length g)%nat.
Proof. intros (n & Hn & _). by eapply node_at_lt. Qed.

Lemma build_fused_node_Ok g root m fc ht gr r :
  match_facts g root m →
  this_build_fused_node m fc ht gr g = Ok r → canonicalizable g m = true.
Proof.
  intros [_ _ (w0 & Hw0 & Hwt & _) _ _ Hzp _ _].
  unfold build_fused_node. intros H.
  apply bind_Ok_inv in H as (a & g0 & ->%get_input_node_shared_ptr_inv & H).
  apply bind_Ok_inv in H as (s & ? & [Hs ->]%at_inv & H).
  apply bind_Ok_inv in H as (cs & g1 & (Hrs & Hg1 & Hps)%reshape_const_to_2d_Ok & H).
  apply bind_Ok_inv in H as (oz & g2 & Hz & H).
  apply bind_Ok_inv in H as (w & ? & [Hw ->]%at_inv & H).
  apply bind_Ok_inv in H as (cw & g3 & (Hrw & Hg3 & Hpw)%reshape_const_to_2d_Ok & _).
  assert (w0 = w) as -> by congruence. apply has_type_lt in Hwt.
  unfold canonicalizable. rewrite Hs, Hw, Hrs. cbn [andb].
  destruct (count (get_pattern_value_map m) subtract_m).
  - apply bind_Ok_inv in Hz as (z & ? & [Hzv ->]%at_inv & Hz).
    apply bind_Ok_inv in Hz as (cz & g2' & (Hrz & Hg2 & Hpz)%reshape_const_to_2d_Ok & Hz).
    injection Hz as <- <-. rewrite Hzv.
    destruct Hzp as (z0 & Hz0 & Hzt%has_type_lt & _).
    assert (z0 = z) as -> by congruence.
    rewrite (rank_2_or_3_grows _ _ _ Hg1) in Hrz by done.
    rewrite (rank_2_or_3_grows _ _ _ (grows_trans _ _ _ Hg1 Hg2)) in Hrw by done.
    by rewrite Hrz, Hrw.
  - injection Hz as <- <-.
    rewrite (rank_2_or_3_grows _ _ _ Hg1) in Hrw by done.
    by rewrite Hrw.
Qed.

Lemma callback_veto_or_rewrite g root m :
  match_facts g root m →
  this_callback m g =
    if transformation_callback g root then Ok (false, g)
    else
      (let* scale_v := at_ (get_pattern_value_map m) mul_const_m in
       let* scale_shape := get_shape scale_v in
       let* new_fc := this_build_fused_node m root
                        (count (get_pattern_value_map m) transpose_m)
                        (is_grouped scale_shape) in
       substitute m root new_fc) g.
Proof.
  intros [Hroot (old & data_v & b_v & Hold & Hty & Hin & Hdata)
          (w & Hw & _) Hcvt (s & Hs & _) _ _ _].
  unfold callback.
  rewrite (proj2 (count_true _ fully_connected_m)) by (by rewrite Hroot).
  rewrite (proj2 (count_true _ mul_const_m)) by (by rewrite Hs).
  rewrite (proj2 (count_true _ weights_m)) by (by rewrite Hw).
  rewrite Hcvt. cbn [OPENVINO_ASSERT].
  mstep ltac:(reflexivity). mstep ltac:(reflexivity).
  mstep ltac:(reflexivity). mstep ltac:(reflexivity).
  mstep ltac:(by apply at_run).
  rewrite (bind_Ok _ _ _ _ _ (dynamic_pointer_cast_run _ _ _)).
  cbn [get_node_shared_ptr output0]. rewrite Hold, decide_True by done.
  mstep ltac:(unfold ask; reflexivity).
  by destruct (transformation_callback g root).
Qed.

Lemma callback_true_inv g root m g' :
  match_facts g root m → this_callback m g = Ok (true, g') →
  transformation_callback g root = false ∧ canonicalizable g m = true.
Proof.
  intros Hmf. rewrite (callback_veto_or_rewrite _ _ _ Hmf).
  destruct (transformation_callback g root); [done|].
  intros H. split; [done|].
  apply bind_Ok_inv in H as (x & ? & [_ ->]%at_inv & H).
  apply bind_Ok_inv in H as (ss & g0 & Hss & H).
  assert (g0 = g) as ->.
  { unfold get_shape, ask, bind in Hss.
    destruct (get_partial_shape g x ≫= to_shape); cbn in Hss; [|done].
    by injection Hss as _ <-. }
  apply bind_Ok_inv in H as (nf & g5 & H & _).
  by eapply build_fused_node_Ok.
Qed.

Lemma run_on_node_eq g root :
  this_run_on_node root g =
    match Matcher_match fully_connected_m g root with
    | Some m => this_callback m g
    | None => Ok (false, g)
    end.
Proof.
  unfold run_on_node. mstep ltac:(unfold ask; reflexivity).
  by destruct (Matcher_match fully_connected_m g root).
Qed.

Lemma run_on_node_true_inv g root g' :
  this_run_on_node root g = Ok (true, g') →
  ∃ m, Matcher_match fully_connected_m g root = Some m ∧ this_callback m g = Ok (true, g').
Proof.
  rewrite run_on_node_eq.
  destruct (Matcher_match fully_connected_m g root) as [m|]; [eauto|done].
Qed.

(** A successful rewrite, characterised. *)
Lemma run_on_node_true g root g' :
  well_formed g = true → this_run_on_node root g = Ok (true, g') →
  ∃ m f, Matcher_match fully_connected_m g root = Some m ∧
         transformation_callback g root = false ∧ canonicalizable g m = true ∧
         fused_by g root m g' f.
Proof.
  intros Hwf (m & Hm & Hcb)%run_on_node_true_inv.
  pose proof (match_facts_of_match _ _ _ Hm) as Hmf.
  destruct (callback_true_inv _ _ _ _ Hmf Hcb) as [Hveto Hcan].
  destruct (callback_fuses transformation_callback validate_and_infer_types
              _ _ _ Hwf Hmf Hveto Hcan) as (g'' & f & Hrun & Hf).
  rewrite Hcb in Hrun. injection Hrun as <-. eauto 10.
Qed.

Lemma run_on_node_match g root m :
  Matcher_match fully_connected_m g root = Some m → this_run_on_node root g = this_callback m g.
Proof. intros Hm. by rewrite run_on_node_eq, Hm. Qed.
End Outcome.


Lemma std_count_if_filter {A} (pred : A → bool) (l : list A) :
  std_count_if pred l = Z.of_nat (length (filter (λ x, pred x = true) l)).
Proof.
  unfold std_count_if.
  assert (∀ acc, foldl (λ n x, if pred x then (n + 1)%Z else n) acc l =
                 (acc + Z.of_nat (length (filter (λ x, pred x = true) l)))%Z) as H.
  { induction l as [|x l IH]; intros acc; cbn [foldl].
    - cbn. lia.
    - rewrite IH. rewrite filter_cons. destruct (pred x) eqn:E.
      + rewrite decide_True by done. cbn [length]. lia.
      + rewrite decide_False by done. lia. }
  rewrite H. lia.
Qed.

Lemma is_grouped_spec (scale_shape : Shape) :
  is_grouped scale_shape = true ↔
  (1 < length (filter (λ d : N, (1 < d)%N) scale_shape))%nat.
Proof.
  unfold is_grouped. rewrite bool_decide_eq_true, std_count_if_filter.
  assert (filter (λ x : N, bool_decide (1 < x) = true) scale_shape =
          filter (λ d : N, (1 < d)%N) scale_shape) as ->.
  { apply list_filter_iff. intros x. apply bool_decide_eq_true. }
  lia.
Qed.

Lemma int32_wrap_small z : (0 ≤ z < 2 ^ 31)%Z → int32_wrap z = z.
Proof.
  intros H. unfold int32_wrap. rewrite Z.mod_small; lia.
Qed.

Lemma std_swap_iota r :
  (2 ≤ r)%nat → (Z.of_nat r ≤ 2 ^ 31)%Z →
  std_swap (std_iota r) (r - 1) (r - 2) = swap_last_two r.
Proof.
  intros Hr Hb. destruct r as [|[|k]]; [lia..|].
  unfold std_swap, std_iota, swap_last_two.
  replace (S (S k) - 1)%nat with (S k) by lia.
  replace (S (S k) - 2)%nat with k by lia.
  replace (S (S k)) with (k + 2)%nat by lia.
  rewrite seq_app, fmap_app. cbn [seq fmap list_fmap]. rewrite Nat.add_0_l.
  set (pre := (λ i, int32_wrap (Z.of_nat i)) <$> seq 0 k).
  assert (Hl : length pre = k) by (unfold pre; by rewrite length_fmap, length_seq).
  assert (pre = Z.of_nat <$> seq 0 k) as Hpre.
  { unfold pre. apply list_fmap_ext. intros i x Hx.
    apply lookup_seq in Hx as [-> ?]. apply int32_wrap_small. lia. }
  rewrite !int32_wrap_small by lia.
  rewrite (lookup_app_r pre) by lia. rewrite (lookup_app_r pre) by lia.
  rewrite Hl. replace (S k - k)%nat with 1%nat by lia. rewrite Nat.sub_diag. cbn.
  rewrite (insert_app_r_alt pre) by lia. rewrite Hl.
  replace (S k - k)%nat with 1%nat by lia. cbn.
  rewrite (insert_app_r_alt pre) by lia. rewrite Hl, Nat.sub_diag. cbn.
  by rewrite Hpre.
Qed.

Lemma wrap_type_mismatch id ty args pred g v m n :
  node_at g (get_node_shared_ptr v) = Some n → type_info n ≠ ty →
  match_value (wrap_type id ty args pred) g v m = None.
Proof. intros Hn Hty. cbn. rewrite Hn. by rewrite decide_False. Qed.

Lemma wrap_type_dead id ty args pred g v m :
  node_at g (get_node_shared_ptr v) = None →
  match_value (wrap_type id ty args pred) g v m = None.
Proof. intros Hn. cbn. by rewrite Hn. Qed.

Lemma mul_m_on_other g v m n :
  node_at g (get_node_shared_ptr v) = Some n → type_info n ≠ Multiply →
  match_value mul_m g v m = None.
Proof.
  intros Hn Hty. cbn [mul_m Or match_value first_match].
  unfold mul_with_sub_m, mul_no_sub_m.
  by rewrite !(wrap_type_mismatch _ _ _ _ _ _ _ _ Hn Hty).
Qed.

Lemma weights_input_m_on_constant g v m n :
  node_at g (get_node_shared_ptr v) = Some n → type_info n = Constant →
  match_value weights_input_m g v m = None ∧ match_value transpose_input g v m = None.
Proof.
  intros Hn Hty.
  assert (type_info n ≠ Reshape) by (by rewrite Hty).
  assert (type_info n ≠ Transpose) by (by rewrite Hty).
  assert (type_info n ≠ Multiply) by (by rewrite Hty).
  cbn [weights_input_m transpose_input Or match_value first_match].
  unfold reshape_m, transpose_m.
  rewrite !(wrap_type_mismatch _ Reshape _ _ _ _ _ _ Hn) by done.
  rewrite !(wrap_type_mismatch _ Transpose _ _ _ _ _ _ Hn) by done.
  by rewrite !(mul_m_on_other _ _ _ _ Hn).
Qed.

Lemma weights_input_m_on_transposed_constant g x c tc m nc :
  transposed_by g x c tc → node_at g c = Some nc → type_info nc = Constant →
  match_value weights_input_m g (output0 x) m = None.
Proof.
  intros (n & Hn & Hop & Hin) Hnc Htc.
  assert (type_info n = Transpose) as Hty by (unfold type_info; by rewrite Hop).
  assert (type_info n ≠ Reshape) by (by rewrite Hty).
  assert (type_info n ≠ Multiply) by (by rewrite Hty).
  cbn [weights_input_m Or match_value first_match].
  unfold reshape_m.
  rewrite (wrap_type_mismatch _ Reshape _ _ _ (output0 x) _ _ Hn) by done.
  rewrite (mul_m_on_other _ (output0 x) _ _ Hn) by done.
  unfold transpose_m. cbn [wrap_type match_value]. cbn [output0 get_node_shared_ptr].
  rewrite Hn, decide_True by done. cbn [no_predicate]. rewrite Hin.
  cbn [match_arguments].
  by rewrite (proj2 (weights_input_m_on_constant g (output0 c) _ nc Hnc Htc)).
Qed.

Lemma reshape_const_to_2d_bad ht gr g p n et s d :
  node_at g p = Some n → op n = a_Constant et s d → rank_2_or_3 g p = false →
  reshape_const_to_2d ht gr p g = Raise (assertion_failed "current_shape.size() == 3").
Proof.
  intros Hn Hop. unfold rank_2_or_3. rewrite (shape_of_Constant _ _ _ _ _ _ Hn Hop).
  intros [H2 H3]%orb_false_iff. apply bool_decide_eq_false in H2, H3.
  unfold reshape_const_to_2d.
  mstep ltac:(unfold dynamic_pointer_cast, ask; rewrite Hn; unfold type_info;
              rewrite Hop; reflexivity).
  mstep ltac:(unfold Constant_get_shape, ask, bind; rewrite Hn; cbn; rewrite Hop;
              reflexivity).
  rewrite decide_False by done. rewrite bool_decide_eq_false_2 by done.
  reflexivity.
Qed.

Lemma reshape_const_to_2d_not_constant ht gr g p n :
  node_at g p = Some n → type_info n ≠ Constant →
  reshape_const_to_2d ht gr p g = Raise (assertion_failed "constant != nullptr").
Proof.
  intros Hn Hty. unfold reshape_const_to_2d.
  rewrite (bind_Ok _ _ _ _ _ (dynamic_pointer_cast_run _ _ _)).
  by rewrite Hn, decide_False.
Qed.

Section Raising.
Variable transformation_callback : Graph → nat → bool.
Variable validate_and_infer_types : Graph → operator → list Output → list Tensor.

Abbreviation this_callback := (callback transformation_callback validate_and_infer_types).
Abbreviation this_run_on_node := (run_on_node transformation_callback validate_and_infer_types).
Abbreviation this_build_fused_node := (build_fused_node validate_and_infer_types).

Lemma build_fused_node_raises g root m ht gr :
  match_facts g root m → canonicalizable g m = false →
  this_build_fused_node m root ht gr g = Raise (assertion_failed "current_shape.size() == 3").
Proof.
  intros [Hroot (old & data_v & b_v & Hold & Hty & Hin & Hdata)
          (w & Hw & Hwt & _) _ (s & Hs & Hst & _) Hzp _ _] Hcan.
  unfold canonicalizable in Hcan. rewrite Hs, Hw in Hcan.
  apply has_type_Constant in Hwt as (nw & etw & sw & dw & Hnw & Hopw).
  apply has_type_Constant in Hst as (ns & ets & ss & ds & Hns & Hops).
  unfold build_fused_node.
  mstep ltac:(unfold get_input_node_shared_ptr, ask, bind; rewrite Hold; cbn;
              rewrite Hin; reflexivity).
  mstep ltac:(by apply at_run).
  destruct (rank_2_or_3 g (get_node_shared_ptr s)) eqn:Hrs; last first.
  { apply bind_Raise. by eapply reshape_const_to_2d_bad. }
  destruct (reshape_const_to_2d_canonical ht gr g _ _ _ _ _ Hns Hops
              (rank_2_or_3_Constant _ _ _ _ _ _ Hns Hops Hrs))
    as (cs & g1 & Hr1 & Hg1 & _).
  mstep ltac:(exact Hr1). cbn [andb] in Hcan.
  destruct (count (get_pattern_value_map m) subtract_m).
  - destruct Hzp as (z & Hz & Hzt & _). rewrite Hz in Hcan.
    apply has_type_Constant in Hzt as (nz & etz & sz & dz & Hnz & Hopz).
    pose proof (grows_node_at _ _ _ _ Hg1 Hnz) as Hnz1.
    destruct (rank_2_or_3 g (get_node_shared_ptr z)) eqn:Hrz.
    + rewrite andb_true_r in Hcan.
      destruct (reshape_const_to_2d_canonical ht gr g1 _ _ _ _ _ Hnz1 Hopz
                  (rank_2_or_3_Constant _ _ _ _ _ _ Hnz Hopz Hrz))
        as (cz & g2 & Hr2 & Hg2 & _).
      mstep ltac:(mstep ltac:(by apply at_run); mstep ltac:(exact Hr2); reflexivity).
      mstep ltac:(by apply at_run).
      apply bind_Raise. eapply reshape_const_to_2d_bad; [|exact Hopw|].
      * eapply grows_node_at; [|exact Hnw]. eauto using grows_trans.
      * rewrite (rank_2_or_3_grows g) by
          (eauto using grows_trans, node_at_lt). done.
    + apply bind_Raise. mstep ltac:(by apply at_run).
      apply bind_Raise. eapply reshape_const_to_2d_bad; [exact Hnz1|exact Hopz|].
      rewrite (rank_2_or_3_grows g) by (eauto using node_at_lt). done.
  - rewrite andb_true_r in Hcan.
    mstep ltac:(reflexivity). mstep ltac:(by apply at_run).
    apply bind_Raise. eapply reshape_const_to_2d_bad; [|exact Hopw|].
    + eapply grows_node_at; [|exact Hnw]. done.
    + rewrite (rank_2_or_3_grows g) by (eauto using node_at_lt). done.
Qed.

Lemma callback_raises g root m :
  well_formed g = true → match_facts g root m →
  transformation_callback g root = false → canonicalizable g m = false →
  this_callback m g = Raise (assertion_failed "current_shape.size() == 3").
Proof.
  intros Hwf Hmf Hveto Hcan.
  pose proof Hmf as [_ _ _ _ (s0 & Hs0 & Hst0 & Hsc0) _ _ _].
  destruct (scale_value_shape _ _ Hwf Hst0 Hsc0)
    as (ns & ets & ss & ds & Hns & Hops & Hshape & Hshape0).
  rewrite (callback_prefix _ _ _ _ _ _ _ Hmf Hveto Hs0 Hshape).
  apply bind_Raise. by apply build_fused_node_raises.
Qed.
End Raising.


(** C1 (amended).  For every constant handed to the canonicalizer: a constant
    of rank 2 is returned as it is, the same node in an unchanged graph; a
    constant of rank 3 with shape [d0, d1, d2] yields a constant of the same
    element type over the same buffer whose shape is
    [(d0*d1) mod 2^64, d2] when has_transpose is true or grouped is false, and
    [d0, (d1*d2) mod 2^64] when grouped is true and has_transpose is false.
    The products are those of [size_t]; they are [d0*d1] and [d1*d2] whenever
    these are below 2^64. *)
Theorem canonical_shape_of_constant ht gr g p n et s d :
  node_at g p = Some n → op n = a_Constant et s d →
  (length s = 2%nat → reshape_const_to_2d ht gr p g = Ok (p, g)) ∧
  (∀ d0 d1 d2, s = [d0; d1; d2] →
     ∃ c g' n',
       reshape_const_to_2d ht gr p g = Ok (c, g') ∧ node_at g' c = Some n' ∧
       op n' = a_Constant et
                 (if ht || negb gr then [(d0 * d1) mod 2 ^ 64; d2]
                  else [d0; (d1 * d2) mod 2 ^ 64]) d ∧
       (d0 * d1 < 2 ^ 64 → ht || negb gr = true → shape_of g' c = Some [d0 * d1; d2]) ∧
       (d1 * d2 < 2 ^ 64 → ht || negb gr = false → shape_of g' c = Some [d0; d1 * d2])).
Proof.
  intros Hn Hop. split.
  - intros Hlen. by eapply reshape_const_to_2d_rank2.
  - intros d0 d1 d2 ->.
    eexists _, _, _. split; [by eapply reshape_const_to_2d_rank3|].
    split; [apply node_at_snoc|]. split; [reflexivity|].
    split; intros Hlt Hb.
    + erewrite shape_of_Constant; [|apply node_at_snoc|reflexivity].
      cbn. rewrite Hb, size_mul_spec. by rewrite N.mod_small.
    + erewrite shape_of_Constant; [|apply node_at_snoc|reflexivity].
      cbn. rewrite Hb, size_mul_spec. by rewrite N.mod_small.
Qed.

Lemma canonical_shape_of_constant_witness :
  ∃ c g', reshape_const_to_2d false true 1 scenario_graph = Ok (c, g') ∧
          shape_of g' c = Some [2; 32].
Proof.
  destruct (canonical_shape_of_constant false true scenario_graph 1 _ u8 [2; 4; 8]
              (host_buffer 1) eq_refl eq_refl) as [_ H].
  destruct (H 2 4 8 eq_refl) as (c & g' & n' & Hrun & _ & _ & _ & Hs).
  exists c, g'. split; [exact Hrun|]. apply Hs; reflexivity.
Defined.

Lemma canonical_shape_product_wraps :
  shape_of empty_weights_graph 0 = Some [2 ^ 32; 2 ^ 32; 0] ∧
  ∃ g', reshape_const_to_2d true false 0 empty_weights_graph = Ok (1%nat, g') ∧
        shape_of g' 1 = Some [0; 0] ∧
        shape_of g' 1 ≠ Some [2 ^ 32 * 2 ^ 32; 0].
Proof.
  split; [reflexivity|].
  exists (result_graph (reshape_const_to_2d true false 0 empty_weights_graph)).
  vm_compute. split_and!; [reflexivity..|discriminate].
Qed.

Section Properties.
Variable transformation_callback : Graph → nat → bool.
Variable validate_and_infer_types : Graph → operator → list Output → list Tensor.

Abbreviation this_callback := (callback transformation_callback validate_and_infer_types).
Abbreviation this_run_on_node := (run_on_node transformation_callback validate_and_infer_types).
Abbreviation this_build_fused_node := (build_fused_node validate_and_infer_types).

(** C2.  For every match that reaches the descriptor computation, the flag
    [grouped] handed to the rest of the callback is true if and only if more
    than one dimension of the scale constant's shape is greater than 1. *)
Theorem grouped_iff_scale_dims g root m :
  well_formed g = true →
  Matcher_match fully_connected_m g root = Some m →
  transformation_callback g root = false →
  ∃ scale scale_shape grouped,
    get_pattern_value_map m !! pattern_id mul_const_m = Some scale ∧
    shape_of g (get_node_shared_ptr scale) = Some scale_shape ∧
    this_callback m g =
      (let* new_fc := this_build_fused_node m root
                        (count (get_pattern_value_map m) transpose_m) grouped in
       substitute m root new_fc) g ∧
    (grouped = true ↔ (1 < length (filter (λ d : N, (1 < d)%N) scale_shape))%nat).
Proof.
  intros Hwf Hm%match_facts_of_match Hveto.
  pose proof Hm as [_ _ _ _ (s & Hs & Hst & Hsc) _ _ _].
  destruct (scale_value_shape _ _ Hwf Hst Hsc) as (ns & et & ss & d & _ & _ & Hv & Hn).
  exists s, ss, (is_grouped ss). split_and!; try done.
  - by eapply callback_prefix.
  - apply is_grouped_spec.
Qed.

(** C3 (amended).  For every well-formed graph containing the full matched
    pattern, when the veto predicate allows the root and the scale, weight
    and (if matched) zero-point constants have rank 2 or 3, the pass retires
    the fully-connected node and rewires its consumers to exactly one new
    fused node: no other node built by the rewrite is a fused node, and the
    nodes of the old graph are kept up to that rewiring.  The first operand of
    the fused node is the unchanged data input when that input is output 0 of
    its producer; its friendly name and its output type are those of the
    fully-connected node; the provenance metadata of every matched node is
    merged onto it; it has a fourth, zero-point operand exactly when the
    subtract branch was matched. *)
Theorem matched_root_is_replaced g root m :
  well_formed g = true →
  Matcher_match fully_connected_m g root = Some m →
  transformation_callback g root = false →
  canonicalizable g m = true →
  ∃ g' new_fc old fused,
    this_run_on_node root g = Ok (true, g') ∧
    node_at g root = Some old ∧ node_at g' root = None ∧
    (length g ≤ new_fc)%nat ∧ node_at g' new_fc = Some fused ∧
    type_info fused = FullyConnectedCompressed ∧
    (∀ p n, (length g ≤ p)%nat → p ≠ new_fc → node_at g' p = Some n →
            type_info n ≠ FullyConnectedCompressed) ∧
    (∀ p, (p < length g)%nat → p ≠ root →
          node_at g' p = rewire root new_fc <$> node_at g p) ∧
    (∃ data_v, inputs old !! 0%nat = Some data_v ∧
               (get_index data_v = 0%nat → inputs fused !! 0%nat = Some data_v)) ∧
    friendly_name fused = friendly_name old ∧
    (∃ t, op old = a_FullyConnected t ∧ op fused = a_FullyConnectedCompressed t) ∧
    (∀ id v, get_pattern_value_map m !! id = Some v →
             get_node_shared_ptr v ∈ get_matched_nodes m) ∧
    (∀ p n, p ∈ get_matched_nodes m → node_at g p = Some n →
            rt_info n ⊆ rt_info fused) ∧
    length (inputs fused) =
      (if count (get_pattern_value_map m) subtract_m then 4 else 3)%nat.
Proof.
  intros Hwf Hm Hveto Hcan.
  pose proof (match_facts_of_match _ _ _ Hm) as Hmf.
  destruct (callback_fuses transformation_callback validate_and_infer_types
              _ _ _ Hwf Hmf Hveto Hcan) as (g' & f & Hrun & Hf).
  destruct Hf as [Hold Hret Hnew Hfused Hframe Haux (t & Hto & Htn) Hname Hrt
                  (data_v & Hd & Hin) _ _ _ Hzp _].
  exists g', (new_fc f), (fc_old f), (fc_new f).
  split_and!; try done.
  - by rewrite (run_on_node_match _ _ _ _ _ Hm).
  - unfold type_info. by rewrite Htn.
  - intros p n Hp Hpn Hn. destruct (Haux p n Hp Hpn Hn) as [E|E]; by rewrite E.
  - exists data_v. split; [done|].
    intros Hi. rewrite Hin. cbn. f_equal. by destruct data_v; cbn in *; subst.
  - by exists t.
  - by destruct Hmf.
  - rewrite Hin. destruct (count (get_pattern_value_map m) subtract_m).
    + by destruct Hzp as (? & ? & ? & _ & -> & _).
    + by rewrite Hzp.
Qed.

(** C5.  When the veto predicate disallows the matched fully-connected root,
    the callback returns false and the graph is the one it was given. *)
Theorem veto_leaves_graph_unchanged g root m :
  Matcher_match fully_connected_m g root = Some m →
  transformation_callback g root = true →
  this_callback m g = Ok (false, g) ∧ this_run_on_node root g = Ok (false, g).
Proof.
  intros Hm Hveto. pose proof (match_facts_of_match _ _ _ Hm) as Hmf.
  rewrite (run_on_node_match _ _ _ _ _ Hm).
  rewrite (callback_veto_or_rewrite _ _ _ _ _ Hmf), Hveto. done.
Qed.

(** C7.  A missing binding for the fully-connected root, the scale constant,
    the weight constant or the convert node makes the callback raise an
    assertion failure; the canonicalizer raises an assertion failure on an
    input whose rank is neither 2 nor 3; and so does the rewrite attempt at a
    matched, allowed root one of whose canonicalized constants (scale, weight,
    or zero point when the subtract branch is matched) has such a rank. *)
Theorem contract_violations_raise :
  (∀ m g,
     count (get_pattern_value_map m) fully_connected_m &&
     count (get_pattern_value_map m) mul_const_m &&
     count (get_pattern_value_map m) weights_m &&
     count (get_pattern_value_map m) convert_m = false →
     ∃ text, this_callback m g = Raise (assertion_failed text)) ∧
  (∀ ht gr g p s,
     shape_of g p = Some s → length s ≠ 2%nat → length s ≠ 3%nat →
     ∃ text, reshape_const_to_2d ht gr p g = Raise (assertion_failed text)) ∧
  (∀ g root m v s,
     well_formed g = true →
     Matcher_match fully_connected_m g root = Some m →
     transformation_callback g root = false →
     (get_pattern_value_map m !! pattern_id mul_const_m = Some v ∨
      get_pattern_value_map m !! pattern_id weights_m = Some v ∨
      (count (get_pattern_value_map m) subtract_m = true ∧
       get_pattern_value_map m !! pattern_id sub_const_m = Some v)) →
     shape_of g (get_node_shared_ptr v) = Some s →
     length s ≠ 2%nat → length s ≠ 3%nat →
     this_run_on_node root g = Raise (assertion_failed "current_shape.size() == 3")).
Proof.
  split_and!.
  - intros m g H. unfold callback.
    destruct (count _ fully_connected_m); [|eexists; reflexivity].
    destruct (count _ mul_const_m); [|eexists; reflexivity].
    destruct (count _ weights_m); [|eexists; reflexivity].
    destruct (count _ convert_m); [done|eexists; reflexivity].
  - intros ht gr g p s Hs H2 H3.
    destruct (node_at g p) as [n|] eqn:Hn; last first.
    { unfold shape_of, get_partial_shape, output_tensor in Hs. cbn in Hs.
      by rewrite Hn in Hs. }
    destruct (decide (type_info n = Constant)) as [Hty|Hty].
    + apply type_info_Constant in Hty as (et & s' & d & Hop).
      rewrite (shape_of_Constant _ _ _ _ _ _ Hn Hop) in Hs. injection Hs as ->.
      eexists. eapply reshape_const_to_2d_bad; [done..|].
      unfold rank_2_or_3. rewrite (shape_of_Constant _ _ _ _ _ _ Hn Hop).
      by rewrite !bool_decide_eq_false_2.
    + eexists. by eapply reshape_const_to_2d_not_constant.
  - intros g root m v s Hwf Hm Hveto Hv Hs H2 H3.
    pose proof (match_facts_of_match _ _ _ Hm) as Hmf.
    rewrite (run_on_node_match _ _ _ _ _ Hm).
    apply (callback_raises _ _ g root m); try done.
    assert (rank_2_or_3 g (get_node_shared_ptr v) = false) as Hbad.
    { unfold rank_2_or_3. rewrite Hs. by rewrite !bool_decide_eq_false_2. }
    unfold canonicalizable.
    destruct (get_pattern_value_map m !! pattern_id mul_const_m) as [sv|] eqn:E1; [|done].
    destruct (get_pattern_value_map m !! pattern_id weights_m) as [wv|] eqn:E2; [|done].
    destruct Hv as [[= ->]|[[= ->]|[Hc Hz]]].
    + by rewrite Hbad.
    + rewrite Hbad. by rewrite andb_false_r.
    + rewrite Hc, Hz, Hbad. by rewrite andb_false_r.
Qed.

(** C8.  After a rewrite at [root], the pattern matches neither at the retired
    root nor at any node the rewrite created: the second input of the fused
    node is a constant or a transpose of a constant, which the weights branch
    of the pattern rejects, and the pass at the fused node changes nothing. *)
Theorem rewritten_location_does_not_match_again g root g' :
  well_formed g = true →
  this_run_on_node root g = Ok (true, g') →
  Matcher_match fully_connected_m g' root = None ∧
  (∀ p, (length g ≤ p)%nat → Matcher_match fully_connected_m g' p = None) ∧
  ∃ new_fc fused b,
    (length g ≤ new_fc)%nat ∧ node_at g' new_fc = Some fused ∧
    type_info fused = FullyConnectedCompressed ∧
    inputs fused !! 1%nat = Some b ∧
    (∀ m0, match_value weights_input_m g' b m0 = None) ∧
    this_run_on_node new_fc g' = Ok (false, g').
Proof.
  intros Hwf Hrun.
  destruct (run_on_node_true _ _ _ _ _ Hwf Hrun) as (m & f & Hm & _ & _ & Hf).
  destruct Hf as [_ Hret Hnew Hfused _ Haux (t & _ & Htn) _ _ (data_v & _ & Hin) _
                  (w & _ & Hcw & Hb) _ _ _].
  assert (Hty : type_info (fc_new f) = FullyConnectedCompressed)
    by (unfold type_info; by rewrite Htn).
  assert (Hnew_none : ∀ p, (length g ≤ p)%nat →
                           Matcher_match fully_connected_m g' p = None).
  { intros p Hp. unfold Matcher_match, fully_connected_m.
    destruct (node_at g' p) as [n|] eqn:Hn; [|by apply wrap_type_dead].
    eapply wrap_type_mismatch; [exact Hn|].
    destruct (decide (p = new_fc f)) as [->|Hne].
    - rewrite Hfused in Hn. injection Hn as <-. by rewrite Hty.
    - destruct (Haux p n Hp Hne Hn) as [E|E]; by rewrite E. }
  split_and!.
  - unfold Matcher_match, fully_connected_m. by apply wrap_type_dead.
  - done.
  - exists (new_fc f), (fc_new f), (output0 (weight_operand f)).
    split_and!; try done.
    + by rewrite Hin.
    + intros m0.
      destruct Hcw as (nw & nw' & etw & sw & dw & _ & _ & Hnw' & Hopw' & _).
      assert (type_info nw' = Constant) by (unfold type_info; by rewrite Hopw').
      unfold operand_of in Hb. destruct (has_transpose f).
      * destruct Hb as (tc & _ & Hb & _).
        by eapply weights_input_m_on_transposed_constant.
      * rewrite Hb.
        by apply (proj1 (weights_input_m_on_constant g' (output0 _) m0 nw' Hnw' H)).
    + rewrite run_on_node_eq. by rewrite Hnew_none.
Qed.

(** C9 (amended).  For a matched pattern whose weight and scale constants
    both have shape [2,4,8] (so that grouped, counted on the scale shape, is
    true): with no transpose the weight and scale operands are constants of
    shape [2,32]; with a transpose they are transposes of constants of shape
    [8,8]. *)
Theorem scenario_2_4_8 g root m g' w s :
  well_formed g = true →
  Matcher_match fully_connected_m g root = Some m →
  this_run_on_node root g = Ok (true, g') →
  get_pattern_value_map m !! pattern_id weights_m = Some w →
  get_pattern_value_map m !! pattern_id mul_const_m = Some s →
  shape_of g (get_node_shared_ptr w) = Some [2; 4; 8] →
  shape_of g (get_node_shared_ptr s) = Some [2; 4; 8] →
  ∃ new_fc fused b sc cw cs,
    node_at g' new_fc = Some fused ∧
    inputs fused !! 1%nat = Some (output0 b) ∧
    inputs fused !! 2%nat = Some (output0 sc) ∧
    (count (get_pattern_value_map m) transpose_m = false →
     b = cw ∧ sc = cs ∧
     shape_of g' cw = Some [2; 32] ∧ shape_of g' cs = Some [2; 32]) ∧
    (count (get_pattern_value_map m) transpose_m = true →
     (∃ tc, transposed_by g' b cw tc ∧ transposed_by g' sc cs tc) ∧
     shape_of g' cw = Some [8; 8] ∧ shape_of g' cs = Some [8; 8]).
Proof.
  intros Hwf Hm Hrun Hw Hs Hsw Hss.
  destruct (run_on_node_true _ _ _ _ _ Hwf Hrun) as (m' & f & Hm' & _ & _ & Hf).
  assert (m' = m) as -> by congruence.
  destruct Hf as [_ _ _ Hfused _ _ _ _ _ (data_v & _ & Hin)
                  [Hfl (s' & ss & Hs' & _ & Hss' & Hgr)]
                  (w' & Hw' & Hcw & Hb) (s'' & Hs'' & Hcs & Hsc) _ _].
  assert (w' = w) as -> by congruence. assert (s' = s) as -> by congruence.
  assert (s'' = s) as -> by congruence.
  assert (ss = [2; 4; 8]) as -> by congruence.
  assert (grouped f = true) as Hg by (rewrite Hgr; reflexivity).
  destruct Hcw as (nw & nw' & etw & sw & dw & Hnw & Hopw & Hnw' & Hopw' & _).
  destruct Hcs as (ns & ns' & ets & ss & ds & Hns & Hops & Hns' & Hops' & _).
  rewrite (shape_of_Constant _ _ _ _ _ _ Hnw Hopw) in Hsw. injection Hsw as ->.
  rewrite (shape_of_Constant _ _ _ _ _ _ Hns Hops) in Hss. injection Hss as ->.
  rewrite Hg in *.
  exists (new_fc f), (fc_new f), (weight_operand f), (scale_operand f),
         (canonical_weight f), (canonical_scale f).
  split_and!; try done.
  - by rewrite Hin.
  - by rewrite Hin.
  - intros Hnt. rewrite Hfl, Hnt in *. unfold operand_of in *.
    split_and!; try done.
    + by rewrite (shape_of_Constant _ _ _ _ _ _ Hnw' Hopw').
    + by rewrite (shape_of_Constant _ _ _ _ _ _ Hns' Hops').
  - intros Hnt. rewrite Hfl, Hnt in *. unfold operand_of in *.
    destruct Hb as (tc & Ho & Hb & _). destruct Hsc as (tc' & Ho' & Hsc & _).
    assert (tc' = tc) as -> by congruence.
    split_and!.
    + by exists tc.
    + by rewrite (shape_of_Constant _ _ _ _ _ _ Hnw' Hopw').
    + by rewrite (shape_of_Constant _ _ _ _ _ _ Hns' Hops').
Qed.

(** C10.  If the value bound to the root is not a [FullyConnected] node, the
    callback, once the four required bindings are present, returns false and
    leaves the graph unchanged. *)
Theorem uncastable_root_is_skipped m g root_v :
  count (get_pattern_value_map m) fully_connected_m = true →
  count (get_pattern_value_map m) mul_const_m = true →
  count (get_pattern_value_map m) weights_m = true →
  count (get_pattern_value_map m) convert_m = true →
  get_pattern_value_map m !! pattern_id fully_connected_m = Some root_v →
  (∀ n, node_at g (get_node_shared_ptr root_v) = Some n →
        type_info n ≠ FullyConnected) →
  this_callback m g = Ok (false, g).
Proof.
  intros H1 H2 H3 H4 Hroot Hcast. unfold callback.
  rewrite H1, H2, H3, H4. cbn [OPENVINO_ASSERT].
  mstep ltac:(reflexivity). mstep ltac:(reflexivity).
  mstep ltac:(reflexivity). mstep ltac:(reflexivity).
  mstep ltac:(by apply at_run).
  rewrite (bind_Ok _ _ _ _ _ (dynamic_pointer_cast_run _ _ _)).
  destruct (node_at g (get_node_shared_ptr root_v)) as [n|]; [|done].
  by rewrite decide_False by by apply Hcast.
Qed.
End Properties.

(** C6.  In every match the weight constant is a constant of element type
    [u8] or [i8] with exactly one consumer, and the scale constant and the
    zero-point constant (when bound) are constants with exactly one consumer;
    so a weight, scale or zero-point constant with two or more consumers is
    never matched. *)
Theorem constants_matched_with_single_consumer g root m :
  Matcher_match fully_connected_m g root = Some m →
  (∀ w, get_pattern_value_map m !! pattern_id weights_m = Some w →
        has_type g w Constant ∧
        (get_element_type g w = Some u8 ∨ get_element_type g w = Some i8) ∧
        length (get_target_inputs g w) = 1%nat) ∧
  (∀ s, get_pattern_value_map m !! pattern_id mul_const_m = Some s →
        has_type g s Constant ∧ length (get_target_inputs g s) = 1%nat) ∧
  (∀ z, get_pattern_value_map m !! pattern_id sub_const_m = Some z →
        has_type g z Constant ∧ length (get_target_inputs g z) = 1%nat).
Proof.
  intros [_ _ (w & Hw & Hwt & Hwc) _ (s & Hs & Hst & Hsc) Hzp _ _]%match_facts_of_match.
  split_and!.
  - intros w' Hw'. assert (w' = w) as -> by congruence.
    unfold compressed_constant in Hwc.
    apply andb_true_iff in Hwc as [Het Hc]. apply bool_decide_eq_true in Hc.
    split_and!; try done.
    apply orb_true_iff in Het as [H|H]; apply bool_decide_eq_true in H; auto.
  - intros s' Hs'. assert (s' = s) as -> by congruence.
    split; [done|]. by apply bool_decide_eq_true in Hsc.
  - intros z Hz. destruct (count (get_pattern_value_map m) subtract_m).
    + destruct Hzp as (z' & Hz' & Hzt & Hzc). assert (z' = z) as -> by congruence.
      split; [done|]. by apply bool_decide_eq_true in Hzc.
    + congruence.
Qed.

Lemma grouped_iff_scale_dims_witness :
  ∃ scale_shape grouped,
    shape_of grouped_graph 5 = Some scale_shape ∧
    (grouped = true ↔ (1 < length (filter (λ d : N, (1 < d)%N) scale_shape))%nat).
Proof.
  destruct (grouped_iff_scale_dims allow_all unknown_output grouped_graph 7
              (match_at grouped_graph 7))
    as (scale & ss & gr & Hs & Hss & _ & Hiff);
    [vm_compute; reflexivity..|].
  vm_compute in Hs. injection Hs as <-. eauto.
Defined.

Lemma matched_root_is_replaced_witness :
  ∃ g' new_fc fused,
    run_on_node allow_all unknown_output 7 grouped_graph = Ok (true, g') ∧
    node_at g' new_fc = Some fused ∧ type_info fused = FullyConnectedCompressed ∧
    node_at g' 7 = None.
Proof.
  destruct (matched_root_is_replaced allow_all unknown_output grouped_graph 7
              (match_at grouped_graph 7))
    as (g' & new_fc & old & fused & Hrun & _ & Hret & _ & Hf & Hty & _);
    [vm_compute; reflexivity..|].
  exists g', new_fc, fused. split_and!; assumption.
Defined.

Lemma full_pattern_not_always_replaced :
  (is_Some (Matcher_match fully_connected_m grouped_graph 7) ∧
   run_on_node veto_all unknown_output 7 grouped_graph = Ok (false, grouped_graph)) ∧
  (is_Some (Matcher_match fully_connected_m scalar_scale_graph 5) ∧
   run_on_node allow_all unknown_output 5 scalar_scale_graph =
     Raise (assertion_failed "current_shape.size() == 3")) ∧
  (inputs <$> node_at split_data_graph 5 = Some [mk_Output 0 1; output0 4] ∧
   run_on_node allow_all unknown_output 5 split_data_graph =
     Ok (true, rewritten split_data_graph 5) ∧
   inputs <$> node_at (rewritten split_data_graph 5) 7 =
     Some [mk_Output 0 0; output0 1; output0 3]).
Proof.
  split_and!; try (vm_compute; reflexivity); eexists; vm_compute; reflexivity.
Qed.

Lemma data_port_is_dropped :
  ∃ fused,
    inputs <$> node_at split_data_graph 5 = Some [mk_Output 0 1; output0 4] ∧
    run_on_node allow_all unknown_output 5 split_data_graph =
      Ok (true, rewritten split_data_graph 5) ∧
    node_at (rewritten split_data_graph 5) 7 = Some fused ∧
    type_info fused = FullyConnectedCompressed ∧
    inputs fused !! 0%nat = Some (mk_Output 0 0).
Proof. eexists. vm_compute. split_and!; reflexivity. Qed.

Lemma veto_leaves_graph_unchanged_witness :
  run_on_node veto_all unknown_output 7 grouped_graph = Ok (false, grouped_graph).
Proof.
  apply (veto_leaves_graph_unchanged veto_all unknown_output grouped_graph 7
           (match_at grouped_graph 7)); vm_compute; reflexivity.
Defined.

Lemma constants_matched_with_single_consumer_witness :
  length (get_target_inputs grouped_graph (output0 1)) = 1%nat ∧
  length (get_target_inputs grouped_graph (output0 5)) = 1%nat.
Proof.
  destruct (constants_matched_with_single_consumer grouped_graph 7
              (match_at grouped_graph 7)) as (Hw & Hs & _);
    [vm_compute; reflexivity|].
  split.
  - apply Hw. vm_compute; reflexivity.
  - apply Hs. vm_compute; reflexivity.
Defined.

Lemma shared_weights_not_matched :
  length (get_target_inputs shared_weights_graph (output0 1)) = 2%nat ∧
  Matcher_match fully_connected_m shared_weights_graph 5 = None.
Proof. vm_compute. split; reflexivity. Qed.

Lemma contract_violations_raise_witness :
  (∃ text, callback allow_all unknown_output empty_Matcher grouped_graph =
           Raise (assertion_failed text)) ∧
  run_on_node allow_all unknown_output 5 scalar_scale_graph =
    Raise (assertion_failed "current_shape.size() == 3").
Proof.
  destruct (contract_violations_raise allow_all unknown_output) as (H1 & _ & H3).
  split.
  - apply H1. vm_compute; reflexivity.
  - apply (H3 scalar_scale_graph 5%nat (match_at scalar_scale_graph 5) (output0 3) []).
    + vm_compute; reflexivity.
    + vm_compute; reflexivity.
    + vm_compute; reflexivity.
    + left. vm_compute; reflexivity.
    + vm_compute; reflexivity.
    + cbn. lia.
    + cbn. lia.
Defined.

Lemma rewritten_location_does_not_match_again_witness :
  Matcher_match fully_connected_m (rewritten grouped_graph 7) 7 = None ∧
  Matcher_match fully_connected_m (rewritten grouped_graph 7) 12 = None.
Proof.
  destruct (rewritten_location_does_not_match_again allow_all unknown_output
              grouped_graph 7 (rewritten grouped_graph 7)) as (H1 & H2 & _);
    [vm_compute; reflexivity..|].
  split; [exact H1|]. apply H2. cbn. lia.
Defined.

Lemma scenario_2_4_8_witness :
  ∃ new_fc fused cw cs,
    node_at (rewritten scenario_graph 5) new_fc = Some fused ∧
    inputs fused !! 1%nat = Some (output0 cw) ∧
    inputs fused !! 2%nat = Some (output0 cs) ∧
    shape_of (rewritten scenario_graph 5) cw = Some [2; 32] ∧
    shape_of (rewritten scenario_graph 5) cs = Some [2; 32].
Proof.
  destruct (scenario_2_4_8 allow_all unknown_output scenario_graph 5
              (match_at scenario_graph 5) (rewritten scenario_graph 5)
              (output0 1) (output0 3))
    as (new_fc & fused & b & sc & cw & cs & Hf & Hb & Hsc & Hno & _);
    [vm_compute; reflexivity..|].
  destruct Hno as (-> & -> & Hw & Hs); [vm_compute; reflexivity|].
  exists new_fc, fused, cw, cs. split_and!; assumption.
Defined.

Lemma scenario_needs_scale_shape :
  (shape_of grouped_graph 1 = Some [2; 4; 8] ∧
   count (get_pattern_value_map (match_at grouped_graph 7)) transpose_m = false ∧
   run_on_node allow_all unknown_output 7 grouped_graph =
     Ok (true, rewritten grouped_graph 7) ∧
   (inputs <$> node_at (rewritten grouped_graph 7) 12) =
     Some [output0 0; output0 11; output0 9; output0 10] ∧
   shape_of (rewritten grouped_graph 7) 11 = Some [2; 32] ∧
   shape_of (rewritten grouped_graph 7) 9 = Some [2; 4]) ∧
  (shape_of per_channel_graph 1 = Some [2; 4; 8] ∧
   count (get_pattern_value_map (match_at per_channel_graph 5)) transpose_m = false ∧
   run_on_node allow_all unknown_output 5 per_channel_graph =
     Ok (true, rewritten per_channel_graph 5) ∧
   (inputs <$> node_at (rewritten per_channel_graph 5) 9) =
     Some [output0 0; output0 8; output0 7] ∧
   shape_of (rewritten per_channel_graph 5) 8 = Some [8; 8] ∧
   shape_of (rewritten per_channel_graph 5) 7 = Some [4; 1]).
Proof. vm_compute. split_and!; reflexivity. Qed.

Lemma uncastable_root_is_skipped_witness :
  callback allow_all unknown_output misbound_Matcher grouped_graph =
    Ok (false, grouped_graph).
Proof.
  apply (uncastable_root_is_skipped allow_all unknown_output misbound_Matcher
           grouped_graph (output0 0)); try (vm_compute; reflexivity).
  intros n Hn. vm_compute in Hn. injection Hn as <-. vm_compute. discriminate.
Defined.

(** ** The canonicalizer, the grouping flag and the replacement order *)

Lemma reshape_const_to_2d_dead ht gr g p :
  node_at g p = None →
  reshape_const_to_2d ht gr p g = Raise (assertion_failed "constant != nullptr").
Proof.
  intros Hn. unfold reshape_const_to_2d.
  rewrite (bind_Ok _ _ _ _ _ (dynamic_pointer_cast_run _ _ _)). by rewrite Hn.
Qed.

Lemma rank_2_or_3_false g p n et s d :
  node_at g p = Some n → op n = a_Constant et s d →
  length s ≠ 2%nat → length s ≠ 3%nat → rank_2_or_3 g p = false.
Proof.
  intros Hn Hop H2 H3. unfold rank_2_or_3.
  rewrite (shape_of_Constant _ _ _ _ _ _ Hn Hop).
  by rewrite !bool_decide_eq_false_2.
Qed.

Lemma canonical_shape_size ht gr s :
  shape_size (canonical_shape ht gr s) = shape_size s.
Proof.
  destruct s as [|d0 [|d1 [|d2 [|? ?]]]]; try done.
  unfold canonical_shape. destruct (size_mul_assoc3 d0 d1 d2) as [E1 E2].
  by destruct (ht || negb gr).
Qed.

Lemma reshape_const_to_2d_result ht gr g p c g' :
  reshape_const_to_2d ht gr p g = Ok (c, g') →
  ∃ n et s d,
    node_at g p = Some n ∧ op n = a_Constant et s d ∧
    ((length s = 2%nat ∧ c = p ∧ g' = g) ∨
     (length s = 3%nat ∧ c = length g ∧
      g' = g ++ [Some {| op := a_Constant et (canonical_shape ht gr s) d;
                         inputs := []; inferred_outputs := [];
                         friendly_name := ""; rt_info := [] |}])).
Proof.
  intros Hrun.
  destruct (reshape_const_to_2d_inv _ _ _ _ _ _ Hrun) as (n & et & s & d & Hn & Hop & Hlen).
  exists n, et, s, d. split_and!; try done.
  destruct Hlen as [Hlen|Hlen].
  - left. rewrite (reshape_const_to_2d_rank2 _ _ _ _ _ _ _ _ Hn Hop Hlen) in Hrun.
    by injection Hrun as <- <-.
  - right. destruct s as [|d0 [|d1 [|d2 [|? ?]]]]; try done.
    rewrite (reshape_const_to_2d_rank3 _ _ _ _ _ _ _ _ _ _ Hn Hop) in Hrun.
    by injection Hrun as <- <-.
Qed.

(** X1.  The canonicalizer has three outcomes and no other.  It returns
    exactly on a live constant of rank 2 or 3; it raises the assertion
    [constant != nullptr] exactly on a node that is not a live constant; it
    raises the assertion [current_shape.size() == 3] exactly on a constant of
    another rank.  The element-count check of the constant's constructor
    never fires, and no flag changes the outcome. *)
Theorem reshape_const_to_2d_outcome ht gr g p :
  ((∃ n et s d, node_at g p = Some n ∧ op n = a_Constant et s d ∧
                (length s = 2%nat ∨ length s = 3%nat)) ∧
   ∃ c g', reshape_const_to_2d ht gr p g = Ok (c, g')) ∨
  ((∀ n, node_at g p = Some n → type_info n ≠ Constant) ∧
   reshape_const_to_2d ht gr p g = Raise (assertion_failed "constant != nullptr")) ∨
  ((∃ n et s d, node_at g p = Some n ∧ op n = a_Constant et s d ∧
                length s ≠ 2%nat ∧ length s ≠ 3%nat) ∧
   reshape_const_to_2d ht gr p g =
     Raise (assertion_failed "current_shape.size() == 3")).
Proof.
  destruct (node_at g p) as [n|] eqn:Hn; last first.
  { right; left. split; [done|]. by apply reshape_const_to_2d_dead. }
  destruct (decide (type_info n = Constant)) as [Hty|Hty]; last first.
  { right; left. split.
    - by intros ? [= <-].
    - by eapply reshape_const_to_2d_not_constant. }
  apply type_info_Constant in Hty as (et & s & d & Hop).
  destruct (decide (length s = 2%nat ∨ length s = 3%nat)) as [Hlen|Hlen].
  - left. split; [by exists n, et, s, d|].
    destruct (reshape_const_to_2d_spec ht gr _ _ _ _ _ _ Hn Hop Hlen)
      as (c & g1 & _ & Hrun & _). eauto.
  - right; right.
    assert (length s ≠ 2%nat ∧ length s ≠ 3%nat) as [H2 H3] by (split; intros ?; auto).
    split; [by exists n, et, s, d|].
    eapply reshape_const_to_2d_bad; [done..|]. by eapply rank_2_or_3_false.
Qed.

(** X2.  Whatever the canonicalizer returns is a constant of rank exactly 2
    with the element type, the data buffer and the element count (the
    [size_t] product of the dimensions, wrap-around included) of the constant
    it was given. *)
Theorem reshape_const_to_2d_preserves ht gr g p c g' :
  reshape_const_to_2d ht gr p g = Ok (c, g') →
  ∃ n n' et s s' d,
    node_at g p = Some n ∧ op n = a_Constant et s d ∧
    node_at g' c = Some n' ∧ op n' = a_Constant et s' d ∧
    length s' = 2%nat ∧ shape_size s' = shape_size s ∧
    get_element_type g' (output0 c) = get_element_type g (output0 p).
Proof.
  intros Hrun.
  destruct (reshape_const_to_2d_result _ _ _ _ _ _ Hrun)
    as (n & et & s & d & Hn & Hop & [(Hlen & -> & ->)|(Hlen & -> & ->)]).
  - exists n, n, et, s, s, d. split_and!; done.
  - exists n. eexists. exists et, s. eexists. exists d.
    split; [exact Hn|]. split; [exact Hop|].
    split; [apply node_at_snoc|]. split; [reflexivity|]. split_and!.
    + apply canonical_shape_length. by right.
    + apply canonical_shape_size.
    + unfold get_element_type, output_tensor. cbn.
      rewrite node_at_snoc, Hn. cbn. unfold outputs. cbn. by rewrite Hop.
Qed.

Lemma reshape_const_to_2d_preserves_witness :
  ∃ s', shape_of (result_graph (reshape_const_to_2d false true 1 scenario_graph)) 7
          = Some s' ∧
        length s' = 2%nat ∧ shape_size s' = shape_size [2; 4; 8].
Proof.
  destruct (reshape_const_to_2d_preserves false true scenario_graph 1 7
              (result_graph (reshape_const_to_2d false true 1 scenario_graph)) eq_refl)
    as (n & n' & et & s & s' & d & Hn & Hop & Hn' & Hop' & Hlen & Hsize & _).
  injection Hn as <-. injection Hop as <- <- <-.
  exists s'. split_and!; [|done..].
  by eapply shape_of_Constant.
Defined.

(** X3.  The canonicalizer never touches a node that exists: for a constant
    of rank 2 the graph is the one it was given, and for a constant of rank 3
    the graph is extended by exactly one node, the new constant, which has no
    inputs and gets the next free address. *)
Theorem reshape_const_to_2d_frame ht gr g p c g' :
  reshape_const_to_2d ht gr p g = Ok (c, g') →
  (∀ q, (q < length g)%nat → g' !! q = g !! q) ∧
  (((∃ s, shape_of g p = Some s ∧ length s = 2%nat) ∧ c = p ∧ g' = g) ∨
   ((∃ s, shape_of g p = Some s ∧ length s = 3%nat) ∧ c = length g ∧
    ∃ n', g' = g ++ [Some n'] ∧ type_info n' = Constant ∧ inputs n' = [])).
Proof.
  intros Hrun.
  destruct (reshape_const_to_2d_result _ _ _ _ _ _ Hrun)
    as (n & et & s & d & Hn & Hop & [(Hlen & -> & ->)|(Hlen & -> & ->)]);
    pose proof (shape_of_Constant _ _ _ _ _ _ Hn Hop) as Hs.
  - split; [done|]. left. split_and!; try done. by exists s.
  - split; [intros q Hq; by rewrite lookup_app_l|].
    right. split_and!; try done; [by exists s|]. eexists. split_and!; done.
Qed.

Lemma reshape_const_to_2d_frame_witness :
  result_graph (reshape_const_to_2d false true 1 scenario_graph) !! 3%nat =
  scenario_graph !! 3%nat.
Proof.
  apply (reshape_const_to_2d_frame false true scenario_graph 1 7
           (result_graph (reshape_const_to_2d false true 1 scenario_graph)) eq_refl).
  cbn. lia.
Defined.

(** X4.  The canonicalizer is idempotent: applied to a constant it returned,
    under any flags, it returns that constant and leaves the graph as it
    is. *)
Theorem reshape_const_to_2d_idempotent ht gr ht' gr' g p c g' :
  reshape_const_to_2d ht gr p g = Ok (c, g') →
  reshape_const_to_2d ht' gr' c g' = Ok (c, g').
Proof.
  intros Hrun.
  destruct (reshape_const_to_2d_result _ _ _ _ _ _ Hrun)
    as (n & et & s & d & Hn & Hop & [(Hlen & -> & ->)|(Hlen & -> & ->)]).
  - by eapply reshape_const_to_2d_rank2.
  - eapply reshape_const_to_2d_rank2; [apply node_at_snoc|reflexivity|].
    apply canonical_shape_length. by right.
Qed.

Lemma reshape_const_to_2d_idempotent_witness :
  reshape_const_to_2d true false 7
    (result_graph (reshape_const_to_2d false true 1 scenario_graph)) =
  Ok (7%nat, result_graph (reshape_const_to_2d false true 1 scenario_graph)).
Proof.
  apply (reshape_const_to_2d_idempotent false true true false scenario_graph 1).
  reflexivity.
Defined.

Lemma filter_gt_1_Permutation (s s' : Shape) :
  s ≡ₚ s' → length (filter (λ d : N, (1 < d)%N) s) = length (filter (λ d : N, (1 < d)%N) s').
Proof. intros H. by rewrite H. Qed.

Lemma is_grouped_eq (s s' : Shape) :
  length (filter (λ d : N, (1 < d)%N) s) = length (filter (λ d : N, (1 < d)%N) s') →
  is_grouped s = is_grouped s'.
Proof.
  intros H. apply eq_true_iff_eq. by rewrite !is_grouped_spec, H.
Qed.

(** X5.  The flag [grouped] of line 76 depends only on how many dimensions
    of the scale shape exceed 1: it is the same for every reordering of the
    dimensions, it is not changed by dropping the dimensions that are 0 or 1,
    and it is false for every shape with at most one dimension. *)
Theorem is_grouped_invariance (s : Shape) :
  (∀ s', s ≡ₚ s' → is_grouped s' = is_grouped s) ∧
  is_grouped (filter (λ d : N, (1 < d)%N) s) = is_grouped s ∧
  ((length s ≤ 1)%nat → is_grouped s = false).
Proof.
  split_and!.
  - intros s' Hp. apply is_grouped_eq. symmetry. by apply filter_gt_1_Permutation.
  - apply is_grouped_eq. by rewrite list_filter_filter_l.
  - intros Hlen. apply not_true_is_false. rewrite is_grouped_spec.
    pose proof (length_filter (λ d : N, (1 < d)%N) s). lia.
Qed.

Lemma std_iota_small r :
  (Z.of_nat r ≤ 2 ^ 31)%Z → std_iota r = Z.of_nat <$> seq 0 r.
Proof.
  intros Hr. unfold std_iota. apply list_fmap_ext. intros i x Hx.
  apply lookup_seq in Hx as [-> Hlt]. apply int32_wrap_small. lia.
Qed.

Lemma std_swap_Permutation {A} (v : list A) i j : std_swap v i j ≡ₚ v.
Proof.
  unfold std_swap.
  destruct (v !! i) as [a|] eqn:Hi; [|done].
  destruct (v !! j) as [b|] eqn:Hj; [|done].
  by apply Permutation_insert_swap.
Qed.

(** X6.  For every rank [r] from 2 up to the range of [int32_t], the order
    that lines 108-110 compute ([iota] followed by the swap of the last two
    entries) is a permutation of [0, ..., r-1] of length [r]: it keeps every
    axis before the last two in place and exchanges the last two. *)
Theorem new_order_swaps_last_two_axes r :
  (2 ≤ r)%nat → (Z.of_nat r ≤ 2 ^ 31)%Z →
  let new_order := std_swap (std_iota r) (r - 1) (r - 2) in
  length new_order = r ∧
  new_order ≡ₚ (Z.of_nat <$> seq 0 r) ∧
  (∀ i, (i < r - 2)%nat → new_order !! i = Some (Z.of_nat i)) ∧
  new_order !! (r - 2)%nat = Some (Z.of_nat (r - 1)) ∧
  new_order !! (r - 1)%nat = Some (Z.of_nat (r - 2)).
Proof.
  intros Hr Hi. cbn zeta. split_and!.
  - rewrite (Permutation_length (std_swap_Permutation _ _ _)).
    unfold std_iota. by rewrite length_fmap, length_seq.
  - rewrite std_swap_Permutation. by rewrite std_iota_small.
  - intros i Hlt. rewrite std_swap_iota by done. unfold swap_last_two.
    rewrite lookup_app_l by (rewrite length_fmap, length_seq; lia).
    rewrite list_lookup_fmap, lookup_seq_lt by lia. done.
  - rewrite std_swap_iota by done. unfold swap_last_two.
    rewrite lookup_app_r by (rewrite length_fmap, length_seq; lia).
    rewrite length_fmap, length_seq. by replace (r - 2 - (r - 2))%nat with 0%nat by lia.
  - rewrite std_swap_iota by done. unfold swap_last_two.
    rewrite lookup_app_r by (rewrite length_fmap, length_seq; lia).
    rewrite length_fmap, length_seq. by replace (r - 1 - (r - 2))%nat with 1%nat by lia.
Qed.

Lemma new_order_swaps_last_two_axes_witness :
  std_swap (std_iota 3) (3 - 1) (3 - 2) ≡ₚ (Z.of_nat <$> seq 0 3).
Proof.
  apply (new_order_swaps_last_two_axes 3); [lia|cbn; lia].
Defined.

(** ** The pattern, exactly *)

Lemma reads_has_type g v ty ins : reads g v ty ins → has_type g v ty.
Proof. intros (n & Hn & Hty & _). by exists n. Qed.

Lemma reads_inj g v ty ins ty' ins' :
  reads g v ty ins → reads g v ty' ins' → ty = ty' ∧ ins = ins'.
Proof.
  intros (n & Hn & Hty & Hin) (n' & Hn' & Hty' & Hin').
  assert (n' = n) as -> by congruence. by subst.
Qed.

Lemma wrap_type_0_iff id ty pred g v m m' :
  match_value (wrap_type id ty [] pred) g v m = Some m' ↔
  has_type g v ty ∧ pred g v = true ∧ m' = add_binding id v m.
Proof.
  cbn. split.
  - destruct (node_at g (get_node_shared_ptr v)) as [n|] eqn:Hn; [|done].
    case_decide as Hty; [|done]. destruct (pred g v) eqn:Hp; [|done].
    intros [= <-]. split_and!; try done. by exists n.
  - intros ((n & Hn & Hty) & Hp & ->). rewrite Hn, decide_True, Hp by done. done.
Qed.

Lemma wrap_type_1_iff id ty p pred g v m m' :
  match_value (wrap_type id ty [p] pred) g v m = Some m' ↔
  ∃ a, reads g v ty [a] ∧ pred g v = true ∧
       match_value p g a (add_binding id v m) = Some m'.
Proof.
  split.
  - intros H. apply wrap_type_inv in H as (n & Hn & Hty & Hp & H).
    apply match_arguments_1 in H as (a & Hin & H).
    exists a. split_and!; try done. by exists n.
  - intros (a & (n & Hn & Hty & Hin) & Hp & H). cbn.
    rewrite Hn, decide_True, Hp, Hin by done. cbn. by rewrite H.
Qed.

Lemma wrap_type_2_iff id ty p q pred g v m m' :
  match_value (wrap_type id ty [p; q] pred) g v m = Some m' ↔
  ∃ a b m1, reads g v ty [a; b] ∧ pred g v = true ∧
            match_value p g a (add_binding id v m) = Some m1 ∧
            match_value q g b m1 = Some m'.
Proof.
  split.
  - intros H. apply wrap_type_inv in H as (n & Hn & Hty & Hp & H).
    apply match_arguments_2 in H as (a & b & m1 & Hin & H1 & H2).
    exists a, b, m1. split_and!; try done. by exists n.
  - intros (a & b & m1 & (n & Hn & Hty & Hin) & Hp & H1 & H2). cbn.
    rewrite Hn, decide_True, Hp, Hin by done. cbn. rewrite H1. by rewrite H2.
Qed.

Lemma wrap_type_other id ty args pred g v m ty' ins :
  reads g v ty' ins → ty' ≠ ty →
  match_value (wrap_type id ty args pred) g v m = None.
Proof.
  intros (n & Hn & Hty & _) Hne. eapply wrap_type_mismatch; [done|]. by rewrite Hty.
Qed.

Lemma single_use_constant_iff id g v m m' :
  match_value (wrap_type id Constant [] (consumers_count 1)) g v m = Some m' ↔
  single_use_constant g v ∧ m' = add_binding id v m.
Proof. rewrite wrap_type_0_iff. unfold single_use_constant. tauto. Qed.

Lemma any_constant_iff id g v m m' :
  match_value (wrap_type id Constant [] no_predicate) g v m = Some m' ↔
  has_type g v Constant ∧ m' = add_binding id v m.
Proof. rewrite wrap_type_0_iff. unfold no_predicate. tauto. Qed.

Lemma convert_m_iff g v m m' :
  match_value convert_m g v m = Some m' ↔
  ∃ w, converted_weights g v w ∧ m' = add_binding 1 w (add_binding 2 v m).
Proof.
  unfold convert_m, weights_m. rewrite wrap_type_1_iff. split.
  - intros (w & Hr & _ & H). apply wrap_type_0_iff in H as (Hty & Hp & ->).
    exists w. by split.
  - intros (w & (Hr & Hty & Hp) & ->). exists w. split_and!; try done.
    by apply wrap_type_0_iff.
Qed.

Lemma subtract_m_iff g v m m' :
  match_value subtract_m g v m = Some m' ↔
  ∃ cvt w zp, reads g v Subtract [cvt; zp] ∧ converted_weights g cvt w ∧
              single_use_constant g zp ∧
              m' = add_binding 3 zp (add_binding 1 w (add_binding 2 cvt (add_binding 4 v m))).
Proof.
  unfold subtract_m, sub_const_m. rewrite wrap_type_2_iff. split.
  - intros (cvt & zp & m1 & Hr & _ & H1 & H2).
    apply convert_m_iff in H1 as (w & Hw & ->).
    apply single_use_constant_iff in H2 as (Hzp & ->).
    by exists cvt, w, zp.
  - intros (cvt & w & zp & Hr & Hw & Hzp & ->).
    exists cvt, zp. eexists. split_and!; try done.
    + apply convert_m_iff. by exists w.
    + by apply single_use_constant_iff.
Qed.

Lemma mul_with_sub_m_iff g v m m' :
  match_value mul_with_sub_m g v m = Some m' ↔
  ∃ sub cvt w zp sc,
    reads g v Multiply [sub; sc] ∧ reads g sub Subtract [cvt; zp] ∧
    converted_weights g cvt w ∧ single_use_constant g zp ∧ single_use_constant g sc ∧
    m' = chain_with_sub v sub cvt w zp sc m.
Proof.
  unfold mul_with_sub_m, mul_const_m. rewrite wrap_type_2_iff. split.
  - intros (sub & sc & m1 & Hr & _ & H1 & H2).
    apply subtract_m_iff in H1 as (cvt & w & zp & Hs & Hw & Hzp & ->).
    apply single_use_constant_iff in H2 as (Hsc & ->).
    by exists sub, cvt, w, zp, sc.
  - intros (sub & cvt & w & zp & sc & Hr & Hs & Hw & Hzp & Hsc & ->).
    exists sub, sc. eexists. split_and!; try done.
    + apply subtract_m_iff. by exists cvt, w, zp.
    + by apply single_use_constant_iff.
Qed.

Lemma mul_no_sub_m_iff g v m m' :
  match_value mul_no_sub_m g v m = Some m' ↔
  ∃ cvt w sc,
    reads g v Multiply [cvt; sc] ∧ converted_weights g cvt w ∧
    single_use_constant g sc ∧ m' = chain_no_sub v cvt w sc m.
Proof.
  unfold mul_no_sub_m, mul_const_m. rewrite wrap_type_2_iff. split.
  - intros (cvt & sc & m1 & Hr & _ & H1 & H2).
    apply convert_m_iff in H1 as (w & Hw & ->).
    apply single_use_constant_iff in H2 as (Hsc & ->).
    by exists cvt, w, sc.
  - intros (cvt & w & sc & Hr & Hw & Hsc & ->).
    exists cvt, sc. eexists. split_and!; try done.
    + apply convert_m_iff. by exists w.
    + by apply single_use_constant_iff.
Qed.

Lemma mul_with_sub_m_on_convert g v m cvt sc w :
  reads g v Multiply [cvt; sc] → converted_weights g cvt w →
  match_value mul_with_sub_m g v m = None.
Proof.
  intros Hr (Hc & _). destruct (match_value mul_with_sub_m g v m) as [m'|] eqn:E; [|done].
  apply mul_with_sub_m_iff in E as (sub & ? & ? & ? & ? & Hr' & Hs & _).
  destruct (reads_inj _ _ _ _ _ _ Hr Hr') as [_ [= <- <-]].
  by destruct (reads_inj _ _ _ _ _ _ Hc Hs) as [? _].
Qed.

Lemma mul_m_iff g v m m' :
  match_value mul_m g v m = Some m' ↔ dequantization_at g v m m'.
Proof.
  unfold mul_m. cbn [match_value Or first_match]. split.
  - destruct (match_value mul_with_sub_m g v m) as [m1|] eqn:E1.
    + intros [= <-].
      apply mul_with_sub_m_iff in E1 as (sub & cvt & w & zp & sc & ? & ? & ? & ? & ? & ->).
      by econstructor.
    + destruct (match_value mul_no_sub_m g v m) as [m2|] eqn:E2; [|done].
      intros [= <-].
      apply mul_no_sub_m_iff in E2 as (cvt & w & sc & ? & ? & ? & ->).
      by econstructor.
  - intros [sub cvt w zp sc Hr Hs Hw Hzp Hsc|cvt w sc Hr Hw Hsc].
    + assert (match_value mul_with_sub_m g v m = Some (chain_with_sub v sub cvt w zp sc m))
        as -> by (apply mul_with_sub_m_iff; by exists sub, cvt, w, zp, sc).
      done.
    + rewrite (mul_with_sub_m_on_convert _ _ _ _ _ _ Hr Hw).
      assert (match_value mul_no_sub_m g v m = Some (chain_no_sub v cvt w sc m))
        as -> by (apply mul_no_sub_m_iff; by exists cvt, w, sc).
      done.
Qed.

Lemma dequantization_at_reads g v m m' :
  dequantization_at g v m m' → ∃ ins, reads g v Multiply ins.
Proof. intros [? ? ? ? ? Hr|? ? ? Hr]; eauto. Qed.

Lemma reshape_m_iff g v m m' :
  match_value reshape_m g v m = Some m' ↔ reshape_at g v m m'.
Proof.
  unfold reshape_m, reshape_const_m. rewrite wrap_type_2_iff. split.
  - intros (mul & rc & m1 & Hr & Hp & H1 & H2).
    apply mul_m_iff in H1. apply any_constant_iff in H2 as (Hrc & ->).
    by econstructor.
  - intros [mul rc m1 Hr Hp Hd Hrc]. exists mul, rc, m1. split_and!; try done.
    + by apply mul_m_iff.
    + by apply any_constant_iff.
Qed.

Lemma reshape_at_reads g v m m' : reshape_at g v m m' → ∃ ins, reads g v Reshape ins.
Proof. intros [? ? ? Hr]; eauto. Qed.

Lemma transpose_input_iff g v m m' :
  match_value transpose_input g v m = Some m' ↔
  reshape_at g v m m' ∨ dequantization_at g v m m'.
Proof.
  unfold transpose_input. cbn [match_value Or first_match]. split.
  - destruct (match_value reshape_m g v m) as [m1|] eqn:E1.
    + intros [= <-]. left. by apply reshape_m_iff.
    + destruct (match_value mul_m g v m) as [m2|] eqn:E2; [|done].
      intros [= <-]. right. by apply mul_m_iff.
  - intros [H|H].
    + apply reshape_m_iff in H. by rewrite H.
    + destruct (dequantization_at_reads _ _ _ _ H) as (ins & Hr).
      unfold reshape_m at 1. rewrite (wrap_type_other _ _ _ _ _ _ _ _ _ Hr) by done.
      apply mul_m_iff in H. by rewrite H.
Qed.

Lemma transpose_m_iff g v m m' :
  match_value transpose_m g v m = Some m' ↔ transpose_at g v m m'.
Proof.
  unfold transpose_m, transpose_const_m. rewrite wrap_type_2_iff. split.
  - intros (x & tc & m1 & Hr & _ & H1 & H2).
    apply transpose_input_iff in H1. apply any_constant_iff in H2 as (Htc & ->).
    destruct H1; [by eapply transpose_of_reshape|by eapply transpose_of_multiply].
  - intros [x tc m1 Hr Hx Htc|x tc m1 Hr Hx Htc]; exists x, tc, m1;
      (split_and!; try done; [apply transpose_input_iff; auto|by apply any_constant_iff]).
Qed.

Lemma transpose_at_reads g v m m' : transpose_at g v m m' → ∃ ins, reads g v Transpose ins.
Proof. intros [? ? ? Hr|? ? ? Hr]; eauto. Qed.

Lemma weights_input_m_iff g v m m' :
  match_value weights_input_m g v m = Some m' ↔ weights_input_at g v m m'.
Proof.
  unfold weights_input_m. cbn [match_value Or first_match]. split.
  - destruct (match_value reshape_m g v m) as [m1|] eqn:E1.
    { intros [= <-]. apply through_reshape. by apply reshape_m_iff. }
    destruct (match_value transpose_m g v m) as [m2|] eqn:E2.
    { intros [= <-]. apply through_transpose. by apply transpose_m_iff. }
    destruct (match_value mul_m g v m) as [m3|] eqn:E3; [|done].
    intros [= <-]. apply through_multiply. by apply mul_m_iff.
  - intros [m1 H|m1 H|m1 H].
    + apply reshape_m_iff in H. by rewrite H.
    + destruct (transpose_at_reads _ _ _ _ H) as (ins & Hr).
      unfold reshape_m at 1. rewrite (wrap_type_other _ _ _ _ _ _ _ _ _ Hr) by done.
      apply transpose_m_iff in H. by rewrite H.
    + destruct (dequantization_at_reads _ _ _ _ H) as (ins & Hr).
      unfold reshape_m at 1. rewrite (wrap_type_other _ _ _ _ _ _ _ _ _ Hr) by done.
      unfold transpose_m at 1. rewrite (wrap_type_other _ _ _ _ _ _ _ _ _ Hr) by done.
      apply mul_m_iff in H. by rewrite H.
Qed.

Lemma pattern_at_of_match g root m :
  Matcher_match fully_connected_m g root = Some m → pattern_at g root m.
Proof.
  unfold Matcher_match, fully_connected_m, data_m. rewrite wrap_type_2_iff.
  intros (data_v & b_v & m1 & Hr & _ & H1 & H2). cbn in H1. injection H1 as <-.
  apply weights_input_m_iff in H2. by exists data_v, b_v.
Qed.

Lemma match_of_pattern_at g root m :
  pattern_at g root m → Matcher_match fully_connected_m g root = Some m.
Proof.
  intros (data_v & b_v & Hr & H).
  unfold Matcher_match, fully_connected_m, data_m. apply wrap_type_2_iff.
  exists data_v, b_v. eexists. split_and!; try done.
  by apply weights_input_m_iff.
Qed.

(** X7.  The pattern of lines 41-61 accepts exactly the sub-graphs it draws,
    and yields exactly their bindings: the matcher succeeds at [root] with
    bindings [m] if and only if [root] is a fully-connected node with two
    inputs whose second input is a dequantization (a multiply of a converted
    compressed weight constant, or of its difference with a single-use
    constant, by a single-use constant), a rank-3-to-rank-2 reshape of one,
    or a transpose of either, and [m] binds the nodes of that sub-graph. *)
Theorem pattern_matches_exactly g root m :
  Matcher_match fully_connected_m g root = Some m ↔ pattern_at g root m.
Proof. split; [apply pattern_at_of_match|apply match_of_pattern_at]. Qed.

Ltac pattern_cases H :=
  let data_v := fresh "data_v" in
  let b_v := fresh "b_v" in
  let Hroot := fresh "Hroot" in
  let Hw := fresh "Hw" in
  destruct H as (data_v & b_v & Hroot & Hw);
  destruct Hw as [? [mul rc ? Hrs Hpred [sub cvt w zp sc Hmul Hsub Hcvt Hzp Hsc|
                                          cvt w sc Hmul Hcvt Hsc] Hrc]
                 |? [x tc ? Htr [mul rc ? Hrs Hpred
                                   [sub cvt w zp sc Hmul Hsub Hcvt Hzp Hsc|
                                    cvt w sc Hmul Hcvt Hsc] Hrc] Htc
                    |x tc ? Htr [sub cvt w zp sc Hmul Hsub Hcvt Hzp Hsc|
                                 cvt w sc Hmul Hcvt Hsc] Htc]
                 |? [sub cvt w zp sc Hmul Hsub Hcvt Hzp Hsc|
                     cvt w sc Hmul Hcvt Hsc]].

(** X8.  The bindings of a match come in groups.  The root, the data input,
    the weights, the convert and the scale are always bound, the root to the
    candidate node, which is a fully-connected node; exactly one of the two
    multiply alternatives is bound; the subtract and the zero point are bound
    exactly when the multiply with subtract is; the reshape constant exactly
    when the reshape is; the transpose constant exactly when the transpose
    is. *)
Theorem bindings_come_in_groups g root m :
  Matcher_match fully_connected_m g root = Some m →
  let pm := get_pattern_value_map m in
  pm !! pattern_id fully_connected_m = Some (output0 root) ∧
  has_type g (output0 root) FullyConnected ∧
  count pm data_m = true ∧ count pm weights_m = true ∧
  count pm convert_m = true ∧ count pm mul_const_m = true ∧
  count pm mul_with_sub_m = negb (count pm mul_no_sub_m) ∧
  count pm subtract_m = count pm mul_with_sub_m ∧
  count pm sub_const_m = count pm mul_with_sub_m ∧
  count pm reshape_const_m = count pm reshape_m ∧
  count pm transpose_const_m = count pm transpose_m.
Proof.
  intros Hp%pattern_at_of_match. cbn zeta.
  pattern_cases Hp;
    (split; [reflexivity|]; split; [by eapply reads_has_type|];
     split_and!; reflexivity).
Qed.

Lemma has_type_inj g v ty ty' : has_type g v ty → has_type g v ty' → ty = ty'.
Proof. intros (n & Hn & <-) (n' & Hn' & <-). congruence. Qed.

Lemma reads_node_inj g v v' ty ins ty' ins' :
  reads g v ty ins → reads g v' ty' ins' →
  get_node_shared_ptr v = get_node_shared_ptr v' → ty = ty'.
Proof. intros (n & Hn & <- & _) (n' & Hn' & <- & _) E. congruence. Qed.

Lemma reads_consumer g v ty ins i o :
  reads g v ty ins → ins !! i = Some o →
  (get_node_shared_ptr v, i) ∈ get_target_inputs g o.
Proof.
  intros (n & Hn & _ & <-) Hi. apply elem_of_get_target_inputs. by exists n.
Qed.

Lemma single_consumer {A} (l : list A) x y : length l = 1%nat → x ∈ l → y ∈ l → x = y.
Proof.
  destruct l as [|a [|? ?]]; try done.
  by intros _ ->%list_elem_of_singleton ->%list_elem_of_singleton.
Qed.

Lemma compressed_constant_single g w :
  compressed_constant g w = true → length (get_target_inputs g w) = 1%nat.
Proof. intros [_ H]%andb_true_iff. by apply bool_decide_eq_true in H. Qed.

Lemma weights_not_scale g cvt w mul x sc :
  converted_weights g cvt w → reads g mul Multiply [x; sc] → w ≠ sc.
Proof.
  intros (Hc & _ & Hw%compressed_constant_single) Hm ->.
  pose proof (reads_consumer _ _ _ _ 0%nat _ Hc eq_refl) as H0.
  pose proof (reads_consumer _ _ _ _ 1%nat _ Hm eq_refl) as H1.
  by pose proof (single_consumer _ _ _ Hw H0 H1).
Qed.

Lemma zero_point_not_weights_nor_scale g sub cvt zp w mul x sc :
  reads g sub Subtract [cvt; zp] → converted_weights g cvt w →
  single_use_constant g zp → reads g mul Multiply [x; sc] →
  zp ≠ w ∧ zp ≠ sc.
Proof.
  intros Hs (Hc & _ & Hw%compressed_constant_single) [_ Hz%bool_decide_eq_true] Hm.
  pose proof (reads_consumer _ _ _ _ 1%nat _ Hs eq_refl) as Hs1.
  split; intros ->.
  - pose proof (reads_consumer _ _ _ _ 0%nat _ Hc eq_refl) as H0.
    by pose proof (single_consumer _ _ _ Hw H0 Hs1).
  - pose proof (reads_consumer _ _ _ _ 1%nat _ Hm eq_refl) as H1.
    pose proof (single_consumer _ _ _ Hz Hs1 H1) as [= E].
    by pose proof (reads_node_inj _ _ _ _ _ _ _ Hs Hm E).
Qed.

(** X9.  The flags the callback reads off the binding map reflect the
    graph.  [has_transpose] (line 74) is true exactly when the weights input
    of the root is a transpose, which is then the bound transpose;
    [with_zero_point] (line 96) is true exactly when the first input of the
    matched multiply is a subtract. *)
Theorem flags_reflect_the_graph g root m :
  Matcher_match fully_connected_m g root = Some m →
  let pm := get_pattern_value_map m in
  ∃ data_v b_v mul ins,
    reads g (output0 root) FullyConnected [data_v; b_v] ∧
    pm !! pattern_id data_m = Some data_v ∧
    (count pm transpose_m = true ↔ has_type g b_v Transpose) ∧
    (count pm transpose_m = true → pm !! pattern_id transpose_m = Some b_v) ∧
    (pm !! pattern_id mul_with_sub_m = Some mul ∨
     pm !! pattern_id mul_no_sub_m = Some mul) ∧
    reads g mul Multiply ins ∧
    (count pm subtract_m = true ↔
     ∃ sub, ins !! 0%nat = Some sub ∧ has_type g sub Subtract).
Proof.
  intros Hp%pattern_at_of_match. cbn zeta.
  pattern_cases Hp.
  all: exists data_v, b_v.
  all: match goal with
       | H : reads _ ?mul Multiply ?ins |- _ => exists mul, ins
       end.
  all: split; [exact Hroot|]; split; [reflexivity|].
  all: split;
         [split;
            [intros Hc; first [by vm_compute in Hc|by eapply reads_has_type]
            |intros Ht; first
               [reflexivity
               |exfalso;
                first [pose proof (has_type_inj _ _ _ _ Ht (reads_has_type _ _ _ _ Hrs))
                      |pose proof (has_type_inj _ _ _ _ Ht (reads_has_type _ _ _ _ Hmul))];
                discriminate]]|].
  all: split; [intros Hc; first [by vm_compute in Hc|reflexivity]|].
  all: split; [first [left; reflexivity|right; reflexivity]|].
  all: split; [exact Hmul|].
  all: split;
         [intros Hc; first
            [by vm_compute in Hc
            |exists sub; split; [reflexivity|by eapply reads_has_type]]
         |intros (s0 & Hs0 & Hty0); first
            [reflexivity
            |exfalso; injection Hs0 as <-; destruct Hcvt as (Hcv & _);
             pose proof (has_type_inj _ _ _ _ Hty0 (reads_has_type _ _ _ _ Hcv));
             discriminate]].
Qed.

(** X10.  A bound reshape is a reshape of a multiply by the bound reshape
    constant; it reads a value of static rank 3 and produces a value of
    static rank 2 (the predicate of lines 35-39). *)
Theorem bound_reshape_is_3d_to_2d g root m r :
  Matcher_match fully_connected_m g root = Some m →
  get_pattern_value_map m !! pattern_id reshape_m = Some r →
  ∃ mul rc in_dims out_dims,
    reads g r Reshape [mul; rc] ∧
    has_type g mul Multiply ∧
    get_pattern_value_map m !! pattern_id reshape_const_m = Some rc ∧
    has_type g rc Constant ∧
    get_partial_shape g mul = Some (static_rank in_dims) ∧ length in_dims = 3%nat ∧
    get_partial_shape g (output0 (get_node_shared_ptr r)) = Some (static_rank out_dims) ∧
    length out_dims = 2%nat.
Proof.
  intros Hp%pattern_at_of_match Hr.
  assert (∀ mul rc, reads g r Reshape [mul; rc] → reshape_3d_to_2d g r = true →
            ∃ in_dims out_dims,
              get_partial_shape g mul = Some (static_rank in_dims) ∧
              length in_dims = 3%nat ∧
              get_partial_shape g (output0 (get_node_shared_ptr r)) =
                Some (static_rank out_dims) ∧
              length out_dims = 2%nat) as Hshape.
  { intros mul rc (n & Hn & _ & Hin) Hpred. unfold reshape_3d_to_2d in Hpred.
    unfold get_input_partial_shape, get_output_partial_shape in Hpred.
    rewrite Hn in Hpred. cbn in Hpred. rewrite Hin in Hpred. cbn in Hpred.
    fold (output0 (get_node_shared_ptr r)) in Hpred.
    destruct (get_partial_shape g mul) as [in_ps|]; [|done].
    destruct (get_partial_shape g (output0 (get_node_shared_ptr r))) as [out_ps|]; [|done].
    destruct in_ps as [|in_dims], out_ps as [|out_dims]; cbn in Hpred; try done.
    apply andb_true_iff in Hpred as [H3 H2].
    apply bool_decide_eq_true in H3, H2. by exists in_dims, out_dims. }
  pattern_cases Hp; try (by vm_compute in Hr).
  all: first
         [assert (Some r = Some b_v) as [= ->] by (rewrite <- Hr; reflexivity)
         |match goal with
          | Ht : reads _ _ Transpose [?x; _] |- _ =>
              assert (Some r = Some x) as [= ->] by (rewrite <- Hr; reflexivity)
          end].
  all: destruct (Hshape _ _ Hrs Hpred) as (in_dims & out_dims & ? & ? & ? & ?).
  all: exists mul, rc, in_dims, out_dims.
  all: split_and!; try done; try reflexivity; by eapply reads_has_type.
Qed.

(** X11.  The weight, scale and zero-point constants of a match are three
    different values: each of them has exactly one consumer, and they are
    consumed at different input ports of the matched chain.  So the callback
    never canonicalizes one constant for two operand slots. *)
Theorem operand_constants_are_distinct g root m weights scale :
  Matcher_match fully_connected_m g root = Some m →
  get_pattern_value_map m !! pattern_id weights_m = Some weights →
  get_pattern_value_map m !! pattern_id mul_const_m = Some scale →
  weights ≠ scale ∧
  ∀ zero_point, get_pattern_value_map m !! pattern_id sub_const_m = Some zero_point →
                zero_point ≠ weights ∧ zero_point ≠ scale.
Proof.
  intros Hp%pattern_at_of_match Hw' Hsc'.
  pattern_cases Hp.
  all: match goal with
       | Hc : converted_weights _ _ ?w0, Hm : reads _ _ Multiply [_; ?sc0] |- _ =>
           assert (Some weights = Some w0) as [= ->] by (rewrite <- Hw'; reflexivity);
           assert (Some scale = Some sc0) as [= ->] by (rewrite <- Hsc'; reflexivity);
           split; [exact (weights_not_scale _ _ _ _ _ _ Hc Hm)|]
       end.
  all: intros zp' Hzp'.
  all: first [by vm_compute in Hzp'
             |assert (Some zp' = Some zp) as [= ->] by (rewrite <- Hzp'; reflexivity);
              by eapply zero_point_not_weights_nor_scale].
Qed.

Lemma bindings_come_in_groups_witness :
  count (get_pattern_value_map (match_at grouped_graph 7)) sub_const_m =
  count (get_pattern_value_map (match_at grouped_graph 7)) mul_with_sub_m.
Proof.
  apply (bindings_come_in_groups grouped_graph 7 (match_at grouped_graph 7)).
  vm_compute. reflexivity.
Defined.

Lemma flags_reflect_the_graph_witness :
  count (get_pattern_value_map (match_at scenario_graph_transposed 7)) transpose_m = true ∧
  has_type scenario_graph_transposed (output0 6) Transpose.
Proof.
  destruct (flags_reflect_the_graph scenario_graph_transposed 7
              (match_at scenario_graph_transposed 7))
    as (data_v & b_v & mul & ins & Hroot & _ & Hiff & Hb & _);
    [vm_compute; reflexivity|].
  assert (count (get_pattern_value_map (match_at scenario_graph_transposed 7))
            transpose_m = true) as Hc by (vm_compute; reflexivity).
  split; [exact Hc|].
  specialize (Hb Hc). vm_compute in Hb. injection Hb as <-. apply Hiff, Hc.
Defined.

Lemma bound_reshape_is_3d_to_2d_witness :
  ∃ in_dims out_dims,
    get_partial_shape reshaped_graph (output0 4) = Some (static_rank in_dims) ∧
    length in_dims = 3%nat ∧
    get_partial_shape reshaped_graph (output0 6) = Some (static_rank out_dims) ∧
    length out_dims = 2%nat.
Proof.
  destruct (bound_reshape_is_3d_to_2d reshaped_graph 7 (match_at reshaped_graph 7)
              (output0 6))
    as (mul & rc & in_dims & out_dims & Hr & _ & _ & _ & Hin & H3 & Hout & H2);
    [vm_compute; reflexivity..|].
  destruct Hr as (n & Hn & _ & Hi). vm_compute in Hn. injection Hn as <-.
  injection Hi as <- _.
  exists in_dims, out_dims. split_and!; assumption.
Defined.

Lemma operand_constants_are_distinct_witness : output0 1 ≠ output0 5.
Proof.
  apply (operand_constants_are_distinct grouped_graph 7 (match_at grouped_graph 7));
    vm_compute; reflexivity.
Defined.

(** ** The outcomes of one step *)

Lemma OPENVINO_ASSERT_inv cond text g u g1 :
  OPENVINO_ASSERT cond text g = Ok (u, g1) → cond = true ∧ g1 = g.
Proof. unfold OPENVINO_ASSERT. destruct cond; [|done]. by intros [= <- <-]. Qed.

Lemma ask_inv {A} (f : Graph → A) g a g1 : ask f g = Ok (a, g1) → a = f g ∧ g1 = g.
Proof. by intros [= <- <-]. Qed.

Lemma modify_inv p f g u g1 :
  modify p f g = Ok (u, g1) → ∃ n, node_at g p = Some n ∧ g1 = <[p := Some (f n)]> g.
Proof.
  unfold modify. destruct (node_at g p) as [n|]; [|done]. intros [= <- <-]. eauto.
Qed.

Lemma substitute_inv m fc new_fc g5 b g' :
  substitute m fc new_fc g5 = Ok (b, g') →
  b = true ∧ ∃ g7, length g7 = length g5 ∧ g' = <[fc := None]> (rewire_all fc new_fc g7).
Proof.
  unfold substitute. intros H.
  apply bind_Ok_inv in H as (name & g0 & Hname & H).
  assert (g0 = g5) as ->.
  { unfold get_friendly_name in Hname.
    apply bind_Ok_inv in Hname as (n & g1 & [-> ->]%ask_inv & Hname).
    destruct (node_at g5 fc); [|done]. by injection Hname as <- <-. }
  apply bind_Ok_inv in H as (u1 & g6 & H6 & H).
  apply modify_inv in H6 as (n6 & _ & ->).
  apply bind_Ok_inv in H as (u2 & g7 & H7 & H).
  unfold copy_runtime_info in H7.
  apply bind_Ok_inv in H7 as (merged & g1 & [-> ->]%ask_inv & H7).
  apply modify_inv in H7 as (n7 & _ & ->).
  apply bind_Ok_inv in H as (u3 & g8 & H8 & H).
  injection H8 as <- <-. injection H as <- <-.
  split; [done|]. eexists. split; [|reflexivity]. by rewrite !length_insert.
Qed.

Lemma redirect_not_target t r src :
  t ≠ r → get_node_shared_ptr (redirect t r src) ≠ t.
Proof. intros Hne. unfold redirect. case_decide; cbn; congruence. Qed.

Lemma substitute_no_reader m fc new_fc g5 b g' :
  substitute m fc new_fc g5 = Ok (b, g') → fc ≠ new_fc →
  ∀ p n src, node_at g' p = Some n → src ∈ inputs n → get_node_shared_ptr src ≠ fc.
Proof.
  intros (_ & g7 & _ & ->)%substitute_inv Hne p n src Hn Hsrc.
  rewrite node_at_retire in Hn. case_decide; [done|].
  rewrite node_at_rewire_all in Hn.
  destruct (node_at g7 p) as [n7|]; [|done]. injection Hn as <-.
  cbn in Hsrc. apply list_elem_of_fmap in Hsrc as (src7 & -> & _).
  by apply redirect_not_target.
Qed.

Section Steps.
Variable transformation_callback : Graph → nat → bool.
Variable validate_and_infer_types : Graph → operator → list Output → list Tensor.

Abbreviation this_callback := (callback transformation_callback validate_and_infer_types).
Abbreviation this_run_on_node := (run_on_node transformation_callback validate_and_infer_types).
Abbreviation this_build_fused_node := (build_fused_node validate_and_infer_types).

Lemma callback_false_inv m g g' : this_callback m g = Ok (false, g') → g' = g.
Proof.
  unfold callback. intros H.
  apply bind_Ok_inv in H as (? & ? & [_ ->]%OPENVINO_ASSERT_inv & H).
  apply bind_Ok_inv in H as (? & ? & [_ ->]%OPENVINO_ASSERT_inv & H).
  apply bind_Ok_inv in H as (? & ? & [_ ->]%OPENVINO_ASSERT_inv & H).
  apply bind_Ok_inv in H as (? & ? & [_ ->]%OPENVINO_ASSERT_inv & H).
  apply bind_Ok_inv in H as (root & ? & [_ ->]%at_inv & H).
  rewrite (bind_Ok _ _ _ _ _ (dynamic_pointer_cast_run _ _ _)) in H.
  destruct (match node_at g (get_node_shared_ptr root) with
            | Some n => if decide (type_info n = FullyConnected)
                        then Some (get_node_shared_ptr root) else None
            | None => None
            end) as [fc|]; [|by injection H].
  apply bind_Ok_inv in H as (veto & ? & [-> ->]%ask_inv & H).
  destruct (transformation_callback g fc); [by injection H|].
  apply bind_Ok_inv in H as (? & ? & _ & H).
  apply bind_Ok_inv in H as (? & ? & _ & H).
  apply bind_Ok_inv in H as (? & ? & _ & H).
  by apply substitute_inv in H as [? _].
Qed.

Lemma run_on_node_false_inv node g g' :
  this_run_on_node node g = Ok (false, g') → g' = g.
Proof.
  rewrite run_on_node_eq. destruct (Matcher_match fully_connected_m g node).
  - apply callback_false_inv.
  - by intros [= <-].
Qed.

(** X12.  Whatever the binding map, a callback that returns false has changed
    nothing: the graph it returns is the graph it was given.  The same holds
    for one step of the pass at any node. *)
Theorem false_means_unchanged m node g g' :
  callback transformation_callback validate_and_infer_types m g = Ok (false, g') ∨
  run_on_node transformation_callback validate_and_infer_types node g = Ok (false, g') →
  g' = g.
Proof.
  intros [H|H]; [exact (callback_false_inv _ _ _ H)|exact (run_on_node_false_inv _ _ _ H)].
Qed.

(** X13.  One step of the pass on a well-formed graph is decided by three
    tests.  Without a match, or with a match that the veto predicate
    disallows, it returns false and the graph is unchanged; with an allowed
    match whose scale, weight and (when matched) zero-point constants have
    rank 2 or 3 it returns true and the root is retired; with an allowed
    match and a constant of another rank it raises the rank assertion.  So no
    other exception is ever raised: no binding assertion, no failed lookup in
    the binding map, no null pointer, no dynamic shape. *)
Theorem run_on_node_decided g root :
  well_formed g = true →
  match Matcher_match fully_connected_m g root with
  | None => this_run_on_node root g = Ok (false, g)
  | Some m =>
      if transformation_callback g root then this_run_on_node root g = Ok (false, g)
      else if canonicalizable g m
           then ∃ g', this_run_on_node root g = Ok (true, g') ∧
                      is_Some (node_at g root) ∧ node_at g' root = None
           else this_run_on_node root g =
                  Raise (assertion_failed "current_shape.size() == 3")
  end.
Proof.
  intros Hwf. rewrite run_on_node_eq.
  destruct (Matcher_match fully_connected_m g root) as [m|] eqn:Hm; [|done].
  pose proof (match_facts_of_match _ _ _ Hm) as Hmf.
  destruct (transformation_callback g root) eqn:Hveto.
  { by rewrite (callback_veto_or_rewrite _ _ _ _ _ Hmf), Hveto. }
  destruct (canonicalizable g m) eqn:Hcan.
  - destruct (callback_fuses transformation_callback validate_and_infer_types
                _ _ _ Hwf Hmf Hveto Hcan) as (g' & f & Hrun & Hf).
    exists g'. split_and!; [done| |by destruct Hf].
    destruct Hf as [Hold _ _ _ _ _ _ _ _ _ _ _ _ _ _]. by rewrite Hold.
  - by apply (callback_raises _ _ g root m).
Qed.

Lemma run_on_node_build g root g' :
  well_formed g = true → this_run_on_node root g = Ok (true, g') →
  ∃ m g4 fused0,
    Matcher_match fully_connected_m g root = Some m ∧
    grows g g4 ∧ (root < length g)%nat ∧
    substitute m root (length g4) (g4 ++ [Some fused0]) = Ok (true, g').
Proof.
  intros Hwf Hrun.
  destruct (run_on_node_true _ _ _ _ _ Hwf Hrun) as (m & f & Hm & Hveto & Hcan & Hf).
  pose proof (match_facts_of_match _ _ _ Hm) as Hmf.
  rewrite (run_on_node_match _ _ _ _ _ Hm) in Hrun.
  pose proof Hmf as [_ _ _ _ (s & Hs & Hst & Hsc) _ _ _].
  destruct (scale_value_shape _ _ Hwf Hst Hsc) as (ns & et & ss & d & _ & _ & Hshape & _).
  rewrite (callback_prefix _ _ _ _ _ _ _ Hmf Hveto Hs Hshape) in Hrun.
  destruct (build_fused_node_spec validate_and_infer_types g root m (is_grouped ss) Hmf Hcan)
    as (g4 & fused0 & old & t & data_v & w & s' & cw & cs & b & sc & order & zl &
        Hbuild & Hg4 & Hold & _).
  rewrite (bind_Ok _ _ _ _ _ Hbuild) in Hrun.
  exists m, g4, fused0. split_and!; try done. by eapply node_at_lt.
Qed.

(** X14.  After a rewrite no input of any node of the graph reads an output
    of the retired root, so no output of the root has a consumer left; and
    every consumer of output [i] of the root is a consumer of output [i] of
    the new fused node. *)
Theorem retired_root_is_not_read g root g' :
  well_formed g = true →
  this_run_on_node root g = Ok (true, g') →
  (∀ p n src, node_at g' p = Some n → src ∈ inputs n → get_node_shared_ptr src ≠ root) ∧
  (∀ i, get_target_inputs g' (mk_Output root i) = []) ∧
  ∃ new_fc fused,
    (length g ≤ new_fc)%nat ∧ node_at g' new_fc = Some fused ∧
    type_info fused = FullyConnectedCompressed ∧
    ∀ i consumer, consumer ∈ get_target_inputs g (mk_Output root i) →
                  consumer ∈ get_target_inputs g' (mk_Output new_fc i).
Proof.
  intros Hwf Hrun.
  destruct (run_on_node_build _ _ _ Hwf Hrun) as (m & g4 & fused0 & Hm & Hg4 & Hlt & Hsub).
  pose proof (grows_length _ _ Hg4) as Hlen.
  assert (Hne : root ≠ length g4) by lia.
  pose proof (substitute_no_reader _ _ _ _ _ _ Hsub Hne) as Hno.
  split_and!.
  - exact Hno.
  - intros i. apply elem_of_nil_inv. intros [p k] Hin.
    apply elem_of_get_target_inputs in Hin as (n & Hn & Hk).
    apply list_elem_of_lookup_2 in Hk. by apply (Hno _ _ _ Hn Hk).
  - destruct (run_on_node_true _ _ _ _ _ Hwf Hrun) as (m' & f & _ & _ & _ & Hf).
    destruct Hf as [_ _ Hnew Hfused Hframe _ (t & _ & Htn) _ _ _ _ _ _ _ _].
    exists (new_fc f), (fc_new f). split_and!; try done.
    { unfold type_info. by rewrite Htn. }
    intros i [p k] Hin.
    apply elem_of_get_target_inputs in Hin as (n & Hn & Hk).
    apply elem_of_get_target_inputs.
    assert (p ≠ root) as Hp.
    { intros ->. apply list_elem_of_lookup_2 in Hk.
      by destruct (well_formed_edge _ _ _ _ Hwf Hn Hk) as [_ ?]. }
    exists (rewire root (new_fc f) n). split.
    + rewrite Hframe; [by rewrite Hn|by eapply node_at_lt|done].
    + cbn. rewrite list_lookup_fmap, Hk. cbn. unfold redirect. cbn.
      by rewrite decide_True.
Qed.

(** X15.  A constant is copied only when it has rank 3.  After a rewrite
    without a matched transpose, the weight, scale and zero-point operands of
    the fused node are the matched constants themselves where these have
    rank 2, and nodes built by the rewrite where they have rank 3. *)
Theorem constants_are_copied_only_at_rank_3 g root m g' :
  well_formed g = true →
  Matcher_match fully_connected_m g root = Some m →
  this_run_on_node root g = Ok (true, g') →
  count (get_pattern_value_map m) transpose_m = false →
  ∃ new_fc fused,
    node_at g' new_fc = Some fused ∧ type_info fused = FullyConnectedCompressed ∧
    ∀ id k c shape,
      (id, k) ∈ [(pattern_id weights_m, 1%nat); (pattern_id mul_const_m, 2%nat);
                 (pattern_id sub_const_m, 3%nat)] →
      get_pattern_value_map m !! id = Some c →
      shape_of g (get_node_shared_ptr c) = Some shape →
      ∃ x, inputs fused !! k = Some (output0 x) ∧
           (length shape = 2%nat → x = get_node_shared_ptr c) ∧
           (length shape = 3%nat → (length g ≤ x)%nat).
Proof.
  intros Hwf Hm Hrun Hnt.
  destruct (run_on_node_true _ _ _ _ _ Hwf Hrun) as (m' & f & Hm' & _ & _ & Hf).
  assert (m' = m) as -> by congruence.
  pose proof (match_facts_of_match _ _ _ Hm) as [_ _ _ _ _ Hmz _ _].
  destruct Hf as [_ _ _ Hfused _ _ (t & _ & Htn) _ _ (data_v & _ & Hin) [Hfl _]
                  (w & Hw & Hcw & Hb) (s & Hs & Hcs & Hsc) Hzp _].
  rewrite Hfl, Hnt in *. unfold operand_of in *.
  assert (Hcan : ∀ p c, canonical_of g g' false (grouped f) p c → ∀ shape,
            shape_of g p = Some shape →
            (length shape = 2%nat → c = p) ∧ (length shape = 3%nat → (length g ≤ c)%nat)).
  { intros p c (n & n' & et & sh & d & Hn & Hop & _ & _ & _ & Hc) shape Hshape.
    rewrite (shape_of_Constant _ _ _ _ _ _ Hn Hop) in Hshape. injection Hshape as <-.
    destruct Hc as [[? ?]|[? ?]]; split; intros ?; first [done|lia]. }
  exists (new_fc f), (fc_new f). split_and!; try done.
  { unfold type_info. by rewrite Htn. }
  intros id k c shape Hid Hc Hshape.
  repeat (apply elem_of_cons in Hid as [[= -> ->]|Hid]); [..|by apply elem_of_nil in Hid].
  - assert (Some c = Some w) as [= ->] by (rewrite <- Hc; exact Hw). exists (weight_operand f).
    split; [by rewrite Hin|]. rewrite Hb. by apply Hcan.
  - assert (Some c = Some s) as [= ->] by (rewrite <- Hc; exact Hs). exists (scale_operand f).
    split; [by rewrite Hin|]. rewrite Hsc. by apply Hcan.
  - revert Hmz Hzp. destruct (count (get_pattern_value_map m) subtract_m);
      intros Hmz Hzp.
    2: { assert (Some c = None) as [=] by (rewrite <- Hc; exact Hmz). }
    destruct Hzp as (zv & cz & zo & Hzv & Hzo & Hcz & ->).
    assert (Some c = Some zv) as [= ->] by (rewrite <- Hc; exact Hzv). exists cz.
    split; [by rewrite Hin, Hzo|]. by apply Hcan.
Qed.

(** X16.  The fused node reads its data operand at output 0 of the node that
    produces the data input of the root: line 92 keeps the producer
    ([get_input_node_shared_ptr(0)]) and not the port.  So the data operand
    is the matched data value exactly when that value is output 0 of its
    producer. *)
Theorem data_operand_is_output_0_of_its_producer g root m g' :
  well_formed g = true →
  Matcher_match fully_connected_m g root = Some m →
  this_run_on_node root g = Ok (true, g') →
  ∃ new_fc fused data_v,
    get_pattern_value_map m !! pattern_id data_m = Some data_v ∧
    node_at g' new_fc = Some fused ∧ type_info fused = FullyConnectedCompressed ∧
    inputs fused !! 0%nat = Some (output0 (get_node_shared_ptr data_v)) ∧
    (inputs fused !! 0%nat = Some data_v ↔ get_index data_v = 0%nat).
Proof.
  intros Hwf Hm Hrun.
  destruct (run_on_node_true _ _ _ _ _ Hwf Hrun) as (m' & f & Hm' & _ & _ & Hf).
  assert (m' = m) as -> by congruence.
  pose proof (match_facts_of_match _ _ _ Hm)
    as [_ (old & data_v & b_v & Hold & _ & Hin & Hdata) _ _ _ _ _ _].
  destruct Hf as [Hold' _ _ Hfused _ _ (t & _ & Htn) _ _ (data_v' & Hd & Hinf) _ _ _ _ _].
  assert (fc_old f = old) as Ho by congruence. rewrite Ho, Hin in Hd.
  injection Hd as <-.
  exists (new_fc f), (fc_new f), data_v. split_and!; try done.
  - unfold type_info. by rewrite Htn.
  - by rewrite Hinf.
  - rewrite Hinf. cbn. destruct data_v as [p i]. cbn. split.
    + by intros [= ->].
    + by intros ->.
Qed.

End Steps.

Lemma false_means_unchanged_witness :
  result_graph (run_on_node veto_all unknown_output 7 grouped_graph) = grouped_graph.
Proof.
  apply (false_means_unchanged veto_all unknown_output empty_Matcher 7 grouped_graph).
  right. vm_compute. reflexivity.
Defined.

Lemma run_on_node_decided_witness :
  ∃ g', run_on_node allow_all unknown_output 7 grouped_graph = Ok (true, g') ∧
        is_Some (node_at grouped_graph 7) ∧ node_at g' 7 = None.
Proof.
  apply (run_on_node_decided allow_all unknown_output grouped_graph 7).
  vm_compute. reflexivity.
Defined.

Lemma retired_root_is_not_read_witness :
  get_target_inputs (rewritten grouped_graph 7) (mk_Output 7 0) = [].
Proof.
  destruct (retired_root_is_not_read allow_all unknown_output grouped_graph 7
              (rewritten grouped_graph 7)) as (_ & H & _);
    [vm_compute; reflexivity..|].
  apply H.
Defined.

Lemma constants_are_copied_only_at_rank_3_witness :
  ∃ new_fc fused,
    node_at (rewritten split_data_graph 5) new_fc = Some fused ∧
    inputs fused !! 1%nat = Some (output0 1).
Proof.
  destruct (constants_are_copied_only_at_rank_3 allow_all unknown_output
              split_data_graph 5 (match_at split_data_graph 5)
              (rewritten split_data_graph 5))
    as (new_fc & fused & Hf & _ & H); [vm_compute; reflexivity..|].
  destruct (H (pattern_id weights_m) 1%nat (output0 1) [32; 64])
    as (x & Hx & H2 & _); [left|vm_compute; reflexivity..|].
  exists new_fc, fused. split; [exact Hf|]. rewrite Hx, (H2 eq_refl). reflexivity.
Defined.

Lemma data_operand_is_output_0_of_its_producer_witness :
  ∃ new_fc fused,
    node_at (rewritten split_data_graph 5) new_fc = Some fused ∧
    inputs fused !! 0%nat = Some (output0 0) ∧
    inputs fused !! 0%nat ≠ Some (mk_Output 0 1).
Proof.
  destruct (data_operand_is_output_0_of_its_producer allow_all unknown_output
              split_data_graph 5 (match_at split_data_graph 5)
              (rewritten split_data_graph 5))
    as (new_fc & fused & data_v & Hd & Hf & _ & H0 & Hiff);
    [vm_compute; reflexivity..|].
  vm_compute in Hd. injection Hd as <-.
  exists new_fc, fused. split_and!; [exact Hf|exact H0|].
  intros E. apply Hiff in E. discriminate E.
Defined.

(** ** The rewrite preserves the consistency of the graph *)

Lemma well_formed_intro g :
  (∀ p n src, node_at g p = Some n → src ∈ inputs n → edge_ok g p src = true) →
  well_formed g = true.
Proof.
  intros H. unfold well_formed. apply forallb_forall. intros b Hb.
  apply list_elem_of_In in Hb. apply elem_of_lookup_imap in Hb as (p & slot & -> & Hp).
  destruct slot as [n|]; [|done].
  apply forallb_forall. intros src Hsrc. apply list_elem_of_In in Hsrc.
  apply (H p n); [|done]. unfold node_at. by rewrite Hp.
Qed.

Lemma edge_ok_true g p src :
  edge_ok g p src = true ↔ is_Some (output_tensor g src) ∧ get_node_shared_ptr src ≠ p.
Proof.
  unfold edge_ok. rewrite andb_true_iff, !bool_decide_eq_true. done.
Qed.

Lemma output_tensor_app g ext src :
  is_Some (output_tensor g src) → output_tensor (g ++ ext) src = output_tensor g src.
Proof.
  unfold output_tensor.
  destruct (node_at g (get_node_shared_ptr src)) as [n|] eqn:Hn; [|by intros [? ?]].
  intros _. by rewrite (node_at_app_l _ _ _ _ Hn).
Qed.

Lemma edge_ok_app g ext p src : edge_ok g p src = true → edge_ok (g ++ ext) p src = true.
Proof.
  rewrite !edge_ok_true. intros [Ho Hp]. split; [|done]. by rewrite output_tensor_app.
Qed.

Lemma outputs_Constant n et s d : op n = a_Constant et s d → outputs n ≠ [].
Proof. unfold outputs. by intros ->. Qed.

Lemma usable_app root g ext c : usable root g c → usable root (g ++ ext) c.
Proof.
  intros [Hne (n & Hn & Ho)]. split; [done|]. exists n. split; [|done].
  by apply node_at_app_l.
Qed.

Lemma usable_output0 root g c : usable root g c → is_Some (output_tensor g (output0 c)).
Proof.
  intros [_ (n & Hn & Ho)]. unfold output_tensor. cbn. rewrite Hn. cbn.
  destruct (outputs n); [done|]. by eexists.
Qed.

Lemma usable_lt root g c : usable root g c → (c < length g)%nat.
Proof. intros [_ (n & Hn & _)]. by eapply node_at_lt. Qed.

Lemma usable_Constant root g c n old :
  node_at g root = Some old → type_info old = FullyConnected →
  node_at g c = Some n → type_info n = Constant → usable root g c.
Proof.
  intros Hold Hty Hn Hc. split.
  - intros ->. congruence.
  - exists n. split; [done|].
    apply type_info_Constant in Hc as (? & ? & ? & Hop). by eapply outputs_Constant.
Qed.

Lemma extends_soundly_refl root g : extends_soundly root g g.
Proof.
  split; [exists []; by rewrite app_nil_r|].
  intros p n Hp Hn. apply node_at_lt in Hn. lia.
Qed.

Lemma extends_soundly_trans root g g1 g2 :
  extends_soundly root g g1 → extends_soundly root g1 g2 → extends_soundly root g g2.
Proof.
  intros [(e1 & ->) H1] [(e2 & ->) H2]. split; [exists (e1 ++ e2); by rewrite app_assoc|].
  intros p n Hp Hn.
  destruct (decide (p < length (g ++ e1))%nat) as [Hlt|Hge].
  - rewrite node_at_app_lt in Hn by done.
    destruct (H1 p n Hp Hn) as [Ho He]. split; [done|].
    intros src Hsrc. destruct (He src Hsrc) as [Hok Hr]. split; [|done].
    by apply edge_ok_app.
  - apply H2; [lia|done].
Qed.

Lemma extends_soundly_snoc root g n :
  outputs n ≠ [] →
  (∀ src, src ∈ inputs n → ∃ c, src = output0 c ∧ usable root g c) →
  extends_soundly root g (g ++ [Some n]).
Proof.
  intros Ho Hin. split; [by eexists|].
  intros p n' Hp Hn'. pose proof (node_at_lt _ _ _ Hn') as Hlt.
  rewrite length_app in Hlt. cbn in Hlt.
  assert (p = length g) as -> by lia.
  rewrite node_at_snoc in Hn'. injection Hn' as <-.
  split; [done|]. intros src Hsrc. destruct (Hin src Hsrc) as (c & -> & Hc).
  split; [|by destruct Hc]. apply edge_ok_true. split.
  - eapply usable_output0, usable_app, Hc.
  - cbn. apply usable_lt in Hc. lia.
Qed.

Lemma usable_snoc root g n :
  outputs n ≠ [] → (root < length g)%nat → usable root (g ++ [Some n]) (length g).
Proof.
  intros Ho Hlt. split; [lia|]. exists n. split; [apply node_at_snoc|done].
Qed.

Lemma extends_soundly_node_at root g g1 p n :
  extends_soundly root g g1 → node_at g p = Some n → node_at g1 p = Some n.
Proof. intros [(ext & ->) _] Hn. by apply node_at_app_l. Qed.

Lemma extends_soundly_usable root g g1 c :
  extends_soundly root g g1 → usable root g c → usable root g1 c.
Proof. intros [(ext & ->) _] Hc. by apply usable_app. Qed.

Lemma extends_soundly_length root g g1 :
  extends_soundly root g g1 → (length g ≤ length g1)%nat.
Proof. intros [(ext & ->) _]. rewrite length_app. lia. Qed.

Lemma reshape_const_to_2d_sound root g ht gr p c g' old :
  node_at g root = Some old → type_info old = FullyConnected →
  reshape_const_to_2d ht gr p g = Ok (c, g') →
  extends_soundly root g g' ∧ usable root g' c.
Proof.
  intros Hold Hty Hrun.
  destruct (reshape_const_to_2d_result _ _ _ _ _ _ Hrun)
    as (n & et & s & d & Hn & Hop & [(Hlen & -> & ->)|(Hlen & -> & ->)]).
  - split; [apply extends_soundly_refl|].
    eapply usable_Constant; [done..|]. unfold type_info. by rewrite Hop.
  - split.
    + apply extends_soundly_snoc; [done|]. intros src Hsrc. by apply elem_of_nil in Hsrc.
    + apply usable_snoc; [done|]. by eapply node_at_lt.
Qed.

Lemma get_output_type_inv fc g t g1 : get_output_type fc g = Ok (t, g1) → g1 = g.
Proof.
  unfold get_output_type. intros H.
  apply bind_Ok_inv in H as (n & ? & [-> ->]%ask_inv & H).
  destruct (op <$> node_at g fc) as [[]|]; try done. by injection H as _ <-.
Qed.

Lemma substitute_wiring m fc new_fc g5 b g' :
  substitute m fc new_fc g5 = Ok (b, g') →
  ∃ g7, g' = <[fc := None]> (rewire_all fc new_fc g7) ∧
        ∀ p, wiring <$> node_at g7 p = wiring <$> node_at g5 p.
Proof.
  unfold substitute. intros H.
  apply bind_Ok_inv in H as (name & g0 & Hname & H).
  assert (g0 = g5) as ->.
  { unfold get_friendly_name in Hname.
    apply bind_Ok_inv in Hname as (n & g1 & [-> ->]%ask_inv & Hname).
    destruct (node_at g5 fc); [|done]. by injection Hname as <- <-. }
  apply bind_Ok_inv in H as (u1 & g6 & H6 & H).
  apply modify_inv in H6 as (n6 & Hn6 & ->).
  apply bind_Ok_inv in H as (u2 & g7 & H7 & H).
  unfold copy_runtime_info in H7.
  apply bind_Ok_inv in H7 as (merged & g1 & [-> ->]%ask_inv & H7).
  apply modify_inv in H7 as (n7 & Hn7 & ->).
  apply bind_Ok_inv in H as (u3 & g8 & H8 & H).
  injection H8 as <- <-. injection H as <- <-.
  eexists. split; [reflexivity|]. intros p.
  pose proof (node_at_lt _ _ _ Hn6) as Hlt.
  rewrite node_at_insert, decide_True in Hn7 by done. injection Hn7 as <-.
  rewrite !node_at_insert, !length_insert.
  destruct (decide (new_fc = p)) as [->|Hne].
  - rewrite !decide_True by done. by rewrite Hn6.
  - rewrite !decide_False by (intros [? ?]; done). done.
Qed.

Lemma wiring_outputs n n' : wiring n = wiring n' → outputs n = outputs n'.
Proof. unfold wiring, outputs. by intros [= -> _ ->]. Qed.

Lemma substituted_node m fc new_fc g5 b g' p n' :
  substitute m fc new_fc g5 = Ok (b, g') → node_at g' p = Some n' →
  p ≠ fc ∧ ∃ n5, node_at g5 p = Some n5 ∧ outputs n' = outputs n5 ∧
                 inputs n' = redirect fc new_fc <$> inputs n5.
Proof.
  intros (g7 & -> & Hw)%substitute_wiring Hn'.
  rewrite node_at_retire in Hn'. case_decide; [done|]. split; [done|].
  rewrite node_at_rewire_all in Hn'. specialize (Hw p).
  destruct (node_at g7 p) as [n7|]; [|done]. injection Hn' as <-.
  destruct (node_at g5 p) as [n5|]; [|done].
  assert (Some (wiring n7) = Some (wiring n5)) as Hw' by exact Hw.
  apply (inj Some) in Hw'.
  exists n5. split; [done|]. split.
  - transitivity (outputs n7); [done|]. by apply wiring_outputs.
  - cbn. unfold wiring in Hw'. by injection Hw' as _ -> _.
Qed.

Lemma substituted_output m fc new_fc g5 b g' src :
  substitute m fc new_fc g5 = Ok (b, g') → get_node_shared_ptr src ≠ fc →
  output_tensor g' src = output_tensor g5 src.
Proof.
  intros (g7 & -> & Hw)%substitute_wiring Hne. unfold output_tensor.
  rewrite node_at_retire, decide_False by done. rewrite node_at_rewire_all.
  specialize (Hw (get_node_shared_ptr src)).
  destruct (node_at g7 (get_node_shared_ptr src)) as [n7|],
           (node_at g5 (get_node_shared_ptr src)) as [n5|]; try done.
  assert (Some (wiring n7) = Some (wiring n5)) as Hw' by exact Hw.
  apply (inj Some) in Hw'. cbn. change (outputs (rewire fc new_fc n7)) with (outputs n7).
  by rewrite (wiring_outputs _ _ Hw').
Qed.

Section Soundness.
Variable transformation_callback : Graph → nat → bool.
Variable validate_and_infer_types : Graph → operator → list Output → list Tensor.

(** Every operator the rewrite builds has at least one output. *)
Hypothesis infers_an_output : ∀ g o args, validate_and_infer_types g o args ≠ [].

Abbreviation this_make_op := (make_op validate_and_infer_types).
Abbreviation this_clone_with_new_inputs := (clone_with_new_inputs validate_and_infer_types).
Abbreviation this_transpose_operands := (transpose_operands validate_and_infer_types).
Abbreviation this_build_fused_node := (build_fused_node validate_and_infer_types).
Abbreviation this_run_on_node := (run_on_node transformation_callback validate_and_infer_types).

Lemma make_op_sound root g o args c g' :
  get_type_info o ≠ Constant → (root < length g)%nat →
  (∀ src, src ∈ args → ∃ c, src = output0 c ∧ usable root g c) →
  this_make_op o args g = Ok (c, g') →
  extends_soundly root g g' ∧ usable root g' c ∧ c = length g.
Proof.
  intros Ho Hlt Hargs Hrun. rewrite make_op_run in Hrun. injection Hrun as <- <-.
  assert (outputs {| op := o; inputs := args;
                     inferred_outputs := validate_and_infer_types g o args;
                     friendly_name := ""; rt_info := [] |} ≠ []) as Hout.
  { unfold outputs. cbn. destruct o; try done; apply infers_an_output. }
  split_and!; [by apply extends_soundly_snoc|by apply usable_snoc|done].
Qed.

Lemma clone_transpose_sound root g t nt b tc c g' :
  node_at g t = Some nt → op nt = a_Transpose → (root < length g)%nat →
  usable root g b → usable root g tc →
  this_clone_with_new_inputs t [output0 b; output0 tc] g = Ok (c, g') →
  extends_soundly root g g' ∧ usable root g' c.
Proof.
  intros Hnt Hop Hlt Hb Htc Hrun. unfold clone_with_new_inputs in Hrun.
  apply bind_Ok_inv in Hrun as (n & ? & [-> ->]%ask_inv & Hrun). rewrite Hnt in Hrun.
  apply make_op_sound with (root := root) in Hrun as (? & ? & _); [done|by rewrite Hop|done|].
  intros src Hsrc. repeat (apply elem_of_cons in Hsrc as [->|Hsrc]); eauto.
  by apply elem_of_nil in Hsrc.
Qed.

Lemma transpose_operands_sound root g old (pm : gmap nat Output) wzp b s oz t tcv r g' :
  node_at g root = Some old → type_info old = FullyConnected →
  pm !! pattern_id transpose_m = Some t → has_type g t Transpose →
  pm !! pattern_id transpose_const_m = Some tcv → has_type g tcv Constant →
  usable root g b → usable root g s → (∀ z, oz = Some z → usable root g z) →
  this_transpose_operands pm wzp b s oz g = Ok (r, g') →
  extends_soundly root g g' ∧ usable root g' r.1.1 ∧ usable root g' r.1.2 ∧
  ∀ z, r.2 = Some z → usable root g' z.
Proof.
  intros Hold Hty Ht (nt & Hnt & Hopt%type_info_Transpose) Htcv (ntc & Hntc & Htyc)
         Hb Hs Hoz Hrun.
  pose proof (node_at_lt _ _ _ Hold) as Hlt.
  unfold transpose_operands in Hrun.
  apply bind_Ok_inv in Hrun as (t' & ? & [Ht' ->]%at_inv & Hrun).
  assert (t' = t) as -> by congruence.
  apply bind_Ok_inv in Hrun as (tcv' & ? & [Htc' ->]%at_inv & Hrun).
  assert (tcv' = tcv) as -> by congruence.
  apply bind_Ok_inv in Hrun as (order_shape & g0 & Hos & Hrun).
  assert (g0 = g) as ->.
  { destruct (type_info_Constant _ Htyc) as (et & os & d & Hopc).
    rewrite (Node_get_shape_Constant _ _ _ _ _ _ Hntc Hopc) in Hos. by injection Hos. }
  apply bind_Ok_inv in Hrun as (b_ps & ? & [-> ->]%ask_inv & Hrun).
  apply bind_Ok_inv in Hrun as (tc & g1 & Htc & Hrun).
  assert (extends_soundly root g g1 ∧ usable root g1 tc) as [Hg1 Hutc].
  { case_bool_decide.
    - unfold Constant_i32, make_shared in Htc. injection Htc as <- <-. split.
      + apply extends_soundly_snoc; [done|]. intros src Hsrc. by apply elem_of_nil in Hsrc.
      + by apply usable_snoc.
    - injection Htc as <- <-. split; [apply extends_soundly_refl|].
      by eapply usable_Constant. }
  pose proof (extends_soundly_length _ _ _ Hg1) as Hl1.
  apply bind_Ok_inv in Hrun as (tb & g2 & Hcb & Hrun).
  apply clone_transpose_sound with (root := root) (nt := nt) in Hcb as [Hg2 Hutb];
    [|by eapply extends_soundly_node_at|done|lia
     |exact (extends_soundly_usable _ _ _ _ Hg1 Hb)|done].
  pose proof (extends_soundly_trans _ _ _ _ Hg1 Hg2) as Hg02.
  pose proof (extends_soundly_length _ _ _ Hg02) as Hl2.
  apply bind_Ok_inv in Hrun as (ts & g3 & Hcs & Hrun).
  apply clone_transpose_sound with (root := root) (nt := nt) in Hcs as [Hg3 Huts];
    [|by eapply extends_soundly_node_at|done|lia
     |exact (extends_soundly_usable _ _ _ _ Hg02 Hs)
     |exact (extends_soundly_usable _ _ _ _ Hg2 Hutc)].
  pose proof (extends_soundly_trans _ _ _ _ Hg02 Hg3) as Hg03.
  pose proof (extends_soundly_length _ _ _ Hg03) as Hl3.
  apply bind_Ok_inv in Hrun as (tz & g4 & Hcz & Hrun).
  injection Hrun as <- <-. cbn.
  destruct wzp.
  - destruct oz as [z|]; [|done].
    apply bind_Ok_inv in Hcz as (tz' & g4' & Hcz & Hret). injection Hret as <- <-.
    apply clone_transpose_sound with (root := root) (nt := nt) in Hcz as [Hg4 Hutz];
      [|by eapply extends_soundly_node_at|done|lia
       |eapply extends_soundly_usable; [exact Hg03|by apply Hoz]
       |eapply extends_soundly_usable; [exact (extends_soundly_trans _ _ _ _ Hg2 Hg3)|done]].
    split_and!.
    + exact (extends_soundly_trans _ _ _ _ Hg03 Hg4).
    + exact (extends_soundly_usable _ _ _ _ (extends_soundly_trans _ _ _ _ Hg3 Hg4) Hutb).
    + exact (extends_soundly_usable _ _ _ _ Hg4 Huts).
    + by intros ? [= <-].
  - injection Hcz as <- <-. split_and!; try done.
    + exact (extends_soundly_usable _ _ _ _ Hg3 Hutb).
    + intros z Hz. eapply extends_soundly_usable; [exact Hg03|by apply Hoz].
Qed.

Lemma build_fused_node_sound g root m gr new_fc g5 :
  well_formed g = true → match_facts g root m →
  this_build_fused_node m root (count (get_pattern_value_map m) transpose_m) gr g =
    Ok (new_fc, g5) →
  extends_soundly root g g5 ∧ usable root g5 new_fc ∧ (length g ≤ new_fc)%nat.
Proof.
  intros Hwf Hmf Hrun.
  destruct Hmf as [Hroot (old & data_v & b_v & Hold & Hty & Hin & Hdata)
                   (w & Hw & Hwt & _) _ (s & Hs & Hst & _) Hzp Htr _].
  pose proof (node_at_lt _ _ _ Hold) as Hlt.
  assert (usable root g (get_node_shared_ptr data_v)) as Hdata_ok.
  { destruct (well_formed_edge _ _ _ data_v Hwf Hold) as [[ts Hts] Hne].
    { rewrite Hin. left. }
    split; [done|]. unfold output_tensor in Hts.
    destruct (node_at g (get_node_shared_ptr data_v)) as [nd|]; [|done].
    exists nd. split; [done|]. cbn in Hts. intros E. by rewrite E in Hts. }
  unfold build_fused_node in Hrun.
  apply bind_Ok_inv in Hrun as (a & g0 & Ha & Hrun).
  assert (a = get_node_shared_ptr data_v ∧ g0 = g) as [-> ->].
  { unfold get_input_node_shared_ptr, ask, bind in Ha. rewrite Hold in Ha. cbn in Ha.
    rewrite Hin in Ha. cbn in Ha. by injection Ha as <- <-. }
  apply bind_Ok_inv in Hrun as (s' & ? & [Hs' ->]%at_inv & Hrun).
  apply bind_Ok_inv in Hrun as (cs & g1 & Hcs & Hrun).
  apply reshape_const_to_2d_sound with (root := root) (old := old) in Hcs as [Hg1 Hucs];
    [|done..].
  apply bind_Ok_inv in Hrun as (oz & g2 & Hcz & Hrun).
  assert (extends_soundly root g1 g2 ∧ (∀ z, oz = Some z → usable root g2 z)) as [Hg2 Huz].
  { destruct (count (get_pattern_value_map m) subtract_m).
    - apply bind_Ok_inv in Hcz as (zv & ? & [_ ->]%at_inv & Hcz).
      apply bind_Ok_inv in Hcz as (cz & g2' & Hcz & Hret). injection Hret as <- <-.
      apply reshape_const_to_2d_sound with (root := root) (old := old) in Hcz as [? ?];
        [|by eapply extends_soundly_node_at|done].
      split; [done|]. by intros ? [= <-].
    - injection Hcz as <- <-. split; [apply extends_soundly_refl|done]. }
  pose proof (extends_soundly_trans _ _ _ _ Hg1 Hg2) as Hg02.
  apply bind_Ok_inv in Hrun as (w' & ? & [Hw' ->]%at_inv & Hrun).
  apply bind_Ok_inv in Hrun as (cw & g3 & Hcw & Hrun).
  apply reshape_const_to_2d_sound with (root := root) (old := old) in Hcw as [Hg3 Hucw];
    [|by eapply extends_soundly_node_at|done].
  pose proof (extends_soundly_trans _ _ _ _ Hg02 Hg3) as Hg03.
  apply bind_Ok_inv in Hrun as (operands & g4 & Hops & Hrun).
  assert (extends_soundly root g3 g4 ∧ usable root g4 operands.1.1 ∧
          usable root g4 operands.1.2 ∧ ∀ z, operands.2 = Some z → usable root g4 z)
    as (Hg4 & Hub & Hus & Huzp).
  { destruct (count (get_pattern_value_map m) transpose_m).
    - destruct Htr as (t & tc & Ht & (nt & Hnt & Htyt) & Htc & (ntc & Hntc & Htyc)).
      eapply transpose_operands_sound with (old := old) (t := t) (tcv := tc) in Hops;
        [exact Hops|by eapply extends_soundly_node_at|done|done| |done| |done| |].
      + exists nt. split; [by eapply extends_soundly_node_at|done].
      + exists ntc. split; [by eapply extends_soundly_node_at|done].
      + eapply extends_soundly_usable; [exact (extends_soundly_trans _ _ _ _ Hg2 Hg3)|done].
      + intros z Hz. eapply extends_soundly_usable; [exact Hg3|by apply Huz].
    - injection Hops as <- <-. cbn. split_and!; try done.
      + apply extends_soundly_refl.
      + eapply extends_soundly_usable; [exact (extends_soundly_trans _ _ _ _ Hg2 Hg3)|done].
      + intros z Hz. eapply extends_soundly_usable; [exact Hg3|by apply Huz]. }
  pose proof (extends_soundly_trans _ _ _ _ Hg03 Hg4) as Hg04.
  pose proof (extends_soundly_length _ _ _ Hg04) as Hl4.
  apply bind_Ok_inv in Hrun as (t & ? & ->%get_output_type_inv & Hrun).
  assert (∃ args, this_make_op (a_FullyConnectedCompressed t) args g4 = Ok (new_fc, g5) ∧
                  ∀ src, src ∈ args → ∃ c, src = output0 c ∧ usable root g4 c)
    as (args & Hmake & Hargs).
  { pose proof (extends_soundly_usable _ _ _ _ Hg04 Hdata_ok) as Hd4.
    destruct (count (get_pattern_value_map m) subtract_m).
    - destruct (operands.2) as [zp|] eqn:Ez; [|done].
      eexists. split; [exact Hrun|]. intros src Hsrc.
      repeat (apply elem_of_cons in Hsrc as [->|Hsrc]); eauto.
      by apply elem_of_nil in Hsrc.
    - eexists. split; [exact Hrun|]. intros src Hsrc.
      repeat (apply elem_of_cons in Hsrc as [->|Hsrc]); eauto.
      by apply elem_of_nil in Hsrc. }
  apply make_op_sound with (root := root) in Hmake as (Hg5 & Hu5 & ->); [|done|lia|done].
  split_and!; [by eapply extends_soundly_trans|done|done].
Qed.

Lemma run_on_node_substitute g root g' :
  well_formed g = true → this_run_on_node root g = Ok (true, g') →
  ∃ m old new_fc g5,
    node_at g root = Some old ∧ type_info old = FullyConnected ∧
    extends_soundly root g g5 ∧ usable root g5 new_fc ∧ (length g ≤ new_fc)%nat ∧
    substitute m root new_fc g5 = Ok (true, g').
Proof.
  intros Hwf Hrun.
  destruct (run_on_node_true _ _ _ _ _ Hwf Hrun) as (m & f & Hm & Hveto & Hcan & _).
  pose proof (match_facts_of_match _ _ _ Hm) as Hmf.
  rewrite (run_on_node_match _ _ _ _ _ Hm) in Hrun.
  pose proof Hmf as [_ (old & _ & _ & Hold & Hty & _) _ _ (s & Hs & Hst & Hsc) _ _ _].
  destruct (scale_value_shape _ _ Hwf Hst Hsc) as (ns & et & ss & d & _ & _ & Hshape & _).
  rewrite (callback_prefix _ _ _ _ _ _ _ Hmf Hveto Hs Hshape) in Hrun.
  apply bind_Ok_inv in Hrun as (new_fc & g5 & Hbuild & Hsub).
  destruct (build_fused_node_sound _ _ _ _ _ _ Hwf Hmf Hbuild) as (Hext & Hnew & Hge).
  by exists m, old, new_fc, g5.
Qed.

Lemma substituted_graph_well_formed g root m old new_fc g5 b g' :
  well_formed g = true →
  node_at g root = Some old → length (outputs old) = 1%nat →
  extends_soundly root g g5 → usable root g5 new_fc → (length g ≤ new_fc)%nat →
  substitute m root new_fc g5 = Ok (b, g') →
  well_formed g' = true.
Proof.
  intros Hwf Hold Hone Hext Hnew Hge Hsub.
  pose proof (node_at_lt _ _ _ Hold) as Hlt.
  assert (new_fc ≠ root) as Hne by lia.
  apply well_formed_intro. intros p n' src' Hn' Hsrc'.
  destruct (substituted_node _ _ _ _ _ _ _ _ Hsub Hn') as (Hp & n5 & Hn5 & _ & Hin).
  rewrite Hin in Hsrc'. apply list_elem_of_fmap in Hsrc' as (src & -> & Hsrc).
  assert (is_Some (output_tensor g5 src) ∧ get_node_shared_ptr src ≠ p ∧
          (get_node_shared_ptr src = root →
           is_Some (output_tensor g src) ∧ (p < length g)%nat))
    as (Hout & Hself & Hroot).
  { destruct (decide (p < length g)%nat) as [Hpl|Hpg].
    - destruct Hext as [(ext & ->) _]. rewrite node_at_app_lt in Hn5 by done.
      destruct (well_formed_edge _ _ _ _ Hwf Hn5 Hsrc) as [Ho Hs5].
      split_and!; [by rewrite output_tensor_app|done|done].
    - destruct Hext as [_ Hext]. destruct (Hext p n5) as [_ He]; [lia|done|].
      destruct (He src Hsrc) as [[Ho Hs5]%edge_ok_true Hr]. done. }
  apply edge_ok_true. unfold redirect. case_decide as Hr.
  - cbn. split; [|destruct (Hroot Hr); lia].
    rewrite (substituted_output _ _ _ _ _ _ (mk_Output new_fc (get_index src)) Hsub)
      by done.
    destruct (Hroot Hr) as [[ts Hts] Hpl]. unfold output_tensor in Hts.
    rewrite Hr, Hold in Hts. cbn in Hts.
    assert (get_index src = 0%nat) as ->.
    { apply lookup_lt_Some in Hts. lia. }
    destruct Hnew as [_ (nn & Hnn & Honn)]. unfold output_tensor. cbn. rewrite Hnn. cbn.
    destruct (outputs nn); [done|]. by eexists.
  - split; [|done]. by rewrite (substituted_output _ _ _ _ _ _ src Hsub).
Qed.

(** X17.  The rewrite preserves the consistency the pass takes for granted.
    If every input of every live node reads an output that exists and no
    node reads itself, the matched root has one output, and inference gives
    every operator the rewrite builds at least one output, then the same
    consistency holds of the graph after the rewrite: the nodes it builds
    read outputs that exist, and every consumer of the root reads an output
    of the fused node that exists. *)
Theorem rewrite_preserves_well_formedness g root g' :
  well_formed g = true →
  (∀ n, node_at g root = Some n → length (outputs n) = 1%nat) →
  this_run_on_node root g = Ok (true, g') →
  well_formed g' = true.
Proof.
  intros Hwf Hone Hrun.
  destruct (run_on_node_substitute _ _ _ Hwf Hrun)
    as (m & old & new_fc & g5 & Hold & _ & Hext & Hnew & Hge & Hsub).
  eapply substituted_graph_well_formed; eauto.
Qed.

End Soundness.

Lemma rewrite_preserves_well_formedness_witness :
  well_formed (rewritten grouped_graph 7) = true.
Proof.
  apply (rewrite_preserves_well_formedness allow_all unknown_output) with (root := 7%nat)
                                                                         (g := grouped_graph).
  - intros g o args. discriminate.
  - vm_compute. reflexivity.
  - intros n Hn. vm_compute in Hn. injection Hn as <-. reflexivity.
  - vm_compute. reflexivity.
Defined.

(** ** Every run of the pass *)

Lemma elem_of_fully_connected_nodes g p :
  p ∈ fully_connected_nodes g ↔
  ∃ n, node_at g p = Some n ∧ type_info n = FullyConnected.
Proof.
  unfold fully_connected_nodes. rewrite list_elem_of_filter, elem_of_seq. split.
  - intros [H _]. destruct (node_at g p) as [n|]; [|done].
    exists n. split; [done|]. by injection H.
  - intros (n & Hn & Hty). rewrite Hn. cbn. rewrite Hty. split; [done|].
    apply node_at_lt in Hn. lia.
Qed.

Lemma NoDup_fully_connected_nodes g : NoDup (fully_connected_nodes g).
Proof. apply NoDup_filter, NoDup_seq. Qed.

Lemma one_output_roots_true g :
  one_output_roots g = true ↔
  ∀ p n, node_at g p = Some n → type_info n = FullyConnected →
         length (outputs n) = 1%nat.
Proof.
  unfold one_output_roots. rewrite forallb_forall. split.
  - intros H p n Hn Hty. unfold node_at in Hn.
    destruct (g !! p) as [[n'|]|] eqn:E; try done. cbn in Hn. injection Hn as ->.
    specialize (H (Some n)). cbn in H. rewrite decide_True in H by done.
    eapply bool_decide_eq_true_1, H, list_elem_of_In, list_elem_of_lookup_2, E.
  - intros H [n|] Hin; [|done]. apply list_elem_of_In in Hin.
    apply list_elem_of_lookup in Hin as (p & Hp).
    case_decide as Hty; [|done]. apply bool_decide_eq_true.
    apply (H p n); [|done]. unfold node_at. by rewrite Hp.
Qed.

Section Runs.
Variable transformation_callback : Graph → nat → bool.
Variable validate_and_infer_types : Graph → operator → list Output → list Tensor.
Hypothesis infers_an_output : ∀ g o args, validate_and_infer_types g o args ≠ [].

Abbreviation this_run_on_node := (run_on_node transformation_callback validate_and_infer_types).
Abbreviation this_pass_run := (pass_run transformation_callback validate_and_infer_types).

Lemma rewritten_types g root g' :
  well_formed g = true → this_run_on_node root g = Ok (true, g') →
  (∃ old, node_at g root = Some old ∧ type_info old = FullyConnected) ∧
  ∀ p, (∃ n', node_at g' p = Some n' ∧ type_info n' = FullyConnected) ↔
       p ≠ root ∧ ∃ n, node_at g p = Some n ∧ type_info n = FullyConnected.
Proof.
  intros Hwf Hrun.
  destruct (run_on_node_true _ _ _ _ _ Hwf Hrun) as (m & f & _ & _ & _ & Hf).
  destruct Hf as [Hold Hret Hnew Hfused Hframe Haux (t & Hto & Htn) _ _ _ _ _ _ _ _].
  split.
  { exists (fc_old f). split; [done|]. unfold type_info. by rewrite Hto. }
  intros p. split.
  - intros (n' & Hn' & Hty).
    assert (p ≠ root) as Hp by (intros ->; congruence). split; [done|].
    destruct (decide (p < length g)%nat) as [Hlt|Hge].
    + rewrite Hframe in Hn' by done.
      destruct (node_at g p) as [n|]; [|done]. injection Hn' as <-. by exists n.
    + destruct (decide (p = new_fc f)) as [->|Hne].
      * rewrite Hfused in Hn'. injection Hn' as <-.
        unfold type_info in Hty. by rewrite Htn in Hty.
      * destruct (Haux p n') as [E|E]; [lia|done|done|..]; by rewrite E in Hty.
  - intros (Hp & n & Hn & Hty). exists (rewire root (new_fc f) n). split; [|done].
    rewrite Hframe; [by rewrite Hn|by eapply node_at_lt|done].
Qed.

Lemma fully_connected_nodes_rewritten g root g' :
  well_formed g = true → this_run_on_node root g = Ok (true, g') →
  fully_connected_nodes g ≡ₚ (root :: fully_connected_nodes g').
Proof.
  intros Hwf Hrun.
  destruct (rewritten_types _ _ _ Hwf Hrun) as [Hroot Hiff].
  apply NoDup_Permutation.
  - apply NoDup_fully_connected_nodes.
  - apply NoDup_cons. split; [|apply NoDup_fully_connected_nodes].
    rewrite elem_of_fully_connected_nodes, Hiff. by intros [? _].
  - intros p. rewrite elem_of_cons, !elem_of_fully_connected_nodes, Hiff.
    destruct (decide (p = root)) as [->|Hne]; [|tauto].
    split; [by left|]. by intros _.
Qed.

(** X18.  Each rewrite consumes exactly one fully-connected node and creates
    none: the live fully-connected nodes before a rewrite at [root] are
    [root] and those after it, so their number goes down by one. *)
Theorem each_rewrite_consumes_its_root g root g' :
  well_formed g = true →
  this_run_on_node root g = Ok (true, g') →
  root ∈ fully_connected_nodes g ∧ (root ∉ fully_connected_nodes g') ∧
  fully_connected_nodes g ≡ₚ (root :: fully_connected_nodes g') ∧
  length (fully_connected_nodes g) = S (length (fully_connected_nodes g')).
Proof.
  intros Hwf Hrun.
  pose proof (fully_connected_nodes_rewritten _ _ _ Hwf Hrun) as Hperm.
  destruct (rewritten_types _ _ _ Hwf Hrun) as [Hroot Hiff].
  split_and!; try done.
  - by apply elem_of_fully_connected_nodes.
  - rewrite elem_of_fully_connected_nodes, Hiff. by intros [? _].
  - by rewrite Hperm.
Qed.

Lemma step_preserves_one_output_roots g root g' :
  well_formed g = true → this_run_on_node root g = Ok (true, g') →
  one_output_roots g = true → one_output_roots g' = true.
Proof.
  intros Hwf Hrun. rewrite !one_output_roots_true. intros H p n' Hn' Hty.
  destruct (run_on_node_true _ _ _ _ _ Hwf Hrun) as (m & f & _ & _ & _ & Hf).
  destruct Hf as [Hold Hret Hnew Hfused Hframe Haux (t & Hto & Htn) _ _ _ _ _ _ _ _].
  assert (p ≠ root) as Hp by (intros ->; congruence).
  destruct (decide (p < length g)%nat) as [Hlt|Hge].
  - rewrite Hframe in Hn' by done.
    destruct (node_at g p) as [n|] eqn:Hn; [|done]. injection Hn' as <-.
    by apply (H p n).
  - destruct (decide (p = new_fc f)) as [->|Hne].
    + rewrite Hfused in Hn'. injection Hn' as <-.
      unfold type_info in Hty. by rewrite Htn in Hty.
    + destruct (Haux p n') as [E|E]; [lia|done|done|..]; by rewrite E in Hty.
Qed.

(** X19.  Along every run of the pass (any number of attempts, at any nodes,
    in any order) the graph stays consistent and its fully-connected nodes
    keep their one output, and the number of rewrites is the number of
    fully-connected nodes that have gone: the pass rewrites at most as many
    times as the graph has fully-connected nodes. *)
Theorem pass_run_is_sound_and_bounded k g g' :
  this_pass_run k g g' →
  well_formed g = true → one_output_roots g = true →
  well_formed g' = true ∧ one_output_roots g' = true ∧
  (length (fully_connected_nodes g') + k)%nat = length (fully_connected_nodes g).
Proof.
  induction 1 as [g|k p g g1 g' Hstep _ IH|k p g g1 g' Hstep _ IH]; intros Hwf Hone.
  - split_and!; first [done|lia].
  - apply run_on_node_false_inv in Hstep as ->. by apply IH.
  - pose proof (fully_connected_nodes_rewritten _ _ _ Hwf Hstep) as Hperm.
    destruct (run_on_node_substitute _ _ infers_an_output _ _ _ Hwf Hstep)
      as (m & old & new_fc & g5 & Hold & Hty & Hext & Hnew & Hge & Hsub).
    destruct IH as (Hwf' & Hone' & Hcount).
    + eapply substituted_graph_well_formed; eauto.
      by apply (proj1 (one_output_roots_true g) Hone p).
    + by eapply step_preserves_one_output_roots.
    + split_and!; try done. rewrite Hperm. cbn. lia.
Qed.

End Runs.

Lemma each_rewrite_consumes_its_root_witness :
  length (fully_connected_nodes grouped_graph) =
  S (length (fully_connected_nodes (rewritten grouped_graph 7))).
Proof.
  apply (each_rewrite_consumes_its_root allow_all unknown_output grouped_graph 7
           (rewritten grouped_graph 7)); vm_compute; reflexivity.
Defined.

Lemma pass_run_is_sound_and_bounded_witness :
  well_formed (rewritten grouped_graph 7) = true ∧
  one_output_roots (rewritten grouped_graph 7) = true ∧
  (length (fully_connected_nodes (rewritten grouped_graph 7)) + 1)%nat =
    length (fully_connected_nodes grouped_graph).
Proof.
  apply (pass_run_is_sound_and_bounded allow_all unknown_output).
  - intros g o args. discriminate.
  - apply pass_rewrite with (p := 7%nat) (g1 := rewritten grouped_graph 7).
    + vm_compute. reflexivity.
    + apply pass_done.
  - vm_compute. reflexivity.
  - vm_compute. reflexivity.
Defined.

(** ** The operands behind a matched transpose *)

Lemma consumed_constant_index g v :
  well_formed g = true → has_type g v Constant →
  length (get_target_inputs g v) = 1%nat → v = output0 (get_node_shared_ptr v).
Proof.
  intros Hwf Hty Hlen.
  destruct (get_target_inputs g v) as [|[p i] l] eqn:E; [done|].
  assert ((p, i) ∈ get_target_inputs g v) as Hin by (rewrite E; left).
  apply elem_of_get_target_inputs in Hin as (n & Hn & Hi).
  apply list_elem_of_lookup_2 in Hi.
  destruct (well_formed_edge g p n v Hwf Hn Hi) as [Hout _].
  exact (constant_value_index g v Hty Hout).
Qed.

Lemma converted_weights_index g cvt w :
  well_formed g = true → converted_weights g cvt w → w = output0 (get_node_shared_ptr w).
Proof.
  intros Hwf (_ & Hty & Hc). apply (consumed_constant_index g); [done..|].
  by apply compressed_constant_single.
Qed.

Lemma single_use_constant_index g c :
  well_formed g = true → single_use_constant g c → c = output0 (get_node_shared_ptr c).
Proof.
  intros Hwf [Hty Hc]. apply (consumed_constant_index g); [done..|].
  by apply bool_decide_eq_true in Hc.
Qed.

Lemma matched_constant_nodes_distinct g root m weights scale :
  well_formed g = true →
  Matcher_match fully_connected_m g root = Some m →
  get_pattern_value_map m !! pattern_id weights_m = Some weights →
  get_pattern_value_map m !! pattern_id mul_const_m = Some scale →
  get_node_shared_ptr weights ≠ get_node_shared_ptr scale ∧
  ∀ zero_point,
    get_pattern_value_map m !! pattern_id sub_const_m = Some zero_point →
    get_node_shared_ptr zero_point ≠ get_node_shared_ptr weights ∧
    get_node_shared_ptr zero_point ≠ get_node_shared_ptr scale.
Proof.
  intros Hwf Hp%pattern_at_of_match Hw' Hsc'.
  pattern_cases Hp.
  all: match goal with
       | Hc : converted_weights _ _ ?w0, Hm : reads _ _ Multiply [_; ?sc0],
         Hs : single_use_constant _ ?sc0 |- _ =>
           assert (Some weights = Some w0) as [= ->] by (rewrite <- Hw'; reflexivity);
           assert (Some scale = Some sc0) as [= ->] by (rewrite <- Hsc'; reflexivity);
           pose proof (weights_not_scale _ _ _ _ _ _ Hc Hm) as Hne;
           pose proof (converted_weights_index _ _ _ Hwf Hc) as Hiw;
           pose proof (single_use_constant_index _ _ Hwf Hs) as His
       end.
  all: split; [congruence|].
  all: intros zp' Hzp'.
  all: first
         [by vm_compute in Hzp'
         |assert (Some zp' = Some zp) as [= ->] by (rewrite <- Hzp'; reflexivity);
          pose proof (single_use_constant_index _ _ Hwf Hzp) as Hiz;
          destruct (zero_point_not_weights_nor_scale _ _ _ _ _ _ _ _ Hsub Hcvt Hzp Hmul);
          split; congruence].
Qed.

Lemma reshape_const_to_2d_address ht gr p g c g' :
  reshape_const_to_2d ht gr p g = Ok (c, g') →
  (∃ ext, g' = g ++ ext) ∧ (length g ≤ length g')%nat ∧
  (p < length g)%nat ∧ (c < length g')%nat ∧ (c = p ∨ (length g ≤ c)%nat).
Proof.
  intros Hrun.
  destruct (reshape_const_to_2d_result _ _ _ _ _ _ Hrun)
    as (n & et & s & d & Hn & Hop & [(Hlen & -> & ->)|(Hlen & -> & ->)]);
    pose proof (node_at_lt _ _ _ Hn).
  - split_and!; try done; first [by exists []; rewrite app_nil_r|by left|lia].
  - rewrite length_app. cbn. split_and!; first [lia|by eexists|right; lia].
Qed.

Lemma get_shape_inv o g s g1 : get_shape o g = Ok (s, g1) → g1 = g.
Proof.
  unfold get_shape. intros H.
  apply bind_Ok_inv in H as (ps & ? & [-> ->]%ask_inv & H).
  destruct (get_partial_shape g o ≫= to_shape); [|done]. by injection H as _ <-.
Qed.

Lemma Node_get_shape_inv p g s g1 : Node_get_shape p g = Ok (s, g1) → g1 = g.
Proof.
  unfold Node_get_shape. intros H.
  apply bind_Ok_inv in H as (n & ? & [-> ->]%ask_inv & H).
  destruct (node_at g p); [|done].
  apply bind_Ok_inv in H as (? & ? & [_ ->]%OPENVINO_ASSERT_inv & H).
  by apply get_shape_inv in H.
Qed.

Lemma substituted_forward m fc new_fc g5 b g' p n5 :
  substitute m fc new_fc g5 = Ok (b, g') → node_at g5 p = Some n5 → p ≠ fc →
  ∃ n', node_at g' p = Some n' ∧ op n' = op n5 ∧
        inputs n' = redirect fc new_fc <$> inputs n5.
Proof.
  intros (g7 & -> & Hw)%substitute_wiring Hn5 Hp.
  specialize (Hw p). rewrite Hn5 in Hw.
  destruct (node_at g7 p) as [n7|] eqn:Hn7; [|done].
  assert (Some (wiring n7) = Some (wiring n5)) as Hw' by exact Hw.
  apply (inj Some) in Hw'. unfold wiring in Hw'. injection Hw' as Hop Hin _.
  exists (rewire fc new_fc n7). split_and!.
  - rewrite node_at_retire, decide_False by done. by rewrite node_at_rewire_all, Hn7.
  - done.
  - cbn. by rewrite Hin.
Qed.

Section Transposed.
Variable transformation_callback : Graph → nat → bool.
Variable validate_and_infer_types : Graph → operator → list Output → list Tensor.

Abbreviation this_clone_with_new_inputs := (clone_with_new_inputs validate_and_infer_types).
Abbreviation this_transpose_operands := (transpose_operands validate_and_infer_types).
Abbreviation this_build_fused_node := (build_fused_node validate_and_infer_types).
Abbreviation this_run_on_node := (run_on_node transformation_callback validate_and_infer_types).

Lemma clone_with_new_inputs_inv node args g c g' :
  this_clone_with_new_inputs node args g = Ok (c, g') →
  ∃ n', c = length g ∧ g' = g ++ [Some n'] ∧ inputs n' = args.
Proof.
  unfold clone_with_new_inputs. intros H.
  apply bind_Ok_inv in H as (n & ? & [-> ->]%ask_inv & H).
  destruct (node_at g node); [|done].
  rewrite make_op_run in H. injection H as <- <-. by eexists.
Qed.

Lemma transpose_operands_addresses (pm : gmap nat Output) wzp b s oz g r g' :
  this_transpose_operands pm wzp b s oz g = Ok (r, g') →
  ∃ tc, (length g ≤ length g')%nat ∧
        (length g ≤ r.1.1)%nat ∧ (r.1.1 < r.1.2)%nat ∧
        inputs <$> node_at g' r.1.1 = Some [output0 b; output0 tc] ∧
        inputs <$> node_at g' r.1.2 = Some [output0 s; output0 tc] ∧
        if wzp
        then ∃ z tz, oz = Some z ∧ r.2 = Some tz ∧ (r.1.2 < tz)%nat ∧
                     inputs <$> node_at g' tz = Some [output0 z; output0 tc]
        else r.2 = oz.
Proof.
  unfold transpose_operands. intros H.
  apply bind_Ok_inv in H as (t & ? & [_ ->]%at_inv & H).
  apply bind_Ok_inv in H as (tcv & ? & [_ ->]%at_inv & H).
  apply bind_Ok_inv in H as (order_shape & ? & ->%Node_get_shape_inv & H).
  apply bind_Ok_inv in H as (b_ps & ? & [-> ->]%ask_inv & H).
  apply bind_Ok_inv in H as (tc & g1 & Htc & H).
  assert (length g ≤ length g1)%nat as Hl1.
  { case_bool_decide.
    - unfold Constant_i32, make_shared in Htc. injection Htc as <- <-.
      rewrite length_app. lia.
    - by injection Htc as <- <-. }
  apply bind_Ok_inv in H as (tb & g2 & (nb & -> & -> & Hib)%clone_with_new_inputs_inv & H).
  apply bind_Ok_inv in H as (ts & g3 & (ns & -> & -> & His)%clone_with_new_inputs_inv & H).
  apply bind_Ok_inv in H as (tz & g4 & Hz & H). injection H as <- <-. cbn [fst snd].
  exists tc.
  assert (node_at (g1 ++ [Some nb]) (length g1) = Some nb) as Hnb by apply node_at_snoc.
  assert (node_at ((g1 ++ [Some nb]) ++ [Some ns]) (length (g1 ++ [Some nb])) = Some ns)
    as Hns by apply node_at_snoc.
  pose proof (node_at_app_l _ [Some ns] _ _ Hnb) as Hnb3.
  destruct wzp.
  - destruct oz as [z|]; [|done].
    apply bind_Ok_inv in Hz as (tz' & g4' & (nz & -> & -> & Hiz)%clone_with_new_inputs_inv
                                & Hret).
    injection Hret as <- <-.
    rewrite (node_at_app_l _ [Some nz] _ _ Hnb3), (node_at_app_l _ [Some nz] _ _ Hns).
    cbn. rewrite Hib, His. rewrite !length_app. cbn.
    split_and!; try done; try lia.
    exists z. eexists. split_and!; try done.
    + lia.
    + pose proof (node_at_snoc ((g1 ++ [Some nb]) ++ [Some ns]) nz) as Hnz.
      rewrite !length_app in Hnz. cbn in Hnz. rewrite Hnz. cbn. by rewrite Hiz.
  - injection Hz as <- <-. rewrite Hnb3, Hns. cbn. rewrite Hib, His.
    rewrite !length_app. cbn. split_and!; try done; lia.
Qed.

Lemma build_fused_node_transposed g root m gr new_fc g5 :
  well_formed g = true →
  Matcher_match fully_connected_m g root = Some m →
  this_build_fused_node m root true gr g = Ok (new_fc, g5) →
  ∃ fused0 b s cw cs tc zl,
    node_at g5 new_fc = Some fused0 ∧ (length g ≤ new_fc)%nat ∧
    type_info fused0 = FullyConnectedCompressed ∧
    (∃ d, inputs fused0 = d :: output0 b :: output0 s :: zl) ∧
    inputs <$> node_at g5 b = Some [output0 cw; output0 tc] ∧
    inputs <$> node_at g5 s = Some [output0 cs; output0 tc] ∧
    (length g ≤ b)%nat ∧ (b < s)%nat ∧ cw ≠ cs ∧
    if count (get_pattern_value_map m) subtract_m
    then ∃ z cz, zl = [output0 z] ∧
                 inputs <$> node_at g5 z = Some [output0 cz; output0 tc] ∧
                 (s < z)%nat ∧ cz ≠ cw ∧ cz ≠ cs
    else zl = [].
Proof.
  intros Hwf Hm Hrun.
  pose proof (match_facts_of_match _ _ _ Hm)
    as [_ _ (w & Hw & Hwt & _) _ (s & Hs & Hst & _) Hzp _ _].
  destruct (matched_constant_nodes_distinct _ _ _ _ _ Hwf Hm Hw Hs) as [Hws Hzd].
  apply has_type_lt in Hwt, Hst.
  unfold build_fused_node in Hrun.
  apply bind_Ok_inv in Hrun as (a & ? & ->%get_input_node_shared_ptr_inv & Hrun).
  apply bind_Ok_inv in Hrun as (s' & ? & [Hs' ->]%at_inv & Hrun).
  assert (s' = s) as -> by congruence.
  apply bind_Ok_inv in Hrun as (cs & g1 & Hcs & Hrun).
  apply reshape_const_to_2d_address in Hcs as (_ & Hl1 & _ & Hcs1 & Hcs2).
  revert Hzp Hrun. destruct (count (get_pattern_value_map m) subtract_m); intros Hzp Hrun.
  - destruct Hzp as (z & Hz & Hzt%has_type_lt & _).
    destruct (Hzd z Hz) as [Hzw Hzs].
    apply bind_Ok_inv in Hrun as (oz & g2 & Hblock & Hrun).
    apply bind_Ok_inv in Hblock as (z' & ? & [Hz' ->]%at_inv & Hblock).
    assert (z' = z) as -> by congruence.
    apply bind_Ok_inv in Hblock as (cz & g2' & Hcz & Hret). injection Hret as <- <-.
    apply reshape_const_to_2d_address in Hcz as (_ & Hl2 & _ & Hcz1 & Hcz2).
    apply bind_Ok_inv in Hrun as (w' & ? & [Hw' ->]%at_inv & Hrun).
    assert (w' = w) as -> by congruence.
    apply bind_Ok_inv in Hrun as (cw & g3 & Hcw & Hrun).
    apply reshape_const_to_2d_address in Hcw as (_ & Hl3 & _ & Hcw1 & Hcw2).
    apply bind_Ok_inv in Hrun as (operands & g4 & Hops & Hrun).
    apply transpose_operands_addresses in Hops
      as (tc & Hl4 & Hb1 & Hbs & Hib & His & (z0 & tz & [= <-] & Htz & Hsz & Hiz)).
    apply bind_Ok_inv in Hrun as (t & ? & ->%get_output_type_inv & Hrun).
    rewrite Htz in Hrun. rewrite make_op_run in Hrun. injection Hrun as <- <-.
    destruct (node_at g4 operands.1.1) as [nb|] eqn:Hnb; [|done].
    destruct (node_at g4 operands.1.2) as [ns|] eqn:Hns; [|done].
    destruct (node_at g4 tz) as [nz|] eqn:Hnz; [|done].
    eexists _, operands.1.1, operands.1.2, cw, cs, tc, [output0 tz].
    split_and!; [apply node_at_snoc|lia|done|by eexists|..].
    + by rewrite (node_at_app_l _ _ _ _ Hnb).
    + by rewrite (node_at_app_l _ _ _ _ Hns).
    + lia.
    + done.
    + lia.
    + exists tz, cz. split_and!; try done; [by rewrite (node_at_app_l _ _ _ _ Hnz)|lia..].
  - apply bind_Ok_inv in Hrun as (oz & g2 & Hblock & Hrun). injection Hblock as <- <-.
    apply bind_Ok_inv in Hrun as (w' & ? & [Hw' ->]%at_inv & Hrun).
    assert (w' = w) as -> by congruence.
    apply bind_Ok_inv in Hrun as (cw & g3 & Hcw & Hrun).
    apply reshape_const_to_2d_address in Hcw as (_ & Hl3 & _ & Hcw1 & Hcw2).
    apply bind_Ok_inv in Hrun as (operands & g4 & Hops & Hrun).
    apply transpose_operands_addresses in Hops as (tc & Hl4 & Hb1 & Hbs & Hib & His & _).
    apply bind_Ok_inv in Hrun as (t & ? & ->%get_output_type_inv & Hrun).
    rewrite make_op_run in Hrun. injection Hrun as <- <-.
    destruct (node_at g4 operands.1.1) as [nb|] eqn:Hnb; [|done].
    destruct (node_at g4 operands.1.2) as [ns|] eqn:Hns; [|done].
    eexists _, operands.1.1, operands.1.2, cw, cs, tc, [].
    split_and!; [apply node_at_snoc|lia|done|by eexists|..].
    + by rewrite (node_at_app_l _ _ _ _ Hnb).
    + by rewrite (node_at_app_l _ _ _ _ Hns).
    + lia.
    + done.
    + lia.
    + done.
Qed.

Lemma transposed_operand_source m root new_fc g5 r g' fused x c5 t5 c tc :
  substitute m root new_fc g5 = Ok (r, g') →
  node_at g' new_fc = Some fused → type_info fused = FullyConnectedCompressed →
  inputs <$> node_at g5 x = Some [output0 c5; output0 t5] → x ≠ root →
  transposed_by g' x c tc → (∃ nc, node_at g' c = Some nc ∧ type_info nc = Constant) →
  c = c5.
Proof.
  intros Hsub Hfused Hty Hx5 Hx (n & Hn & _ & Hin) (nc & Hnc & Htc).
  destruct (node_at g5 x) as [n5|] eqn:Hn5; [|done]. injection Hx5 as Hin5.
  destruct (substituted_forward _ _ _ _ _ _ _ _ Hsub Hn5 Hx) as (n' & Hn' & _ & Hin').
  assert (n' = n) as -> by congruence.
  rewrite Hin, Hin5 in Hin'. injection Hin' as Hc _.
  unfold redirect in Hc. cbn in Hc. case_decide as E.
  - injection Hc as ->. rewrite Hfused in Hnc. injection Hnc as <-. congruence.
  - by injection Hc.
Qed.

(** C4.  Whenever a transpose is matched and the rewrite goes through, the one
    fused node the rewrite builds, which the consumers of the retired root
    now read, has these operands.  Its weight and scale operands are two
    different new nodes, transposes by one and the same permutation constant
    of two different constants: the canonicalized constant of the constant
    bound to [weights_m] and the canonicalized constant of the constant
    bound to [mul_const_m] (same element type and buffer, the shape with the
    first two of three dimensions merged; the bound constant itself at
    rank 2).  When the subtract is matched the fused node has a fourth
    operand, a third new transpose, by the same permutation constant, of the
    canonicalized constant of the constant bound to [sub_const_m], and no
    fourth operand otherwise.  With r the rank of the canonicalized weight
    (always 2), the permutation constant is the captured one if its element
    count is r, and otherwise a new [i32] constant of shape [r] holding
    [0, ..., r-3, r-1, r-2]. *)
Theorem transpose_is_propagated g root m g' :
  well_formed g = true →
  Matcher_match fully_connected_m g root = Some m →
  this_run_on_node root g = Ok (true, g') →
  count (get_pattern_value_map m) transpose_m = true →
  ∃ new_fc fused data_v w sv b s cw cs tc shape captured order_shape,
    (length g ≤ new_fc)%nat ∧
    node_at g' new_fc = Some fused ∧ type_info fused = FullyConnectedCompressed ∧
    (∀ p n, (length g ≤ p)%nat → p ≠ new_fc → node_at g' p = Some n →
            type_info n ≠ FullyConnectedCompressed) ∧
    node_at g' root = None ∧
    (∀ p, (p < length g)%nat → p ≠ root →
          node_at g' p = rewire root new_fc <$> node_at g p) ∧
    get_pattern_value_map m !! pattern_id data_m = Some data_v ∧
    get_pattern_value_map m !! pattern_id weights_m = Some w ∧
    get_pattern_value_map m !! pattern_id mul_const_m = Some sv ∧
    canonical_of g g' true false (get_node_shared_ptr w) cw ∧
    canonical_of g g' true false (get_node_shared_ptr sv) cs ∧
    inputs fused !! 0%nat = Some (output0 (get_node_shared_ptr data_v)) ∧
    inputs fused !! 1%nat = Some (output0 b) ∧
    inputs fused !! 2%nat = Some (output0 s) ∧
    transposed_by g' b cw tc ∧ transposed_by g' s cs tc ∧
    (length g ≤ b)%nat ∧ (length g ≤ s)%nat ∧ b ≠ s ∧ cw ≠ cs ∧
    (if count (get_pattern_value_map m) subtract_m
     then ∃ zv z cz,
         get_pattern_value_map m !! pattern_id sub_const_m = Some zv ∧
         canonical_of g g' true false (get_node_shared_ptr zv) cz ∧
         inputs fused !! 3%nat = Some (output0 z) ∧ length (inputs fused) = 4%nat ∧
         transposed_by g' z cz tc ∧
         (length g ≤ z)%nat ∧ z ≠ b ∧ z ≠ s ∧ cz ≠ cw ∧ cz ≠ cs
     else length (inputs fused) = 3%nat) ∧
    shape_of g' cw = Some shape ∧ length shape = 2%nat ∧
    get_pattern_value_map m !! pattern_id transpose_const_m = Some captured ∧
    shape_of g (get_node_shared_ptr captured) = Some order_shape ∧
    ((shape_size order_shape = N.of_nat (length shape) ∧
      tc = get_node_shared_ptr captured) ∨
     (shape_size order_shape ≠ N.of_nat (length shape) ∧ (length g ≤ tc)%nat ∧
      ∃ n, node_at g' tc = Some n ∧
           op n = a_Constant i32 [N.of_nat (length shape)]
                    (i32_values (swap_last_two (length shape))))).
Proof.
  intros Hwf Hm Hrun Hht.
  destruct (run_on_node_true _ _ _ _ _ Hwf Hrun) as (m' & f & Hm' & Hveto & Hcan & Hf).
  assert (m' = m) as -> by congruence.
  pose proof (match_facts_of_match _ _ _ Hm) as Hmf.
  pose proof Hmf as [_ (old & data_v & b_v & Hold & _ & Hino & Hdata) _ _
                     (s0 & Hs0 & Hst & Hsc0) _ _ _].
  destruct (scale_value_shape _ _ Hwf Hst Hsc0) as (ns & ets & ss & ds & _ & _ & Hshape & _).
  rewrite (run_on_node_match _ _ _ _ _ Hm) in Hrun.
  rewrite (callback_prefix _ _ _ _ _ _ _ Hmf Hveto Hs0 Hshape), Hht in Hrun.
  apply bind_Ok_inv in Hrun as (nf & g5 & Hbuild & Hsub).
  destruct (build_fused_node_transposed _ _ _ _ _ _ Hwf Hm Hbuild)
    as (fused0 & b & s & cw & cs & tc0 & zl & Hnf5 & Hge & Hty0 & (d & Hin0) &
        Hb5 & Hs5 & Hbge & Hbs & Hcwcs & Hz5).
  pose proof (node_at_lt _ _ _ Hold) as Hlt.
  destruct (substituted_forward _ _ _ _ _ _ _ _ Hsub Hnf5) as (fused & Hfused & Hopf & Hinf);
    [lia|].
  assert (type_info fused = FullyConnectedCompressed) as Hty
    by (unfold type_info in *; by rewrite Hopf).
  destruct Hf as [Hold' Hret Hnew Hfused' Hframe Haux _ _ _ (data_v' & Hd' & Hin)
                  [Hfl _] (w & Hw & Hcw & Hb) (sv & Hs & Hcs & Hsc) Hzp Hord].
  assert (new_fc f = nf) as Hnf.
  { destruct (decide (nf = new_fc f)) as [->|Hne]; [done|].
    destruct (Haux nf fused Hge Hne Hfused) as [E|E]; by rewrite E in Hty. }
  rewrite Hnf in *. assert (fc_new f = fused) as Hff by congruence. rewrite Hff in *.
  assert (fc_old f = old) as Hfo by congruence. rewrite Hfo, Hino in Hd'.
  injection Hd' as <-.
  rewrite Hfl, Hht in *. unfold operand_of in *.
  destruct Hb as (tc & Ho & Hb & _). destruct Hsc as (tc' & Ho' & Hsc & _).
  assert (tc' = tc) as -> by congruence.
  rewrite Hin0 in Hinf. cbn in Hinf.
  rewrite !redirect_ne in Hinf by lia. rewrite Hin in Hinf.
  injection Hinf as _ Hwb Hsb Hzl. subst b s.
  assert (Hconst : ∀ p c, canonical_of g g' true (grouped f) p c →
                          ∃ nc, node_at g' c = Some nc ∧ type_info nc = Constant).
  { intros p c (n & n' & et & sh & dd & _ & _ & Hn' & Hop' & _).
    exists n'. split; [done|]. unfold type_info. by rewrite Hop'. }
  assert (canonical_weight f = cw) as Ecw.
  { eapply transposed_operand_source; [exact Hsub|exact Hfused|exact Hty|exact Hb5|lia
                                       |exact Hb|by eapply Hconst]. }
  assert (canonical_scale f = cs) as Ecs.
  { eapply transposed_operand_source; [exact Hsub|exact Hfused|exact Hty|exact Hs5|lia
                                       |exact Hsc|by eapply Hconst]. }
  destruct (Hord _ Ho) as (tcv & ntc & et & os & dc & Htcv & Hntc & Hopc & Hcase).
  pose proof Hcw as (nw & nw' & etw & sw & dw & _ & _ & Hnw' & Hopw' & Hlw & _).
  exists nf, fused, data_v, w, sv, (weight_operand f), (scale_operand f),
         (canonical_weight f), (canonical_scale f), tc,
         (canonical_shape true (grouped f) sw), tcv, os.
  split_and!; try done.
  - intros p n Hp Hpn Hn. destruct (Haux p n Hp Hpn Hn) as [E|E]; by rewrite E.
  - by rewrite Hin.
  - by rewrite Hin.
  - by rewrite Hin.
  - lia.
  - lia.
  - congruence.
  - revert Hzp Hz5 Hzl. destruct (count (get_pattern_value_map m) subtract_m);
      intros Hzp Hz5 Hzl.
    + destruct Hzp as (zv & cz & zo & Hzv & Hzo & Hcz & (tc'' & Ho'' & Hz & _)).
      assert (tc'' = tc) as -> by congruence.
      destruct Hz5 as (z & cz5 & -> & Hiz5 & Hsz & Hzw & Hzs).
      rewrite Hzo in Hzl. cbn in Hzl. rewrite redirect_ne in Hzl by lia.
      injection Hzl as ->.
      assert (cz = cz5) as ->.
      { eapply transposed_operand_source; [exact Hsub|exact Hfused|exact Hty|exact Hiz5|lia
                                           |exact Hz|by eapply Hconst]. }
      exists zv, z, cz5. rewrite Hin, Hzo. cbn.
      split_and!; try done; try lia; congruence.
    + rewrite Hin, Hzp. done.
  - by eapply shape_of_Constant.
  - by eapply shape_of_Constant.
  - rewrite Hlw. done.
Qed.

End Transposed.

Lemma transpose_is_propagated_witness :
  transposed_by (rewritten scenario_graph_transposed 7) 12 10 11 ∧
  transposed_by (rewritten scenario_graph_transposed 7) 13 9 11 ∧
  canonical_of scenario_graph_transposed (rewritten scenario_graph_transposed 7)
    true false 1 10 ∧
  canonical_of scenario_graph_transposed (rewritten scenario_graph_transposed 7)
    true false 3 9 ∧
  ∃ fused, node_at (rewritten scenario_graph_transposed 7) 14 = Some fused ∧
           inputs fused = [output0 0; output0 12; output0 13].
Proof.
  destruct (transpose_is_propagated allow_all unknown_output scenario_graph_transposed 7
              (match_at scenario_graph_transposed 7)
              (rewritten scenario_graph_transposed 7))
    as (new_fc & fused & data_v & w & sv & b & s & cw & cs & tc & sh & cap & os &
        Hge & Hf & Hty & _ & _ & _ & _ & Hw & Hsv & Hcw & Hcs & _ & Hb & Hs & Htb & Hts &
        _);
    [vm_compute; reflexivity..|].
  assert (new_fc = 14%nat) as ->.
  { pose proof (node_at_lt _ _ _ Hf) as Hlt.
    assert (length (rewritten scenario_graph_transposed 7) = 15%nat) as E
      by (vm_compute; reflexivity).
    rewrite E in Hlt. change (length scenario_graph_transposed) with 9%nat in Hge.
    assert (new_fc ∈ seq 9 6) as Hin by (apply elem_of_seq; lia).
    cbn in Hin. repeat (apply elem_of_cons in Hin as [->|Hin]); try done.
    all: first [by apply elem_of_nil in Hin
               |vm_compute in Hf; injection Hf as <-; by vm_compute in Hty]. }
  vm_compute in Hf. injection Hf as <-.
  vm_compute in Hb. injection Hb as <-. vm_compute in Hs. injection Hs as <-.
  vm_compute in Hw. injection Hw as <-. vm_compute in Hsv. injection Hsv as <-.
  pose proof Htb as (nb & Hnb & _ & Hib). vm_compute in Hnb. injection Hnb as <-.
  vm_compute in Hib. injection Hib as <- <-.
  pose proof Hts as (ns & Hns & _ & His). vm_compute in Hns. injection Hns as <-.
  vm_compute in His. injection His as <-.
  split_and!; [exact Htb|exact Hts|exact Hcw|exact Hcs|].
  eexists. split; vm_compute; reflexivity.
Defined.
